(** * HotelHarvest: the crawl frontier, URL rules and image pipeline

    A shallow embedding of [src/main.py] (class [WebsiteScraper] and the
    steps of the pipeline) and [src/images.py] (class [ImageDownloader]),
    followed by the properties of the crawler that the specification
    states about them and by further properties of the same code.

    Python [str] values are modelled as [string] (8-bit characters), Python
    [int] as [Z], [set] as [gset], [dict] as [gmap] or, where insertion
    order is observable, as an association list.  A Python call that can
    raise returns [option]: [None] is the raised exception.  The web and
    the file system are parameters: a world answers the requests and
    tells which directories can be made and which files opened. *)

From Stdlib Require Import ZArith QArith Ascii String Bool List Lia.
From stdpp Require Import base option list gmap sets strings.

Set Warnings "-clear-no-such-hyp".

Local Open Scope bool_scope.

(* ===================================================================== *)
(** * Python string methods used by the sources *)
(* ===================================================================== *)

Module PyStr.

(** [str.lower()] on one character: A-Z, and the capital letters of the
    Latin-1 block (all but the multiplication sign), move up by 32. *)
Definition lower_char (c : ascii) : ascii :=
  let n := N_of_ascii c in
  if ((65 <=? n) && (n <=? 90))%N
     || ((192 <=? n) && (n <=? 222) && negb (n =? 215))%N
  then ascii_of_N (n + 32) else c.

Fixpoint lower (s : string) : string :=
  match s with
  | EmptyString => EmptyString
  | String c s' => String (lower_char c) (lower s')
  end.

(** [s.startswith(p)] *)
Fixpoint startswith (p s : string) : bool :=
  match p, s with
  | EmptyString, _ => true
  | String _ _, EmptyString => false
  | String a p', String b s' => Ascii.eqb a b && startswith p' s'
  end.

(** [sub in s] *)
Fixpoint contains (sub s : string) : bool :=
  startswith sub s
  || match s with
     | EmptyString => false
     | String _ s' => contains sub s'
     end.

(** [s.endswith(suf)] *)
Fixpoint endswith (suf s : string) : bool :=
  String.eqb suf s
  || match s with
     | EmptyString => false
     | String _ s' => endswith suf s'
     end.

(** [c in s] for a single character [c] *)
Fixpoint has_char (c : ascii) (s : string) : bool :=
  match s with
  | EmptyString => false
  | String a s' => Ascii.eqb a c || has_char c s'
  end.

(** [all(p(c) for c in s)] *)
Fixpoint all_chars (p : ascii -> bool) (s : string) : bool :=
  match s with
  | EmptyString => true
  | String a s' => p a && all_chars p s'
  end.

(** [s.partition(c)]: the text before the first [c], and the text after it
    when [c] occurs. *)
Fixpoint partition (c : ascii) (s : string) : string * option string :=
  match s with
  | EmptyString => (EmptyString, None)
  | String a s' =>
      if Ascii.eqb a c then (EmptyString, Some s')
      else let (h, t) := partition c s' in (String a h, t)
  end.

(** [s.rpartition(c)]: the text before the last [c] when [c] occurs, and
    the text after it (all of [s] when it does not). *)
Fixpoint rpartition (c : ascii) (s : string) : option string * string :=
  match s with
  | EmptyString => (None, EmptyString)
  | String a s' =>
      match rpartition c s' with
      | (Some h, t) => (Some (String a h), t)
      | (None, t) =>
          if Ascii.eqb a c then (Some EmptyString, t) else (None, String a t)
      end
  end.

(** [s.split(c)] *)
Fixpoint split_on (c : ascii) (s : string) : list string :=
  match s with
  | EmptyString => [EmptyString]
  | String a s' =>
      if Ascii.eqb a c then EmptyString :: split_on c s'
      else match split_on c s' with
           | h :: t => String a h :: t
           | [] => [String a EmptyString]
           end
  end.

(** [sep.join(l)] *)
Fixpoint join (sep : string) (l : list string) : string :=
  match l with
  | [] => EmptyString
  | [x] => x
  | x :: l' => x +:+ sep +:+ join sep l'
  end.

(** [s.rstrip(c)] for a single character [c] *)
Fixpoint rstrip_char (c : ascii) (s : string) : string :=
  match s with
  | EmptyString => EmptyString
  | String a s' =>
      match rstrip_char c s' with
      | EmptyString => if Ascii.eqb a c then EmptyString else String a EmptyString
      | r => String a r
      end
  end.

(** [s.lstrip(chars)], the characters given as a predicate *)
Fixpoint lstrip_pred (p : ascii -> bool) (s : string) : string :=
  match s with
  | EmptyString => EmptyString
  | String a s' => if p a then lstrip_pred p s' else s
  end.

(** removal of every character satisfying [p] (chained [s.replace(b, "")]) *)
Fixpoint remove_pred (p : ascii -> bool) (s : string) : string :=
  match s with
  | EmptyString => EmptyString
  | String a s' => if p a then remove_pred p s' else String a (remove_pred p s')
  end.

(** the text before the first character satisfying [p], and the rest from
    that character on *)
Fixpoint span_until (p : ascii -> bool) (s : string) : string * string :=
  match s with
  | EmptyString => (EmptyString, EmptyString)
  | String a s' =>
      if p a then (EmptyString, s)
      else let (h, t) := span_until p s' in (String a h, t)
  end.

(** [any(t in s for t in terms)] *)
Definition contains_any (terms : list string) (s : string) : bool :=
  existsb (fun t => contains t s) terms.

(** [any(s.endswith(e) for e in exts)] *)
Definition endswith_any (exts : list string) (s : string) : bool :=
  existsb (fun e => endswith e s) exts.

(** [x in l] for a list of strings *)
Definition str_in (x : string) (l : list string) : bool :=
  existsb (String.eqb x) l.

#[global] Arguments startswith : simpl never.
#[global] Arguments endswith : simpl never.
#[global] Arguments contains : simpl never.
#[global] Arguments contains_any : simpl never.
#[global] Arguments endswith_any : simpl never.
#[global] Arguments str_in : simpl never.

End PyStr.

(* ===================================================================== *)
(** * [urllib.parse.urlparse] *)
(* ===================================================================== *)

(** The sources take every URL apart with the standard library's
    [urlparse].  The model follows [urllib/parse.py] of CPython 3.11 and
    3.12 for [str] arguments with the default [scheme=''] and
    [allow_fragments=True].  The validation of a bracketed host by the
    [ipaddress] module is the one part left to a parameter. *)

Module UrlLib.
Import PyStr.

Record ParseResult := mkParse {
  scheme : string;
  netloc : string;
  path : string;
  params : string;
  query : string;
  fragment : string
}.

(** a parse with another fragment *)
Definition set_fragment (f : string) (p : ParseResult) : ParseResult :=
  mkParse (scheme p) (netloc p) (path p) (params p) (query p) f.

(** [_WHATWG_C0_CONTROL_OR_SPACE]: code points 0 to 32 *)
Definition is_c0_or_space (c : ascii) : bool := (N_of_ascii c <=? 32)%N.

(** [_UNSAFE_URL_BYTES_TO_REMOVE]: tab, carriage return, newline *)
Definition is_unsafe (c : ascii) : bool :=
  let n := N_of_ascii c in ((n =? 9) || (n =? 13) || (n =? 10))%N.

(** [c.isascii() and c.isalpha()] *)
Definition is_ascii_alpha (c : ascii) : bool :=
  let n := N_of_ascii c in
  (((65 <=? n) && (n <=? 90)) || ((97 <=? n) && (n <=? 122)))%N.

(** [c in scheme_chars]: letters, digits, [+], [-] and [.] *)
Definition is_scheme_char (c : ascii) : bool :=
  let n := N_of_ascii c in
  is_ascii_alpha c
  || (((48 <=? n) && (n <=? 57)) || (n =? 43) || (n =? 45) || (n =? 46))%N.

(** the scheme test of [urlsplit]: [i = url.find(':')], [i > 0], a letter
    first and only scheme characters before the colon *)
Definition split_scheme (url : string) : string * string :=
  match partition ":" url with
  | (String c0 pre', Some rest) =>
      if is_ascii_alpha c0 && all_chars is_scheme_char (String c0 pre')
      then (lower (String c0 pre'), rest)
      else (EmptyString, url)
  | _ => (EmptyString, url)
  end.

(** the delimiters that end the network location in [_splitnetloc] *)
Definition is_netloc_delim (c : ascii) : bool :=
  Ascii.eqb c "/" || Ascii.eqb c "?" || Ascii.eqb c "#".

(** [_splitnetloc(url, 2)] for a [url] that starts with two slashes *)
Definition splitnetloc (url : string) : option (string * string) :=
  match url with
  | String a (String b rest) =>
      if Ascii.eqb a "/" && Ascii.eqb b "/"
      then Some (span_until is_netloc_delim rest)
      else None
  | _ => None
  end.

(** the [if url[:2] == '//'] step of [urlsplit]: the network location,
    empty without the two slashes, and the rest *)
Definition split_netloc (url : string) : string * string :=
  match splitnetloc url with
  | Some (n, rest) => (n, rest)
  | None => (EmptyString, url)
  end.

Section Parse.

(** [_check_bracketed_host(hostname)] does not raise: [hostname] is an
    IPvFuture literal or an address that [ipaddress.ip_address] reads as
    IPv6. *)
Variable bracketed_host_ok : string -> bool.

(** [_check_bracketed_netloc(netloc)] does not raise *)
Definition check_bracketed_netloc (netloc : string) : bool :=
  let hostname_and_port := snd (rpartition "@" netloc) in
  match partition "[" hostname_and_port with
  | (before_bracket, Some bracketed) =>
      match before_bracket with
      | String _ _ => false
      | EmptyString =>
          let (hostname, port) := partition "]" bracketed in
          match port with
          | Some (String c p) =>
              if Ascii.eqb c ":" then bracketed_host_ok hostname else false
          | _ => bracketed_host_ok hostname
          end
      end
  | (hostname_and_port, None) =>
      bracketed_host_ok (fst (partition ":" hostname_and_port))
  end.

(** the two bracket tests of [urlsplit]; [false] is the [ValueError] *)
Definition netloc_ok (netloc : string) : bool :=
  let o := has_char "[" netloc in
  let c := has_char "]" netloc in
  if xorb o c then false
  else if o && c then check_bracketed_netloc netloc
  else true.

Definition or_empty (o : option string) : string :=
  match o with Some s => s | None => EmptyString end.

Record SplitResult := mkSplit {
  s_scheme : string;
  s_netloc : string;
  s_path : string;
  s_query : string;
  s_fragment : string
}.

(** the text of a URL after [urlsplit] has stripped leading C0 controls and
    spaces and removed tabs and line breaks *)
Definition clean (url : string) : string :=
  remove_pred is_unsafe (lstrip_pred is_c0_or_space url).

(** [urlsplit(url)].  [_checknetloc] raises only when NFKC normalisation of
    a non-ASCII netloc produces one of [/?#@:], which no 8-bit character
    does, so it is the identity here. *)
Definition urlsplit (url : string) : option SplitResult :=
  let (sch, url1) := split_scheme (clean url) in
  let (net, url2) := split_netloc url1 in
  if netloc_ok net then
    let (url3, frag) := partition "#" url2 in
    let (url4, qry) := partition "?" url3 in
    Some (mkSplit sch net url4 (or_empty qry) (or_empty frag))
  else None.

(** [uses_params] *)
Definition uses_params : list string :=
  [""; "ftp"; "hdl"; "prospero"; "http"; "imap"; "https"; "shttp"; "rtsp";
   "rtspu"; "sip"; "sips"; "mms"; "sftp"; "tel"].

(** [_splitparams(url)]: only the last path segment can carry parameters *)
Definition splitparams (url : string) : string * string :=
  match rpartition "/" url with
  | (Some dir, seg) =>
      match partition ";" seg with
      | (before, Some after) => (dir +:+ "/" +:+ before, after)
      | (_, None) => (url, EmptyString)
      end
  | (None, _) =>
      let (before, after) := partition ";" url in (before, or_empty after)
  end.

(** [urlparse(url)]; [None] is the [ValueError] of a malformed bracketed
    host *)
Definition urlparse (url : string) : option ParseResult :=
  match urlsplit url with
  | None => None
  | Some r =>
      let (p, prm) :=
        if str_in (s_scheme r) uses_params && has_char ";" (s_path r)
        then splitparams (s_path r)
        else (s_path r, EmptyString) in
      Some (mkParse (s_scheme r) (s_netloc r) p prm (s_query r) (s_fragment r))
  end.

End Parse.

End UrlLib.

(* ===================================================================== *)
(** * [src/main.py]: class [WebsiteScraper] *)
(* ===================================================================== *)

Module Scraper.
Import PyStr UrlLib.

(** what [tldextract.extract(url)] returns *)
Record ExtractResult := mkExtract {
  subdomain : string;
  domain : string;
  suffix : string
}.

(** The parsed HTML of a fetched page, as far as the crawler looks at it:
    the markdown text of [_html_to_markdown] and the link lists that
    [extract_language_variants], [extract_header_menu_links] and
    [extract_booking_links] return for it.  [anchors] lists
    [urljoin(url, href)] for every [a] element with an [href] that is not
    empty and starts with neither [#] nor [javascript:]. *)
Record Page := mkPage {
  markdown : string;
  language_variants : list string;
  header_menu_links : list string;
  booking_links : list string;
  anchors : list string
}.

(** the outcome of [requests.get(url, ...)] *)
Inductive Response :=
  | RequestError
  | Http (status_code : Z) (page : Page).

(** where a request is made: in the upfront pass of [crawl] over the
    landing page, in [_process_url], or in the exploration of a language
    subdomain *)
Inductive Origin := Upfront | Processing | Exploration.

(** The web: what a GET of a URL answers, given the requests made so far. *)
Definition World := list (Origin * string) -> string -> Response.

(** the attributes that [__init__] sets once *)
Record Config := mkConfig {
  base_url : string;
  root_domain : string;
  max_booking_urls : Z
}.

(** the attributes that change during a crawl; [requests] is the log of
    the URLs passed to [requests.get], oldest first, each with the place
    of the call *)
Record State := mkState {
  visited_urls : gset string;
  markdown_content : gmap string string;
  main_page_links : gset string;
  booking_urls_crawled : Z;
  booking_domains_seen : gset string;
  language_subdomains : gset string;
  requests : list (Origin * string)
}.

Definition priority_paths : list string :=
  ["/rooms"; "/suites"; "/accommodations"; "/lodging";
   "/facilities"; "/amenities"; "/services";
   "/photos"; "/gallery"; "/images";
   "/spa"; "/restaurant"; "/dining";
   "/en/rooms"; "/en/suites"; "/en/accommodations"; "/en/facilities";
   "/en/amenities"; "/en/photos"; "/en/gallery"; "/en/dining";
   "/fr/chambres"; "/de/zimmer"; "/es/habitaciones"; "/it/camere";
   "/room-types"; "/our-rooms"; "/guest-rooms"; "/our-suites";
   "/hotel-facilities"; "/hotel-amenities"; "/photo-gallery";
   "/booking"; "/reserve"; "/reservation"; "/book-now"; "/book";
   "/en/booking"; "/en/reserve"; "/en/book-now"].

Definition language_prefixes : list string :=
  ["en"; "fr"; "de"; "es"; "it"; "nl"; "pt"; "ru"; "zh"; "ja"; "ko"].

Definition potential_booking_domains : list string :=
  ["booking"; "reserve"; "reservation"; "book"].

(** the terms [is_booking_url] looks for in the path and in the query *)
Definition booking_terms : list string := ["book"; "reserve"; "reservation"].

(** the extensions [is_valid_url] skips *)
Definition file_extensions : list string :=
  [".pdf"; ".jpg"; ".jpeg"; ".png"; ".gif"; ".svg";
   ".css"; ".js"; ".ico"; ".xml"; ".zip"; ".doc"; ".docx"].

(** the query keys [normalize_url] drops from a booking URL *)
Definition volatile_keys : list string :=
  ["lang"; "language"; "currency"; "nsid"; "sessionid"].

(** [d[k] = v] on a dict in insertion order: a key already present keeps
    its place and takes the new value *)
Fixpoint dict_set (k v : string) (d : list (string * string))
  : list (string * string) :=
  match d with
  | [] => [(k, v)]
  | (k', v') :: d' =>
      if String.eqb k' k then (k', v) :: d' else (k', v') :: dict_set k v d'
  end.

(** one turn of the loop over [parsed.query.split('&')] *)
Definition add_param (d : list (string * string)) (param : string)
  : list (string * string) :=
  match partition "=" param with
  | (key, Some value) =>
      if str_in (lower key) volatile_keys then d else dict_set key value d
  | (_, None) => d
  end.

Definition query_params (q : string) : list (string * string) :=
  fold_left add_param (split_on "&" q) [].

(** ['&'.join(f"{k}={v}" for k, v in query_params.items())] *)
Definition render_params (d : list (string * string)) : string :=
  join "&" (map (fun kv => fst kv +:+ "=" +:+ snd kv) d).

Definition is_empty (s : string) : bool :=
  match s with EmptyString => true | _ => false end.

(** [self.language_subdomains.add(d)] *)
Definition add_language_subdomain (d : string) (s : State) : State :=
  mkState (visited_urls s) (markdown_content s) (main_page_links s)
    (booking_urls_crawled s) (booking_domains_seen s)
    ({[ d ]} ∪ language_subdomains s) (requests s).

Section WithLibraries.

Variable bracketed_host_ok : string -> bool.
Variable tldextract : string -> ExtractResult.

Local Abbreviation urlparse := (UrlLib.urlparse bracketed_host_ok).

(** [f"{extracted.domain}.{extracted.suffix}"] *)
Definition registered_domain (url : string) : string :=
  let e := tldextract url in domain e +:+ "." +:+ suffix e.

(** [WebsiteScraper.is_same_site] *)
Definition is_same_site (cfg : Config) (url : string) : option bool :=
  parsed ← urlparse url;
  if is_empty (netloc parsed) then Some false
  else Some (String.eqb (registered_domain url) (root_domain cfg)).

(** [WebsiteScraper.is_valid_url] *)
Definition is_valid_url (cfg : Config) (url : string) : option bool :=
  parsed ← urlparse url;
  if is_empty (netloc parsed) then Some false
  else
    same ← is_same_site cfg url;
    if negb same then
      if contains_any potential_booking_domains (lower (netloc parsed))
         && contains (root_domain cfg) (lower (netloc parsed))
      then Some true
      else Some false
    else if endswith_any file_extensions (lower (path parsed)) then Some false
    else Some true.

(** [WebsiteScraper.is_booking_url] *)
Definition is_booking_url (url : string) : option bool :=
  parsed ← urlparse url;
  if contains_any potential_booking_domains (lower (netloc parsed)) then Some true
  else if contains_any booking_terms (lower (path parsed)) then Some true
  else if negb (is_empty (query parsed))
          && contains_any booking_terms (lower (query parsed)) then Some true
  else Some false.

(** [WebsiteScraper.normalize_url] *)
Definition normalize_url (url : string) : option string :=
  parsed ← urlparse url;
  let normalized := scheme parsed +:+ "://" +:+ netloc parsed +:+ path parsed in
  if negb (is_empty (query parsed)) then
    booking ← is_booking_url url;
    if booking : bool then
      let qp := query_params (query parsed) in
      match qp with
      | [] => Some (rstrip_char "/" normalized)
      | _ => Some (rstrip_char "/" (normalized +:+ "?" +:+ render_params qp))
      end
    else Some (rstrip_char "/" (normalized +:+ "?" +:+ query parsed))
  else Some (rstrip_char "/" normalized).

(** [WebsiteScraper.is_priority_url]; it records a language subdomain in
    [language_subdomains] as it answers *)
Definition is_priority_url (s : State) (url : string) : option (State * bool) :=
  parsed ← urlparse url;
  let p := lower (path parsed) in
  if str_in (subdomain (tldextract url)) language_prefixes then
    Some (add_language_subdomain (netloc parsed) s, true)
  else if contains_any potential_booking_domains (lower (netloc parsed)) then
    Some (s, true)
  else
    Some (s, existsb (fun priority => contains priority p) priority_paths
             || bool_decide (url ∈ main_page_links s)).

(** ** The crawl state and its updates *)

Definition initial_state : State :=
  mkState ∅ ∅ ∅ 0 ∅ ∅ [].

Definition mark_visited (u : string) (s : State) : State :=
  mkState ({[ u ]} ∪ visited_urls s) (markdown_content s) (main_page_links s)
    (booking_urls_crawled s) (booking_domains_seen s) (language_subdomains s)
    (requests s).

Definition store_content (u c : string) (s : State) : State :=
  mkState (visited_urls s) (<[ u := c ]> (markdown_content s))
    (main_page_links s) (booking_urls_crawled s) (booking_domains_seen s)
    (language_subdomains s) (requests s).

Definition add_main_page_link (u : string) (s : State) : State :=
  mkState (visited_urls s) (markdown_content s) ({[ u ]} ∪ main_page_links s)
    (booking_urls_crawled s) (booking_domains_seen s) (language_subdomains s)
    (requests s).

Definition see_booking_domain (d : string) (s : State) : State :=
  mkState (visited_urls s) (markdown_content s) (main_page_links s)
    (booking_urls_crawled s) ({[ d ]} ∪ booking_domains_seen s)
    (language_subdomains s) (requests s).

Definition count_booking_url (s : State) : State :=
  mkState (visited_urls s) (markdown_content s) (main_page_links s)
    (booking_urls_crawled s + 1) (booking_domains_seen s)
    (language_subdomains s) (requests s).

Definition log_request (o : Origin) (u : string) (s : State) : State :=
  mkState (visited_urls s) (markdown_content s) (main_page_links s)
    (booking_urls_crawled s) (booking_domains_seen s) (language_subdomains s)
    (requests s ++ [(o, u)]).

(** [requests.get(url, ...)]: the answer of the web, and the request logged *)
Definition get (w : World) (s : State) (o : Origin) (url : string)
  : State * Response :=
  (log_request o url s, w (requests s) url).

(** ** [_process_url] *)

(** The loops of [_process_url] and [crawl] that turn extracted links into
    new URLs: a link that [is_valid_url] accepts is normalised and appended
    unless it is in [visited_urls]; with [unique] (the loop over all
    anchors) also unless it is in [new_urls] already. *)
Fixpoint collect_links (cfg : Config) (visited : gset string) (unique : bool)
    (links new_urls : list string) : option (list string) :=
  match links with
  | [] => Some new_urls
  | link :: rest =>
      valid ← is_valid_url cfg link;
      if valid : bool then
        normalized_link ← normalize_url link;
        if bool_decide (normalized_link ∈ visited)
           || (unique && str_in normalized_link new_urls)
        then collect_links cfg visited unique rest new_urls
        else collect_links cfg visited unique rest (new_urls ++ [normalized_link])
      else collect_links cfg visited unique rest new_urls
  end.

(** the body of [_process_url] after the content is stored: language
    variants, menu links, booking links while the booking count is under
    the limit, then all other anchors *)
Definition extract_new_urls (cfg : Config) (s : State) (page : Page)
  : option (list string) :=
  l1 ← collect_links cfg (visited_urls s) false (language_variants page) [];
  l2 ← collect_links cfg (visited_urls s) false (header_menu_links page) l1;
  l3 ← (if (booking_urls_crawled s <? max_booking_urls cfg)%Z
        then collect_links cfg (visited_urls s) false (booking_links page) l2
        else Some l2);
  collect_links cfg (visited_urls s) true (anchors page) l3.

(** what the booking test at the head of [_process_url] decides *)
Inductive Gate :=
  | GateRaised
  | GateDropped
  | GateOpen (s : State).

Definition booking_gate (cfg : Config) (s : State) (url : string) : Gate :=
  match is_booking_url url, urlparse url with
  | Some true, Some parsed =>
      if bool_decide (netloc parsed ∈ booking_domains_seen s) then
        if (booking_urls_crawled s >=? max_booking_urls cfg)%Z then GateDropped
        else GateOpen (count_booking_url s)
      else GateOpen (count_booking_url (see_booking_domain (netloc parsed) s))
  | Some false, _ => GateOpen s
  | _, _ => GateRaised
  end.

(** the [try] block of [_process_url]: fetch, store, extract; every
    exception inside it ends the call with an empty list *)
Definition fetch_page (w : World) (cfg : Config) (s : State) (url : string)
  : State * list string :=
  let (s1, r) := get w s Processing url in
  match r with
  | RequestError => (s1, [])
  | Http status page =>
      if negb (status =? 200)%Z then (s1, [])
      else
        let s2 := store_content url (markdown page) s1 in
        match extract_new_urls cfg s2 page with
        | Some new_urls => (s2, new_urls)
        | None => (s2, [])
        end
  end.

(** [WebsiteScraper._process_url]: the state after the call and the list
    it returns, [None] when it raises; the sleep before the request is
    left out *)
Definition _process_url (w : World) (cfg : Config) (s : State) (url : string)
  : State * option (list string) :=
  match normalize_url url with
  | None => (s, None)
  | Some normalized_url =>
      if bool_decide (normalized_url ∈ visited_urls s) then (s, Some [])
      else
        let s1 := mark_visited normalized_url s in
        match booking_gate cfg s1 url with
        | GateRaised => (s1, None)
        | GateDropped => (s1, Some [])
        | GateOpen s2 =>
            let (s3, new_urls) := fetch_page w cfg s2 url in (s3, Some new_urls)
        end
  end.

(** ** [crawl] *)

(** how a run of [crawl] ends: its loop ran to an empty list, an exception
    reached the outer [except] (both return [markdown_content]), or the
    model ran out of fuel *)
Inductive Ending := Finished | Raised | OutOfFuel.

(** the loop of [crawl] that fills [main_page_links] *)
Fixpoint add_main_page_links (cfg : Config) (links : list string) (s : State)
  : State * bool :=
  match links with
  | [] => (s, true)
  | full_url :: rest =>
      match is_valid_url cfg full_url with
      | None => (s, false)
      | Some false => add_main_page_links cfg rest s
      | Some true =>
          match normalize_url full_url with
          | None => (s, false)
          | Some normalized_url =>
              add_main_page_links cfg rest (add_main_page_link normalized_url s)
          end
      end
  end.

(** the upfront pass over the landing page: the state and the priority
    URLs, [None] when it raises *)
Definition seed (w : World) (cfg : Config) (s : State)
  : State * option (list string) :=
  let (s1, r) := get w s Upfront (base_url cfg) in
  match r with
  | RequestError => (s1, None)
  | Http status page =>
      if negb (status =? 200)%Z then (s1, Some [])
      else
        let (s2, ok) := add_main_page_links cfg (anchors page) s1 in
        if ok then
          (s2,
           l1 ← collect_links cfg (visited_urls s2) false (language_variants page) [];
           l2 ← collect_links cfg (visited_urls s2) false (header_menu_links page) l1;
           collect_links cfg (visited_urls s2) false (booking_links page) l2)
        else (s2, None)
  end.

(** the menu links of a language subdomain's page that are appended to
    [urls_to_visit]; an exception keeps what was appended before it *)
Fixpoint add_subdomain_links (cfg : Config) (visited : gset string)
    (links urls_to_visit : list string) : list string :=
  match links with
  | [] => urls_to_visit
  | link :: rest =>
      match is_valid_url cfg link with
      | None => urls_to_visit
      | Some valid =>
          if valid && negb (bool_decide (link ∈ visited)) then
            match normalize_url link with
            | None => urls_to_visit
            | Some normalized_url =>
                add_subdomain_links cfg visited rest (urls_to_visit ++ [normalized_url])
            end
          else add_subdomain_links cfg visited rest urls_to_visit
      end
  end.

(** the exploration of a language subdomain after its priority URL was
    processed *)
Definition explore_subdomain (w : World) (cfg : Config) (s : State)
    (url : string) (urls_to_visit : list string) : State * list string :=
  let (s1, r) := get w s Exploration url in
  match r with
  | RequestError => (s1, urls_to_visit)
  | Http status page =>
      if (status =? 200)%Z then
        (s1, add_subdomain_links cfg (visited_urls s1) (header_menu_links page)
               urls_to_visit)
      else (s1, urls_to_visit)
  end.

(** the loop over [priority_urls]; the flag is [false] when it raises *)
Fixpoint process_priority (w : World) (cfg : Config) (priority_urls : list string)
    (s : State) (urls_to_visit : list string) : State * list string * bool :=
  match priority_urls with
  | [] => (s, urls_to_visit, true)
  | url :: rest =>
      if bool_decide (url ∈ visited_urls s) then
        process_priority w cfg rest s urls_to_visit
      else
        match _process_url w cfg s url with
        | (s1, None) => (s1, urls_to_visit, false)
        | (s1, Some _) =>
            match urlparse url with
            | None => (s1, urls_to_visit, false)
            | Some _ =>
                if str_in (subdomain (tldextract url)) language_prefixes then
                  let (s2, q) := explore_subdomain w cfg s1 url urls_to_visit in
                  process_priority w cfg rest s2 q
                else process_priority w cfg rest s1 urls_to_visit
            end
        end
  end.

(** the keys of [urls_to_visit.sort(key=...)], computed in list order *)
Fixpoint priority_keys (s : State) (urls : list string)
  : State * option (list (string * bool)) :=
  match urls with
  | [] => (s, Some [])
  | u :: rest =>
      match is_priority_url s u with
      | None => (s, None)
      | Some (s1, k) =>
          match priority_keys s1 rest with
          | (s2, Some ks) => (s2, Some ((u, k) :: ks))
          | (s2, None) => (s2, None)
          end
      end
  end.

(** the stable sort on the keys 0 and 1: priority URLs first *)
Definition sort_by_priority (ks : list (string * bool)) : list string :=
  map fst (filter (fun uk => snd uk = true) ks)
  ++ map fst (filter (fun uk => snd uk = false) ks).

(** the loop that appends the new URLs to [urls_to_visit] *)
Fixpoint enqueue (visited : gset string) (new_urls urls_to_visit : list string)
  : list string :=
  match new_urls with
  | [] => urls_to_visit
  | new_url :: rest =>
      if negb (bool_decide (new_url ∈ visited)) && negb (str_in new_url urls_to_visit)
      then enqueue visited rest (urls_to_visit ++ [new_url])
      else enqueue visited rest urls_to_visit
  end.

(** the [while urls_to_visit] loop, one unit of fuel for each turn *)
Fixpoint drain (w : World) (cfg : Config) (fuel : nat) (s : State)
    (urls_to_visit : list string) : State * Ending :=
  match urls_to_visit with
  | [] => (s, Finished)
  | _ :: _ =>
      match fuel with
      | O => (s, OutOfFuel)
      | S fuel' =>
          match priority_keys s urls_to_visit with
          | (s1, None) => (s1, Raised)
          | (s1, Some ks) =>
              match sort_by_priority ks with
              | [] => (s1, Finished)
              | url :: rest =>
                  if bool_decide (url ∈ visited_urls s1) then drain w cfg fuel' s1 rest
                  else
                    match _process_url w cfg s1 url with
                    | (s2, None) => (s2, Raised)
                    | (s2, Some new_urls) =>
                        drain w cfg fuel' s2 (enqueue (visited_urls s2) new_urls rest)
                    end
              end
          end
      end
  end.

(** [WebsiteScraper.crawl]; the mapping it returns is [markdown_content]
    of the final state *)
Definition crawl (w : World) (cfg : Config) (fuel : nat) (s : State)
  : State * Ending :=
  match seed w cfg s with
  | (s1, None) => (s1, Raised)
  | (s1, Some priority_urls) =>
      match _process_url w cfg s1 (base_url cfg) with
      | (s2, None) => (s2, Raised)
      | (s2, Some _) =>
          match process_priority w cfg priority_urls s2 [base_url cfg] with
          | (s3, _, false) => (s3, Raised)
          | (s3, urls_to_visit, true) => drain w cfg fuel s3 urls_to_visit
          end
      end
  end.

End WithLibraries.

End Scraper.

(* ===================================================================== *)
(** * The file system *)
(* ===================================================================== *)

Module Os.

(** What the file system does with the calls of the program.
    [os.makedirs(path, exist_ok=True)] returns ([true]) or raises
    ([false]); [os.path.exists(path)] answers; [open(path, 'wb')] returns
    a file or raises; a [with open(path, 'w', encoding='utf-8') as f:
    json.dump(..., f, ...)] statement runs to its end or raises. *)
Record FileSystem := mkFileSystem {
  makedirs : string -> bool;
  path_exists : string -> bool;
  open_wb : string -> bool;
  dump_json : string -> bool
}.

End Os.

(* ===================================================================== *)
(** * [src/images.py]: class [ImageDownloader] *)
(* ===================================================================== *)

Module Images.
Import PyStr UrlLib.

(** an attribute read with [int(...)]: absent or empty ([None]), present
    with a text that [int] rejects ([Some None]), or an integer *)
Definition IntAttr := option (option Z).

(** an [img] element: [src], [width], [height] and [data-src] *)
Record Img := mkImg {
  img_src : option string;
  img_width : IntAttr;
  img_height : IntAttr;
  img_data_src : option string
}.

(** an element with a [style] attribute: the attribute, and group 1 of the
    [background-image: url(...)] search in it *)
Record Styled := mkStyled {
  style_text : string;
  style_bg_url : option string
}.

(** an [a] element: [href] and [link.text] *)
Record Link := mkLink {
  href : option string;
  text : string
}.

(** the parsed HTML of a page, as far as the downloader looks at it *)
Record Page := mkPage {
  imgs : list Img;
  styled : list Styled;
  links : list Link
}.

Definition empty_page : Page := mkPage [] [] [].

(** an HTTP answer: status, the [Content-Type] and [Content-Length]
    headers, the body bytes and the body parsed as HTML *)
Record HttpResponse := mkResponse {
  status_code : Z;
  content_type : option string;
  content_length : IntAttr;
  content : list Byte.byte;
  html : Page
}.

Inductive Method := HEAD | GET.

(** the outcome of [requests.head] or [requests.get]: a
    [requests.exceptions.RequestException] or an answer *)
Inductive Outcome :=
  | RequestException
  | Answer (r : HttpResponse).

(** The world outside the program, given the requests made so far: what
    a request answers, and what the file system does. *)
Record World := mkWorld {
  answers : list (Method * string) -> Method -> string -> Outcome;
  files : list (Method * string) -> Os.FileSystem
}.

(** a call of [time.sleep]: the configured delay between pages, or a
    backoff of so many seconds *)
Inductive Pause :=
  | Delay
  | Backoff (seconds : Z).

(** the constructor's arguments and what it derives from them *)
Record Config := mkConfig {
  base_url : string;
  domain : string;
  image_dir : string;
  min_width : Z;
  min_height : Z;
  min_size_kb : Z;
  max_pages : Z
}.

(** The attributes that change.  [image_urls] is the one set that the
    source uses both for the image URLs found on a page and for the
    content hashes of [download_image].  [disk] maps a file path to the
    bytes last written to it; [writes], [requests] and [pauses] log the
    file writes, the HTTP requests and the sleeps, oldest first. *)
Record State := mkState {
  visited_urls : gset string;
  image_urls : gset string;
  downloaded_count : Z;
  priority_pages : list string;
  disk : gmap string (list Byte.byte);
  writes : list (string * list Byte.byte);
  requests : list (Method * string);
  pauses : list Pause
}.

Definition initial_state : State :=
  mkState ∅ ∅ 0 [] ∅ [] [] [].

Definition set_visited (v : gset string) (s : State) : State :=
  mkState v (image_urls s) (downloaded_count s) (priority_pages s)
    (disk s) (writes s) (requests s) (pauses s).

Definition set_image_urls (i : gset string) (s : State) : State :=
  mkState (visited_urls s) i (downloaded_count s) (priority_pages s)
    (disk s) (writes s) (requests s) (pauses s).

Definition set_downloaded_count (n : Z) (s : State) : State :=
  mkState (visited_urls s) (image_urls s) n (priority_pages s)
    (disk s) (writes s) (requests s) (pauses s).

Definition add_priority_page (u : string) (s : State) : State :=
  mkState (visited_urls s) (image_urls s) (downloaded_count s)
    (priority_pages s ++ [u]) (disk s) (writes s) (requests s) (pauses s).

(** the bytes [data] arrive in the file at [path] *)
Definition store_file (path : string) (data : list Byte.byte) (s : State) : State :=
  mkState (visited_urls s) (image_urls s) (downloaded_count s) (priority_pages s)
    (<[ path := data ]> (disk s)) (writes s ++ [(path, data)])
    (requests s) (pauses s).

(** [time.sleep(...)] *)
Definition sleep (p : Pause) (s : State) : State :=
  mkState (visited_urls s) (image_urls s) (downloaded_count s) (priority_pages s)
    (disk s) (writes s) (requests s) (pauses s ++ [p]).

(** [requests.head] and [requests.get]: the answer of the web, and the
    request logged *)
Definition request (w : World) (m : Method) (s : State) (url : string)
  : State * Outcome :=
  (mkState (visited_urls s) (image_urls s) (downloaded_count s) (priority_pages s)
     (disk s) (writes s) (requests s ++ [(m, url)]) (pauses s),
   answers w (requests s) m url).

(** [with open(path, 'wb') as f: f.write(data)]; [None] when [open]
    raises, and then nothing is written; the bytes written to an open
    file arrive in it *)
Definition write_file (w : World) (path : string) (data : list Byte.byte)
    (s : State) : option State :=
  if Os.open_wb (files w (requests s)) path then Some (store_file path data s)
  else None.

(** [response.raise_for_status()] raises *)
Definition is_error_status (status : Z) : bool :=
  ((400 <=? status) && (status <? 600))%Z.

(** [headers.get('Content-Type', '')] *)
Definition content_type_of (r : HttpResponse) : string :=
  match content_type r with Some t => t | None => EmptyString end.

(** [len(response.content)] *)
Definition size_bytes_of (r : HttpResponse) : Z := Z.of_nat (length (content r)).

(** [os.path.basename(p)] *)
Definition basename (p : string) : string := snd (rpartition "/" p).

(** [os.path.join(a, b)] *)
Definition path_join (a b : string) : string :=
  if startswith "/" b then b
  else if String.eqb a EmptyString || endswith "/" a then a +:+ b
  else a +:+ "/" +:+ b.

(** [os.path.splitext(p)[1]]: the extension of the last path segment, from
    its last dot, unless only dots come before it *)
Definition splitext_ext (p : string) : string :=
  match rpartition "." (basename p) with
  | (Some stem, ext) =>
      if all_chars (fun c => Ascii.eqb c ".") stem then EmptyString
      else String "." ext
  | (None, _) => EmptyString
  end.

(** ['.'.join(d.split('.')[-2:])] *)
Definition last_two_labels (d : string) : string :=
  let labels := split_on "." d in
  join "." (skipn (length labels - 2) labels).

Definition cdn_patterns : list string :=
  ["cloudfront.net"; "akamaized.net"; "cloudinary.com"; "imgix.net"; "amazonaws.com"].

Definition image_extensions : list string :=
  [".jpg"; ".jpeg"; ".png"; ".gif"; ".webp"].

(** the URL markers of icons and decoration in [_process_url] *)
Definition decoration_patterns : list string :=
  ["icon"; "logo"; "button"; "bg-"; "background"].

(** the keywords of [_process_url] *)
Definition priority_keywords : list string :=
  ["room"; "suite"; "accommodation"; "stay"; "lodging";
   "facility"; "amenity"; "service"; "spa"; "restaurant";
   "dining"; "gallery"; "photo"; "image"; "tour"].

(** the keywords of [_identify_priority_pages] *)
Definition landing_keywords : list string :=
  priority_keywords ++ ["about"; "location"; "contact"].

(** the truth value of an optional text: present and not empty *)
Definition truthy (o : option string) : option string :=
  match o with
  | Some (String c r) => Some (String c r)
  | _ => None
  end.

(** [str.isspace()] on one character of the first 256 code points *)
Definition is_space (c : ascii) : bool :=
  let n := N_of_ascii c in
  (((9 <=? n) && (n <=? 13)) || ((28 <=? n) && (n <=? 32))
   || (n =? 133) || (n =? 160))%N.

(** [s.rstrip()] *)
Fixpoint rstrip_space (s : string) : string :=
  match s with
  | EmptyString => EmptyString
  | String a s' =>
      match rstrip_space s' with
      | EmptyString => if is_space a then EmptyString else String a EmptyString
      | r => String a r
      end
  end.

(** [s.strip()] *)
Definition strip (s : string) : string := rstrip_space (lstrip_pred is_space s).

(** [any(keyword in link_text or keyword in href.lower() ...)] with
    [link_text = link.text.lower().strip()] *)
Definition is_priority_link (keywords : list string) (l : Link) (h : string) : bool :=
  existsb (fun keyword =>
             contains keyword (strip (lower (text l))) || contains keyword (lower h))
          keywords.

#[global] Arguments is_priority_link : simpl never.

(** the decimal digits of a natural number, as [str(n)] prints them *)
Definition digit_char (n : nat) : ascii := ascii_of_nat (48 + n).

Fixpoint digits_fuel (fuel n : nat) (acc : string) : string :=
  match fuel with
  | O => acc
  | S fuel' =>
      let acc' := String (digit_char (n mod 10)) acc in
      if (n / 10 =? 0)%nat then acc' else digits_fuel fuel' (n / 10) acc'
  end.

Definition str_of_nat (n : nat) : string := digits_fuel (S n) n EmptyString.

(** what [get_image_info] returns *)
Record ImageInfo := mkInfo {
  is_valid : bool;
  info_content_type : string;
  info_width : Z;
  info_height : Z;
  info_size_bytes : Z
}.

(** [len(response.content) / 1024], the size in kilobytes, as a fraction:
    the division by 1024 is exact in floating point for every length
    below 2 ** 53 *)
Definition file_size_kb (r : HttpResponse) : Q := Qmake (size_bytes_of r) 1024.

(** [a < b] on fractions *)
Definition Qlt_bool (a b : Q) : bool := negb (Qle_bool b a).

(** [not filename or '.' not in filename] *)
Definition bad_filename (filename : string) : bool :=
  match filename with
  | EmptyString => true
  | _ => negb (has_char "." filename)
  end.

(** [content_type.split('/')[-1]] *)
Definition subtype_of (content_type : string) : string :=
  List.last (split_on "/" content_type) EmptyString.

Section WithLibraries.

Variable bracketed_host_ok : string -> bool.

(** [urljoin(base, url)]; [None] when it raises *)
Variable urljoin : string -> string -> option string.

(** [Image.open(BytesIO(data)).size]; [None] when the bytes do not decode *)
Variable image_size : list Byte.byte -> option (Z * Z).

(** [hashlib.md5(data).hexdigest()] *)
Variable md5_hexdigest : list Byte.byte -> string.

(** the built-in [hash] on a [str] *)
Variable str_hash : string -> Z.

Local Abbreviation urlparse := (UrlLib.urlparse bracketed_host_ok).

(** [ImageDownloader.is_valid_url]; its bare [except] turns every
    exception into [False] *)
Definition is_valid_url (cfg : Config) (url : string) : bool :=
  match urlparse url with
  | None => false
  | Some parsed_url =>
      match netloc parsed_url with
      | EmptyString => false
      | _ =>
          if String.eqb (netloc parsed_url) (domain cfg) then true
          else if contains (last_two_labels (domain cfg)) (netloc parsed_url) then true
          else if contains_any cdn_patterns (netloc parsed_url) then
            str_in (lower (splitext_ext (path parsed_url))) image_extensions
          else false
      end
  end.

(** [ImageDownloader.get_image_info] *)
Definition get_image_info (w : World) (cfg : Config) (s : State) (img_url : string)
  : State * ImageInfo :=
  let failed := mkInfo false EmptyString 0 0 0 in
  let (s1, head) := request w HEAD s img_url in
  match head with
  | RequestException => (s1, failed)
  | Answer head_response =>
      let ct := content_type_of head_response in
      if negb (startswith "image/" ct) then (s1, mkInfo false ct 0 0 0)
      else
        match content_length head_response with
        | Some None => (s1, failed)
        | cl =>
            let len := match cl with Some (Some z) => z | _ => 0%Z end in
            if ((len >? 0) && (len <? min_size_kb cfg * 1024))%Z
            then (s1, mkInfo false ct 0 0 len)
            else
              let (s2, got) := request w GET s1 img_url in
              match got with
              | RequestException => (s2, failed)
              | Answer response =>
                  let size_bytes := size_bytes_of response in
                  if (size_bytes <? min_size_kb cfg * 1024)%Z
                  then (s2, mkInfo false ct 0 0 size_bytes)
                  else
                    match image_size (content response) with
                    | None => (s2, failed)
                    | Some (width, height) =>
                        if ((width <? min_width cfg) || (height <? min_height cfg))%Z
                        then (s2, mkInfo false ct width height size_bytes)
                        else (s2, mkInfo true ct width height size_bytes)
                    end
              end
        end
  end.

(** the [for attempt in range(max_retries)] loop of [download_image], with
    [remaining] turns left; the result is [None] when the loop ends
    without a [return] *)
Fixpoint download_attempts (w : World) (cfg : Config) (max_retries : Z)
    (remaining : nat) (attempt : Z) (s : State) (img_url : string)
  : State * option bool :=
  match remaining with
  | O => (s, None)
  | S remaining' =>
      match urljoin (base_url cfg) img_url with
      | None => (s, Some false)
      | Some img_url1 =>
          let (s1, info) := get_image_info w cfg s img_url1 in
          if negb (is_valid info) then (s1, Some false)
          else
            let (s2, got) := request w GET s1 img_url1 in
            match got with
            | RequestException =>
                if (attempt <? max_retries - 1)%Z
                then download_attempts w cfg max_retries remaining' (attempt + 1)
                       (sleep (Backoff (2 ^ attempt)) s2) img_url1
                else (s2, Some false)
            | Answer response =>
                let img_data := content response in
                let img_hash := md5_hexdigest img_data in
                if bool_decide (img_hash ∈ image_urls s2) then (s2, Some false)
                else
                  let s3 := set_image_urls ({[ img_hash ]} ∪ image_urls s2) s2 in
                  match urlparse img_url1 with
                  | None => (s3, Some false)
                  | Some parsed =>
                      let img_filename :=
                        if bad_filename (basename (path parsed))
                        then img_hash +:+ "." +:+ subtype_of (info_content_type info)
                        else basename (path parsed) in
                      match write_file w (path_join (image_dir cfg) img_filename)
                              img_data s3 with
                      | None => (s3, Some false)
                      | Some s4 =>
                          (set_downloaded_count (downloaded_count s4 + 1) s4,
                           Some true)
                      end
                  end
            end
      end
  end.

(** [ImageDownloader.download_image]; an exception of [open] is no
    [RequestException], so that the second handler returns [False] *)
Definition download_image (w : World) (cfg : Config) (max_retries : Z)
    (s : State) (img_url : string) : State * option bool :=
  download_attempts w cfg max_retries (Z.to_nat max_retries) 0 s img_url.

(** [ImageDownloader._download_image]; its [except Exception] ends the
    call where a request, the decoding of the image, [urlparse] or [open]
    raises *)
Definition _download_image (w : World) (cfg : Config) (s : State) (url : string)
  : State :=
  let (s1, got) := request w GET s url in
  match got with
  | RequestException => s1
  | Answer response =>
      if is_error_status (status_code response) then s1
      else if negb (startswith "image/" (content_type_of response)) then s1
      else if Qlt_bool (file_size_kb response) (inject_Z (min_size_kb cfg)) then s1
      else
        match image_size (content response) with
        | None => s1
        | Some (width, height) =>
            if ((width <? min_width cfg) || (height <? min_height cfg))%Z then s1
            else
              match urlparse url with
              | None => s1
              | Some parsed =>
                  let filename :=
                    if bad_filename (basename (path parsed))
                    then "image_" +:+ str_of_nat (Z.to_nat (str_hash url mod 10000))
                         +:+ ".jpg"
                    else basename (path parsed) in
                  match write_file w (path_join (image_dir cfg) filename)
                          (content response) s1 with
                  | None => s1
                  | Some s2 => set_downloaded_count (downloaded_count s2 + 1) s2
                  end
              end
        end
  end.

(** [ImageDownloader._download_images].  The worker pool is modelled as
    one download after the other, in the order the set yields its URLs. *)
Definition _download_images (w : World) (cfg : Config) (s : State) : State :=
  set_image_urls ∅
    (fold_left (_download_image w cfg) (elements (image_urls s)) s).

(** [width and height and int(width) < 100 and int(height) < 100];
    [None] when [int] raises *)
Definition small_icon (img : Img) : option bool :=
  match img_width img, img_height img with
  | Some wd, Some ht =>
      match wd with
      | None => None
      | Some wz =>
          if (wz <? 100)%Z then
            match ht with
            | None => None
            | Some hz => Some (hz <? 100)%Z
            end
          else Some false
      end
  | _, _ => Some false
  end.

Definition add_image_url (u : string) (s : State) : State :=
  set_image_urls ({[ u ]} ∪ image_urls s) s.

(** the loop of [_process_url] over the [img] elements; the flag is
    [false] when an exception leaves the [try] block *)
Fixpoint scan_imgs (url : string) (l : list Img) (s : State) : State * bool :=
  match l with
  | [] => (s, true)
  | img :: rest =>
      match truthy (img_src img) with
      | None => scan_imgs url rest s
      | Some img_url =>
          match small_icon img with
          | None => (s, false)
          | Some true => scan_imgs url rest s
          | Some false =>
              if contains_any decoration_patterns (lower img_url)
              then scan_imgs url rest s
              else
                match urljoin url img_url with
                | None => (s, false)
                | Some absolute_url =>
                    let s1 := add_image_url absolute_url s in
                    match truthy (img_data_src img) with
                    | None => scan_imgs url rest s1
                    | Some data_src =>
                        match urljoin url data_src with
                        | None => (s1, false)
                        | Some absolute_data_src =>
                            scan_imgs url rest (add_image_url absolute_data_src s1)
                        end
                    end
                end
          end
      end
  end.

(** the loop of [_process_url] over the elements with a [style] *)
Fixpoint scan_styled (url : string) (l : list Styled) (s : State) : State * bool :=
  match l with
  | [] => (s, true)
  | element :: rest =>
      if contains "background-image" (style_text element) then
        match style_bg_url element with
        | None => scan_styled url rest s
        | Some bg_url =>
            match urljoin url bg_url with
            | None => (s, false)
            | Some absolute_bg_url =>
                scan_styled url rest (add_image_url absolute_bg_url s)
            end
        end
      else scan_styled url rest s
  end.

(** the loop of [_process_url] over the links of a priority page;
    [process] is the call of [_process_url] on a link that is followed *)
Fixpoint follow_links (process : State -> string -> option State)
    (cfg : Config) (url : string) (l : list Link) (s : State) : option State :=
  match l with
  | [] => Some s
  | link :: rest =>
      match truthy (href link) with
      | None => follow_links process cfg url rest s
      | Some h =>
          if is_priority_link priority_keywords link h then
            match urljoin url h with
            | None => Some s
            | Some absolute_url =>
                match urlparse absolute_url with
                | None => Some s
                | Some parsed =>
                    if String.eqb (netloc parsed) (domain cfg)
                       && negb (bool_decide (absolute_url ∈ visited_urls s))
                    then
                      s' ← process (sleep Delay s) absolute_url;
                      follow_links process cfg url rest s'
                    else follow_links process cfg url rest s
                end
            end
          else follow_links process cfg url rest s
      end
  end.

(** the [try] block of [_process_url] once the page is fetched: images,
    styles, then the links when the page is a priority page; an exception
    ends the block where it is raised *)
Definition scan_page (process : State -> string -> option State)
    (cfg : Config) (url : string) (is_priority : bool) (page : Page) (s : State)
  : option State :=
  match scan_imgs url (imgs page) s with
  | (s2, false) => Some s2
  | (s2, true) =>
      match scan_styled url (styled page) s2 with
      | (s3, false) => Some s3
      | (s3, true) =>
          if is_priority then follow_links process cfg url (links page) s3
          else Some s3
      end
  end.

(** [ImageDownloader._process_url]; it calls itself on the priority links
    of a page, one unit of fuel for each level, and returns [None] when
    the fuel runs out *)
Fixpoint _process_url (w : World) (cfg : Config) (fuel : nat) (s : State)
    (url : string) (is_priority : bool) : option State :=
  if (Z.of_nat (size (visited_urls s)) >=? max_pages cfg)%Z then Some s
  else if bool_decide (url ∈ visited_urls s) then Some s
  else
    match fuel with
    | O => None
    | S fuel' =>
        let s0 := set_visited ({[ url ]} ∪ visited_urls s) s in
        let (s1, got) := request w GET s0 url in
        after ←
          match got with
          | RequestException => Some s1
          | Answer response =>
              if is_error_status (status_code response) then Some s1
              else
                scan_page (fun st u => _process_url w cfg fuel' st u true)
                  cfg url is_priority (html response) s1
          end;
        Some (_download_images w cfg after)
    end.

(** the loop of [_identify_priority_pages] over the links *)
Fixpoint scan_priority (cfg : Config) (url : string) (l : list Link) (s : State)
  : State :=
  match l with
  | [] => s
  | link :: rest =>
      match truthy (href link) with
      | None => scan_priority cfg url rest s
      | Some h =>
          if is_priority_link landing_keywords link h then
            match urljoin url h with
            | None => s
            | Some absolute_url =>
                match urlparse absolute_url with
                | None => s
                | Some parsed =>
                    if String.eqb (netloc parsed) (domain cfg)
                    then scan_priority cfg url rest (add_priority_page absolute_url s)
                    else scan_priority cfg url rest s
                end
            end
          else scan_priority cfg url rest s
      end
  end.

(** [ImageDownloader._identify_priority_pages] *)
Definition _identify_priority_pages (w : World) (cfg : Config) (s : State)
    (url : string) : State :=
  let (s1, got) := request w GET s url in
  match got with
  | RequestException => s1
  | Answer response =>
      if is_error_status (status_code response) then s1
      else scan_priority cfg url (links (html response)) s1
  end.

(** the loop of [crawl] over [priority_pages] *)
Fixpoint process_priority_pages (w : World) (cfg : Config) (fuel : nat)
    (pages : list string) (s : State) : option State :=
  match pages with
  | [] => Some s
  | url :: rest =>
      if negb (bool_decide (url ∈ visited_urls s))
         && (Z.of_nat (size (visited_urls s)) <? max_pages cfg)%Z
      then s' ← _process_url w cfg fuel s url true;
           process_priority_pages w cfg fuel rest s'
      else process_priority_pages w cfg fuel rest s
  end.

(** [ImageDownloader.crawl]; it returns [downloaded_count] of the final
    state *)
Definition crawl (w : World) (cfg : Config) (fuel : nat) (s : State)
  : option State :=
  let s0 := set_downloaded_count 0 (set_image_urls ∅ (set_visited ∅ s)) in
  let s1 := _identify_priority_pages w cfg s0 (base_url cfg) in
  s2 ← _process_url w cfg fuel s1 (base_url cfg) true;
  process_priority_pages w cfg fuel (priority_pages s2) s2.

End WithLibraries.

End Images.

(** a world is applied to a request as its [answers] are *)
Coercion Images.answers : Images.World >-> Funclass.


(* ===================================================================== *)
(** * The vocabulary of the specification *)
(* ===================================================================== *)

Module Terms.
Import PyStr UrlLib.

(** [u] with the fragment [f] *)
Definition with_fragment (u f : string) : string := u +:+ String "#" f.

(** [u] with a trailing slash *)
Definition with_trailing_slash (u : string) : string := u +:+ "/".

(** the text of a URL before its fragment *)
Definition strip_fragment (u : string) : string := fst (partition "#" u).

(** two URLs that differ only by a fragment: they agree up to the first
    [#] *)
Definition differ_by_fragment (u1 u2 : string) : Prop :=
  strip_fragment u1 = strip_fragment u2.

(** two URLs that differ only by a trailing slash *)
Definition differ_by_trailing_slash (u1 u2 : string) : Prop :=
  u2 = with_trailing_slash u1 \/ u1 = with_trailing_slash u2.

(** a URL with a fragment, or with neither a query nor path parameters *)
Definition slash_in_path_or_fragment (u : string) : Prop :=
  has_char "#" u = true \/ (has_char "?" u = false /\ has_char ";" u = false).






Section Frontier.

Variable ok : string -> bool.
Variable tld : string -> Scraper.ExtractResult.
Variable w : Scraper.World.
Variable cfg : Scraper.Config.

(** the frontier yields a target: the call of [_process_url] on it gets
    past the visited test *)
Definition yielded (s : Scraper.State) (url : string) : bool :=
  match Scraper.normalize_url ok url with
  | Some n => negb (bool_decide (n ∈ Scraper.visited_urls s))
  | None => false
  end.

(** the state after the targets were offered one after the other *)
Fixpoint offer_all (s : Scraper.State) (urls : list string) : Scraper.State :=
  match urls with
  | [] => s
  | u :: rest => offer_all (fst (Scraper._process_url ok tld w cfg s u)) rest
  end.

(** the target [u] has the normalised URL [n] *)
Definition has_normal_form (n u : string) : bool :=
  match Scraper.normalize_url ok u with
  | Some m => String.eqb m n
  | None => false
  end.

(** how often the frontier yields the normalised URL [n] while these
    targets are offered *)
Fixpoint yield_count (n : string) (s : Scraper.State) (urls : list string) : nat :=
  match urls with
  | [] => O
  | u :: rest =>
      ((if has_normal_form n u && yielded s u then 1 else 0)
       + yield_count n (fst (Scraper._process_url ok tld w cfg s u)) rest)%nat
  end.

(** a request for a target with the normalised URL [n], wherever in the
    program it is made *)
Definition fetches (n : string) (r : Scraper.Origin * string) : bool :=
  has_normal_form n (snd r).

(** how often a request log fetches the page of the normalised URL [n] *)
Definition fetch_count (n : string) (log : list (Scraper.Origin * string)) : nat :=
  length (List.filter (fetches n) log).

(** such a request made by [_process_url], behind the visited test *)
Definition frontier_fetches (n : string) (r : Scraper.Origin * string) : bool :=
  match fst r with
  | Scraper.Processing => has_normal_form n (snd r)
  | _ => false
  end.

Definition frontier_fetch_count (n : string)
    (log : list (Scraper.Origin * string)) : nat :=
  length (List.filter (frontier_fetches n) log).

(** such a request made by [crawl] where it explores a language
    subdomain *)
Definition exploration_fetches (n : string) (r : Scraper.Origin * string) : bool :=
  match fst r with
  | Scraper.Exploration => has_normal_form n (snd r)
  | _ => false
  end.

Definition exploration_count (n : string)
    (log : list (Scraper.Origin * string)) : nat :=
  length (List.filter (exploration_fetches n) log).

(** [_process_url] has fetched no page twice: a request of its for the
    normalised URL [n] is on the log at most once, and only when [n] is
    visited *)
Definition fetched_once (s : Scraper.State) : Prop :=
  forall n,
    (frontier_fetch_count n (Scraper.requests s)
     <= if bool_decide (n ∈ Scraper.visited_urls s) then 1 else 0)%nat.

(** the request log of a crawl that has made its upfront request for the
    landing page, first of all, and no other upfront request *)
Definition one_upfront (s : Scraper.State) : Prop :=
  exists rest,
    Scraper.requests s = (Scraper.Upfront, Scraper.base_url cfg) :: rest
    /\ Forall (fun r => fst r <> Scraper.Upfront) rest.

(** every exploration on the log was for a URL on a language subdomain *)
Definition explores_languages (s : Scraper.State) : Prop :=
  forall u, (Scraper.Exploration, u) ∈ Scraper.requests s ->
    str_in (Scraper.subdomain (tld u)) Scraper.language_prefixes = true.



End Frontier.

(** the bound that the booking counter keeps: the limit, and one more for
    every booking domain seen *)
Definition booking_bound (cfg : Scraper.Config) (s : Scraper.State) : Prop :=
  (Scraper.booking_urls_crawled s
   <= Z.max 0 (Scraper.max_booking_urls cfg)
      + Z.of_nat (size (Scraper.booking_domains_seen s)))%Z.

(** the visited set of the image downloader is within its page cap *)
Definition within_cap (cfg : Images.Config) (s : Images.State) : Prop :=
  (Z.of_nat (size (Images.visited_urls s)) <= Z.max 0 (Images.max_pages cfg))%Z.

(** the number of pages that the image downloader may still visit *)
Definition pages_left (cfg : Images.Config) (s : Images.State) : nat :=
  Z.to_nat (Images.max_pages cfg - Z.of_nat (size (Images.visited_urls s))).



(** whether the file system opens [file_path] for writing once the
    requests of [s] and a GET of [url] are made *)
Definition opens_after_get (w : Images.World) (s : Images.State) (url : string)
    (file_path : string) : bool :=
  Os.open_wb (Images.files w (Images.requests s ++ [(Images.GET, url)])) file_path.

(** the files written so far have pairwise different digests, all on
    record in the set of hashes *)
Definition hashes_distinct (digest : list Byte.byte -> string)
    (s : Images.State) : Prop :=
  NoDup (map (fun f => digest (snd f)) (Images.writes s))
  /\ forall f, f ∈ Images.writes s -> digest (snd f) ∈ Images.image_urls s.

(** [k] waits that double from [2 ** attempt] seconds on *)
Definition doubling_waits (attempt : Z) (k : nat) : list Images.Pause :=
  map (fun i => Images.Backoff (2 ^ (attempt + Z.of_nat i))) (seq 0 k).


End Terms.

(** stand-ins for the library functions, used to evaluate the model on
    concrete inputs *)
Module Demo.
Import PyStr UrlLib.

(** every bracketed host passes; the example URLs have none *)
Definition any_host_ok (hostname : string) : bool := true.

(** [tldextract.extract] for hosts under a one-label public suffix such as
    [.com]: the last label is the suffix, the one before it the domain *)
Definition two_label_extract (url : string) : Scraper.ExtractResult :=
  match urlparse any_host_ok url with
  | None => Scraper.mkExtract EmptyString EmptyString EmptyString
  | Some parsed =>
      let labels := split_on "." (netloc parsed) in
      let n := length labels in
      Scraper.mkExtract
        (join "." (firstn (n - 2) labels))
        (nth (n - 2) labels EmptyString)
        (nth (n - 1) labels EmptyString)
  end.

(** a hotel site: the landing page, with its menu and booking links, and
    the pages these links lead to; every other URL answers 404 *)
Definition landing : string := "https://www.hotel.com".

Definition leaf_page : Scraper.Page := Scraper.mkPage "text" [] [] [] [].

Definition landing_page (menu booking : list string) : Scraper.Page :=
  Scraper.mkPage "welcome" [] menu booking (menu ++ booking).

Definition site (menu booking : list string) : Scraper.World :=
  fun _ url =>
    if String.eqb url landing then Scraper.Http 200 (landing_page menu booking)
    else if str_in url (menu ++ booking) then Scraper.Http 200 leaf_page
    else Scraper.Http 404 leaf_page.

(** [WebsiteScraper(base_url, delay, max_booking_urls)] for this site *)
Definition scraper (max_booking_urls : Z) : Scraper.Config :=
  Scraper.mkConfig landing "hotel.com" max_booking_urls.

(** ten pages of the site, linked from the menu of the landing page *)
Definition ten_links : list string :=
  map (fun n => "https://www.hotel.com/page-" +:+ Images.str_of_nat n) (seq 0 10).

(** two booking engines on subdomains of the site *)
Definition two_engines : list string :=
  ["https://booking.hotel.com/rooms"; "https://reserve.hotel.com/rooms"].

(** [urljoin] on links that are absolute already *)
Definition absolute_urljoin (base href : string) : option string := Some href.

(** every image decodes to 800 by 600 pixels *)
Definition full_size (data : list Byte.byte) : option (Z * Z) := Some (800, 600)%Z.

(** a digest that tells contents of different lengths apart *)
Definition length_digest (data : list Byte.byte) : string :=
  "digest-" +:+ Images.str_of_nat (length data).

Definition zero_hash (u : string) : Z := 0.

(** an image downloader for the site, with a page cap of 20 *)
Definition downloader : Images.Config :=
  Images.mkConfig landing "www.hotel.com" "MCP/data/images/hotel" 800 600 1 20.

(** a photo of one kilobyte *)
Definition photo : list Byte.byte := repeat Byte.x00 1024.


Definition photo_a : string := "https://www.hotel.com/img/a.jpg".
Definition photo_b : string := "https://www.hotel.com/img/b.jpg".

Definition photo_answer : Images.HttpResponse :=
  Images.mkResponse 200 (Some "image/jpeg") None photo Images.empty_page.


(** a name that a directory entry can have: no NUL, at most 255
    characters *)
Definition name_ok (name : string) : bool :=
  negb (has_char "000" name) && (String.length name <=? 255)%nat.

(** a path made of such names *)
Definition path_ok (file_path : string) : bool :=
  forallb name_ok (split_on "/" file_path).

(** a path made of such names whose last one is not empty and neither
    [.] nor [..], which name directories *)
Definition file_ok (file_path : string) : bool :=
  path_ok file_path
  && negb (str_in (Images.basename file_path) [""; "."; ".."]).

(** an empty disk with room: every directory of such a path is made and
    every file of such a path is opened and written *)
Definition empty_disk : Os.FileSystem :=
  Os.mkFileSystem path_ok (fun _ => false) file_ok file_ok.

(** a disk on which nothing can be made or opened *)
Definition locked_disk : Os.FileSystem :=
  Os.mkFileSystem (fun _ => false) (fun _ => false) (fun _ => false)
    (fun _ => false).

(** a web beside the empty disk *)
Definition online
    (web : list (Images.Method * string) -> Images.Method -> string
           -> Images.Outcome) : Images.World :=
  Images.mkWorld web (fun _ => empty_disk).


(** the landing page shows the two photos *)
Definition gallery_page : Images.Page :=
  Images.mkPage
    [Images.mkImg (Some photo_a) None None None;
     Images.mkImg (Some photo_b) None None None] [] [].

Definition gallery_answer : Images.HttpResponse :=
  Images.mkResponse 200 (Some "text/html") None [] gallery_page.

Definition not_found : Images.HttpResponse :=
  Images.mkResponse 404 (Some "text/html") None [] Images.empty_page.

(** a site whose two photo URLs serve the same bytes *)
Definition gallery : Images.World :=
  online (fun _ _ url =>
    if String.eqb url landing then Images.Answer gallery_answer
    else if String.eqb url photo_a || String.eqb url photo_b
    then Images.Answer photo_answer
    else Images.Answer not_found).

(** what a run of the image downloader leaves: the contents written, in
    order, the number of files on disk, the count of downloads, and the
    entries of the set of image URLs and hashes *)
Record Outcome := mkOutcome {
  files_written : list (list Byte.byte);
  files_on_disk : nat;
  images_counted : Z;
  hashes_recorded : list string
}.

Definition outcome (s : Images.State) : Outcome :=
  mkOutcome (map snd (Images.writes s)) (size (dom (Images.disk s)))
    (Images.downloaded_count s) (elements (Images.image_urls s)).

(** the number of GET requests for [url] in a request log *)
Definition gets_of (url : string) (log : list (Images.Method * string)) : nat :=
  length (List.filter
            (fun r => match fst r with
                      | Images.GET => String.eqb (snd r) url
                      | Images.HEAD => false
                      end) log).

(** the same site with a connection that drops the first GET of photo a *)
Definition flaky_gallery : Images.World :=
  online (fun log m url =>
    match m with
    | Images.GET =>
        if String.eqb url photo_a && Nat.eqb (gets_of photo_a log) 0
        then Images.RequestException
        else gallery log m url
    | Images.HEAD => gallery log m url
    end).

(** the same site with a connection that drops every second GET of
    photo a *)
Definition dropping_gallery : Images.World :=
  online (fun log m url =>
    match m with
    | Images.GET =>
        if String.eqb url photo_a && Nat.odd (gets_of photo_a log)
        then Images.RequestException
        else gallery log m url
    | Images.HEAD => gallery log m url
    end).

(** the photo at a URL whose last path segment is [..] *)
Definition photo_up : string := "https://www.hotel.com/img/..".

(** a site that serves the photo at every URL *)
Definition photo_everywhere : Images.World :=
  online (fun _ _ _ => Images.Answer photo_answer).

(** the site of the two photos beside a disk on which nothing can be
    opened *)
Definition gallery_locked : Images.World :=
  Images.mkWorld (Images.answers gallery) (fun _ => locked_disk).

(** a site whose landing page links its English pages on a language
    subdomain *)
Definition english : string := "https://en.hotel.com".

Definition language_site : Scraper.World :=
  fun _ url =>
    if String.eqb url landing
    then Scraper.Http 200 (Scraper.mkPage "welcome" [english] [] [] [english])
    else if String.eqb url english then Scraper.Http 200 leaf_page
    else Scraper.Http 404 leaf_page.

End Demo.

(* ===================================================================== *)
(** * The pipeline of [process_hotel] *)
(* ===================================================================== *)

Module Pipeline.

(** the arguments of [process_hotel] that reach the two crawlers *)
Record Options := mkOptions {
  max_booking_urls : Z;
  min_width : Z;
  min_height : Z;
  min_size : Z;
  max_pages : Z
}.

Section WithLibraries.

Variable bracketed_host_ok : string -> bool.
Variable tldextract : string -> Scraper.ExtractResult.

(** step 1 of [process_hotel], once [validate_url] has accepted the URL:
    [get_website_markdown(url, delay, max_booking_urls)] builds
    [WebsiteScraper(url, delay, max_booking_urls)] and crawls; of the
    options it is given [max_booking_urls] alone *)
Definition text_crawl (w : Scraper.World) (url : string) (o : Options)
    (fuel : nat) : Scraper.State * Scraper.Ending :=
  Scraper.crawl bracketed_host_ok tldextract w
    (Scraper.mkConfig url (Scraper.registered_domain tldextract url)
       (max_booking_urls o))
    fuel Scraper.initial_state.

End WithLibraries.

End Pipeline.

(* ===================================================================== *)
(** * The query parameters of a booking URL, read back *)
(* ===================================================================== *)

Module Query.
Import PyStr.

(** [d.get(k)] on a dict in insertion order *)
Fixpoint dict_get (k : string) (d : list (string * string)) : option string :=
  match d with
  | [] => None
  | (k', v) :: d' => if String.eqb k' k then Some v else dict_get k d'
  end.

(** the value of [param] when it reads [k=value] *)
Definition param_value (k param : string) : option string :=
  match partition "=" param with
  | (key, Some value) => if String.eqb key k then Some value else None
  | (_, None) => None
  end.

(** the value of the last parameter of the list that reads [k=value] *)
Definition last_value (k : string) (params : list string) : option string :=
  fold_left (fun found param =>
               match param_value k param with
               | Some value => Some value
               | None => found
               end) params None.

End Query.

(* ===================================================================== *)
(** * What the text crawl keeps on record *)
(* ===================================================================== *)

Module Ledger.
Import PyStr UrlLib.

(** all the links that [_process_url] reads off a page, in the order of
    its four loops *)
Definition page_links (page : Scraper.Page) : list string :=
  Scraper.language_variants page ++ Scraper.header_menu_links page
  ++ Scraper.booking_links page ++ Scraper.anchors page.

(** a request that fails, or that answers another status than 200 *)
Definition fetch_fails (r : Scraper.Response) : Prop :=
  match r with
  | Scraper.RequestError => True
  | Scraper.Http status _ => status <> 200%Z
  end.

(** a request log that starts with the given requests *)
Definition log_starts (l : list (Scraper.Origin * string)) (s : Scraper.State)
  : Prop :=
  exists rest, Scraper.requests s = l ++ rest.

Section WithLibraries.

Variable bracketed_host_ok : string -> bool.

(** every entry of [visited_urls] is the normal form of some URL *)
Definition visited_normal (s : Scraper.State) : Prop :=
  forall n, n ∈ Scraper.visited_urls s ->
    exists u, Scraper.normalize_url bracketed_host_ok u = Some n.

(** every key of [markdown_content] is a URL that [_process_url] requested
    and whose normal form is in [visited_urls] *)
Definition stored_fetched (s : Scraper.State) : Prop :=
  forall u, is_Some (Scraper.markdown_content s !! u) ->
    (Scraper.Processing, u) ∈ Scraper.requests s
    /\ exists n, Scraper.normalize_url bracketed_host_ok u = Some n
                 /\ n ∈ Scraper.visited_urls s.

End WithLibraries.

End Ledger.

(* ===================================================================== *)
(** * What the image crawl keeps on record *)
(* ===================================================================== *)

Module Shelf.
Import PyStr UrlLib.

(** a file path [os.path.join(image_dir, name)] for a name that holds a
    dot and no slash *)
Definition in_image_dir (cfg : Images.Config) (file_path : string) : Prop :=
  exists name, file_path = Images.path_join (Images.image_dir cfg) name
               /\ has_char "/" name = false
               /\ Images.bad_filename name = false.

(** the download count is the number of files written, every one of them
    into the image directory, and the disk holds the written paths *)
Definition tidy (cfg : Images.Config) (s : Images.State) : Prop :=
  Images.downloaded_count s = Z.of_nat (length (Images.writes s))
  /\ Forall (fun f => in_image_dir cfg (fst f)) (Images.writes s)
  /\ dom (Images.disk s) ≡@{gset string} list_to_set (map fst (Images.writes s)).

(** only GET requests were made, and every sleep was the delay between
    pages *)
Definition quiet (s : Images.State) : Prop :=
  Forall (fun r => fst r = Images.GET) (Images.requests s)
  /\ Forall (fun p => p = Images.Delay) (Images.pauses s).

(** a request log that starts with the given requests *)
Definition log_starts (l : list (Images.Method * string)) (s : Images.State)
  : Prop :=
  exists rest, Images.requests s = l ++ rest.

(** the state in which [crawl] starts its work: the three attributes it
    resets *)
Definition reset (s : Images.State) : Images.State :=
  Images.set_downloaded_count 0
    (Images.set_image_urls ∅ (Images.set_visited ∅ s)).

End Shelf.

(* ===================================================================== *)
(** * The names of the folders and files of the pipeline *)
(* ===================================================================== *)

Module Paths.
Import PyStr UrlLib.

(** the characters that the two [re.sub] calls replace: backslash,
    slash, star, question mark, colon, double quote, the angle brackets
    and the bar *)
Definition is_reserved (c : ascii) : bool :=
  existsb (Ascii.eqb c) ["\"; "/"; "*"; "?"; ":"; "034"; "<"; ">"; "|"]%char.

(** [re.sub(pattern, '_', s)] for the class of these characters *)
Fixpoint sanitize (s : string) : string :=
  match s with
  | EmptyString => EmptyString
  | String a s' => String (if is_reserved a then "_"%char else a) (sanitize s')
  end.

(** [s.replace(old, new)] for single characters *)
Fixpoint replace_char (old new : ascii) (s : string) : string :=
  match s with
  | EmptyString => EmptyString
  | String a s' =>
      String (if Ascii.eqb a old then new else a) (replace_char old new s')
  end.

(** [s.strip(c)] for a single character [c] *)
Definition strip_char (c : ascii) (s : string) : string :=
  rstrip_char c (lstrip_pred (fun a => Ascii.eqb a c) s).

(** [s[:n]] *)
Fixpoint slice_to (n : nat) (s : string) : string :=
  match n, s with
  | S n', String a s' => String a (slice_to n' s')
  | _, _ => EmptyString
  end.

(** [s[:n] if len(s) > n else s] *)
Definition limit (n : nat) (s : string) : string :=
  if (n <? String.length s)%nat then slice_to n s else s.

(** [os.path.join("MCP", "data", d)] *)
Definition data_dir (d : string) : string :=
  Images.path_join (Images.path_join "MCP" "data") d.

(** [save_structured_content(content, input_file_path, output_dir)] of
    [structure_info.py]: the path it writes and returns, [None] when it
    raises; [valid_json] tells whether [json.loads(content)] returns, or
    raises and leaves the writing to the handler *)
Definition save_structured_content (fs : Os.FileSystem) (valid_json : bool)
    (input_file_path output_dir : string) : option string :=
  if Os.makedirs fs output_dir then
    let input_filename := Images.basename input_file_path in
    let output_path := Images.path_join output_dir input_filename in
    if valid_json then
      if Os.dump_json fs output_path then Some output_path else None
    else
      if Os.dump_json fs output_path then Some output_path else None
  else None.

(** [structure_content(input_file_path)] of [main.py]: the path it
    returns, [None] where its [except] returns [None].  [structured] is
    what the reading of the file and [structure_content_func] give:
    [None] when one of them raises, else whether the text they give is
    valid JSON. *)
Definition structure_content (fs : Os.FileSystem) (structured : option bool)
    (input_file_path : string) : option string :=
  valid_json ← structured;
  save_structured_content fs valid_json input_file_path (data_dir "structured").

(** [os.path.splitext(os.path.basename(json_file_path))[0]], the id that
    [extract_url_from_structured_json] falls back on: the file name up to
    its last dot, unless only dots come before it *)
Definition filename_id (json_file_path : string) : string :=
  let name := Images.basename json_file_path in
  match rpartition "." name with
  | (Some stem, _) =>
      if all_chars (fun c => Ascii.eqb c ".") stem then name else stem
  | (None, _) => name
  end.

Section WithLibraries.

Variable bracketed_host_ok : string -> bool.

Local Abbreviation urlparse := (UrlLib.urlparse bracketed_host_ok).

(** [ImageDownloader._get_folder_name_from_url]; [None] when [urlparse]
    raises *)
Definition _get_folder_name_from_url (url : string) : option string :=
  parsed_url ← urlparse url;
  let folder_name := replace_char "." "_" (netloc parsed_url) in
  let folder_name :=
    if negb (Scraper.is_empty (path parsed_url))
       && negb (String.eqb (path parsed_url) "/")
    then folder_name +:+ "_"
         +:+ limit 50 (sanitize (strip_char "/" (path parsed_url)))
    else folder_name in
  Some (limit 100 folder_name).

(** [ImageDownloader.__init__]: the configuration that the constructor
    derives from its arguments once it has made the directories; [None]
    when [urlparse] or [os.makedirs] raises, which no handler catches *)
Definition __init__ (fs : Os.FileSystem) (base_url : string)
    (unique_id : option string)
    (min_width min_height min_size_kb max_pages : Z) : option Images.Config :=
  parsed_url ← urlparse base_url;
  folder_name ← match Images.truthy unique_id with
                 | Some given => Some given
                 | None => _get_folder_name_from_url base_url
                 end;
  let images_base_dir := Images.path_join "MCP/data" "images" in
  if Os.makedirs fs images_base_dir then
    let image_dir := Images.path_join images_base_dir folder_name in
    if Os.path_exists fs image_dir || Os.makedirs fs image_dir then
      Some (Images.mkConfig base_url (netloc parsed_url) image_dir
              min_width min_height min_size_kb max_pages)
    else None
  else None.

(** [save_markdown_content(markdown_content, url)] when the clock reads
    [timestamp] seconds: the path it writes and returns, [None] where
    [os.makedirs], [urlparse] or the writing of the file raises and the
    [except] returns [None] *)
Definition save_markdown_content (fs : Os.FileSystem) (url : string)
    (timestamp : nat) : option string :=
  let output_dir := data_dir "scraped" in
  if Os.makedirs fs output_dir then
    parsed_url ← urlparse url;
    let domain := netloc parsed_url in
    let safe_domain := sanitize domain in
    let output_filename :=
      safe_domain +:+ "_" +:+ Images.str_of_nat timestamp +:+ ".json" in
    let output_path := Images.path_join output_dir output_filename in
    if Os.dump_json fs output_path then Some output_path else None
  else None.

End WithLibraries.

End Paths.

(* ===================================================================== *)
(** * What the page scan and the image probe look at *)
(* ===================================================================== *)

Module Probe.
Import PyStr UrlLib.

(** an [img] element whose [width] attribute [int] rejects, beside a
    [src] and a [height] that are present and not empty *)
Definition malformed_width (img : Images.Img) : Prop :=
  is_Some (Images.truthy (Images.img_src img))
  /\ Images.img_width img = Some None
  /\ is_Some (Images.img_height img).

Section WithLibraries.

Variable urljoin : string -> string -> option string.

(** [x] is the absolute URL of the [src] or of the [data-src] of an [img]
    element that is neither icon-sized nor named like decoration *)
Definition content_image (url : string) (img : Images.Img) (x : string) : Prop :=
  exists src,
    Images.truthy (Images.img_src img) = Some src
    /\ Images.small_icon img = Some false
    /\ contains_any Images.decoration_patterns (lower src) = false
    /\ (urljoin url src = Some x
        \/ exists data_src,
             Images.truthy (Images.img_data_src img) = Some data_src
             /\ urljoin url data_src = Some x).

End WithLibraries.

(** what [get_image_info] answers for an image that it accepts *)
Definition accepted (cfg : Images.Config) (content_type : string)
    (width height size_bytes : Z) (info : Images.ImageInfo) : Prop :=
  info = Images.mkInfo true content_type width height size_bytes
  /\ (Images.min_size_kb cfg * 1024 <= size_bytes)%Z
  /\ (Images.min_width cfg <= width)%Z /\ (Images.min_height cfg <= height)%Z.

End Probe.

(* ===================================================================== *)
(** * Further example sites *)
(* ===================================================================== *)

Module Cases.
Import PyStr UrlLib.

(** a web that drops every connection *)
Definition offline : Scraper.World := fun _ _ => Scraper.RequestError.

Definition html_answer (page : Images.Page) : Images.HttpResponse :=
  Images.mkResponse 200 (Some "text/html") None [] page.

(** two photos with the same file name in different folders *)
Definition east_photo : string := "https://www.hotel.com/east/view.jpg".
Definition west_photo : string := "https://www.hotel.com/west/view.jpg".

Definition twin_page : Images.Page :=
  Images.mkPage
    [Images.mkImg (Some east_photo) None None None;
     Images.mkImg (Some west_photo) None None None] [] [].

(** a site whose landing page shows the two *)
Definition twins : Images.World :=
  Demo.online (fun _ _ url =>
    if String.eqb url Demo.landing then Images.Answer (html_answer twin_page)
    else if String.eqb url east_photo || String.eqb url west_photo
    then Images.Answer Demo.photo_answer
    else Images.Answer Demo.not_found).

Definition rooms : string := "https://www.hotel.com/rooms".

(** a photo with the width [100%], and the same photo with the width 800 *)
Definition fluid_img : Images.Img :=
  Images.mkImg (Some Demo.photo_a) (Some None) (Some (Some 600%Z)) None.

Definition fixed_img : Images.Img :=
  Images.mkImg (Some Demo.photo_a) (Some (Some 800%Z)) (Some (Some 600%Z)) None.

(** a page with one photo and a link to the rooms *)
Definition linked_page (img : Images.Img) : Images.Page :=
  Images.mkPage [img] [] [Images.mkLink (Some rooms) "Rooms"].

(** a site whose landing page is such a page *)
Definition linked_site (img : Images.Img) : Images.World :=
  Demo.online (fun _ _ url =>
    if String.eqb url Demo.landing then Images.Answer (html_answer (linked_page img))
    else if String.eqb url Demo.photo_a then Images.Answer Demo.photo_answer
    else if String.eqb url rooms then Images.Answer (html_answer Images.empty_page)
    else Images.Answer Demo.not_found).

(** a server that announces ten bytes for every photo *)
Definition announced_small : Images.HttpResponse :=
  Images.mkResponse 200 (Some "image/jpeg") (Some (Some 10%Z)) Demo.photo
    Images.empty_page.

Definition understating : Images.World :=
  Demo.online (fun _ _ _ => Images.Answer announced_small).

End Cases.

(* ===================================================================== *)
(** * The scope of the two crawls *)
(* ===================================================================== *)

Module Scope.
Import PyStr UrlLib.

Section WithLibraries.

Variable bracketed_host_ok : string -> bool.
Variable tldextract : string -> Scraper.ExtractResult.

(** the landing page, or the normal form of a link that [is_valid_url]
    accepts *)
Definition in_scope (cfg : Scraper.Config) (u : string) : Prop :=
  u = Scraper.base_url cfg
  \/ exists link,
       Scraper.is_valid_url bracketed_host_ok tldextract cfg link = Some true
       /\ Scraper.normalize_url bracketed_host_ok link = Some u.

(** every request of the text crawl so far was for such a URL *)
Definition requests_in_scope (cfg : Scraper.Config) (s : Scraper.State) : Prop :=
  forall o u, (o, u) ∈ Scraper.requests s -> in_scope cfg u.

(** a URL on the host of the landing page of the image crawl *)
Definition on_host (cfg : Images.Config) (x : string) : Prop :=
  exists parsed, urlparse bracketed_host_ok x = Some parsed
                 /\ netloc parsed = Images.domain cfg.

(** every page that the image crawl has visited is the landing page or on
    its host *)
Definition pages_on_host (cfg : Images.Config) (s : Images.State) : Prop :=
  forall x, x ∈ Images.visited_urls s -> x = Images.base_url cfg \/ on_host cfg x.

End WithLibraries.

End Scope.

(* ===================================================================== *)
(** * Step 4 of [process_hotel]: [download_images] *)
(* ===================================================================== *)

Module Steps.
Import PyStr UrlLib.

(** the URL after [download_images] has put [https://] before one that
    starts with neither [http://] nor [https://] *)
Definition with_scheme (url : string) : string :=
  if startswith "http://" url || startswith "https://" url then url
  else "https://" +:+ url.

Section WithLibraries.

Variable bracketed_host_ok : string -> bool.
Variable urljoin : string -> string -> option string.
Variable image_size : list Byte.byte -> option (Z * Z).
Variable str_hash : string -> Z.

(** [download_images(json_file_path, ...)] of [main.py] from the point
    where [extract_url_from_structured_json] has returned [url] and
    [unique_id]: the state that the image crawl leaves, when one is
    started, and the boolean returned; an exception of the constructor
    is caught and gives [False]; [None] when the model of the crawl runs
    out of fuel.  The constructor meets the file system as it is before
    the first request. *)
Definition download_images (w : Images.World) (url : string)
    (unique_id : option string) (o : Pipeline.Options) (fuel : nat)
  : option (option Images.State * bool) :=
  if Scraper.is_empty url then Some (None, false)
  else
    match Paths.__init__ bracketed_host_ok (Images.files w []) (with_scheme url)
            unique_id
            (Pipeline.min_width o) (Pipeline.min_height o) (Pipeline.min_size o)
            (Pipeline.max_pages o) with
    | None => Some (None, false)
    | Some downloader =>
        s ← Images.crawl bracketed_host_ok urljoin image_size str_hash w
              downloader fuel Images.initial_state;
        Some (Some s, (Images.downloaded_count s >? 0)%Z)
    end.

End WithLibraries.

End Steps.

(* ===================================================================== *)
(** * Facts about the string methods *)
(* ===================================================================== *)

Module StrFacts.
Import PyStr.

#[local] Arguments String.append !s1 s2 /.

Lemma append_nil_r (s : string) : s +:+ "" = s.
Proof. induction s as [|a s IH]; simpl; [reflexivity | now rewrite IH]. Qed.

Lemma append_assoc (s t u : string) : (s +:+ t) +:+ u = s +:+ t +:+ u.
Proof. induction s as [|a s IH]; simpl; [reflexivity | now rewrite IH]. Qed.

Lemma has_char_app (c : ascii) (s t : string) :
  has_char c (s +:+ t) = has_char c s || has_char c t.
Proof.
  induction s as [|a s IH]; simpl; [reflexivity|].
  rewrite IH. now rewrite orb_assoc.
Qed.

Lemma lstrip_pred_app (p : ascii -> bool) (s : string) (x : ascii) (t : string) :
  p x = false ->
  lstrip_pred p (s +:+ String x t) = lstrip_pred p s +:+ String x t.
Proof.
  intros Hx. induction s as [|a s IH]; simpl.
  - now rewrite Hx.
  - destruct (p a); [exact IH | reflexivity].
Qed.

Lemma remove_pred_app (p : ascii -> bool) (s t : string) :
  remove_pred p (s +:+ t) = remove_pred p s +:+ remove_pred p t.
Proof.
  induction s as [|a s IH]; simpl; [reflexivity|].
  destruct (p a); simpl; now rewrite IH.
Qed.

Lemma has_char_lstrip (c : ascii) (p : ascii -> bool) (s : string) :
  has_char c (lstrip_pred p s) = true -> has_char c s = true.
Proof.
  induction s as [|a s IH]; simpl; [discriminate|].
  destruct (p a); simpl; intros H; [rewrite IH by exact H; apply orb_true_r | exact H].
Qed.

Lemma has_char_remove (c : ascii) (p : ascii -> bool) (s : string) :
  has_char c (remove_pred p s) = true -> has_char c s = true.
Proof.
  induction s as [|a s IH]; simpl; [discriminate|].
  destruct (p a); simpl; intros H.
  - rewrite IH by exact H. apply orb_true_r.
  - apply orb_true_iff in H. destruct H as [H|H].
    + now rewrite H.
    + rewrite IH by exact H. apply orb_true_r.
Qed.

(** [partition] finds the separator exactly when the text has it *)
Lemma partition_absent (c : ascii) (s : string) :
  has_char c s = false -> partition c s = (s, None).
Proof.
  induction s as [|a s IH]; simpl; [reflexivity|].
  intros H. apply orb_false_iff in H. destruct H as [Ha Hs].
  rewrite Ha, (IH Hs). reflexivity.
Qed.

Lemma partition_present (c : ascii) (s : string) :
  has_char c s = true ->
  exists pre rest, partition c s = (pre, Some rest) /\ has_char c pre = false
                   /\ s = pre +:+ String c rest.
Proof.
  induction s as [|a s IH]; simpl; [discriminate|].
  destruct (Ascii.eqb a c) eqn:Ha; simpl.
  - intros _. apply Ascii.eqb_eq in Ha. subst a.
    exists EmptyString, s. repeat split; reflexivity.
  - intros H. destruct (IH H) as (pre & rest & Hp & Hn & Hs).
    exists (String a pre), rest. rewrite Hp. simpl. rewrite Ha, Hn.
    repeat split; try reflexivity. now rewrite Hs at 1.
Qed.

Lemma partition_app_found (c : ascii) (s pre rest t : string) :
  partition c s = (pre, Some rest) ->
  partition c (s +:+ t) = (pre, Some (rest +:+ t)).
Proof.
  revert pre. induction s as [|a s IH]; simpl; intros pre; [discriminate|].
  destruct (Ascii.eqb a c).
  - intros H. injection H as <- <-. reflexivity.
  - destruct (partition c s) as [h o] eqn:Hp. intros H. injection H as <- ->.
    now rewrite (IH h eq_refl).
Qed.

Lemma partition_app_absent (c : ascii) (s t : string) :
  has_char c s = false ->
  partition c (s +:+ t) = (s +:+ fst (partition c t), snd (partition c t)).
Proof.
  induction s as [|a s IH]; simpl.
  - intros _. now destruct (partition c t).
  - intros H. apply orb_false_iff in H. destruct H as [Ha Hs].
    rewrite Ha, (IH Hs). reflexivity.
Qed.

(** what [partition] returns holds no character that the text lacks *)
Lemma partition_chars (c d : ascii) (s : string) :
  has_char d s = false ->
  has_char d (fst (partition c s)) = false
  /\ (forall r, snd (partition c s) = Some r -> has_char d r = false).
Proof.
  induction s as [|a s IH]; simpl.
  - intros _. split; [reflexivity | discriminate].
  - intros H. apply orb_false_iff in H. destruct H as [Ha Hs].
    destruct (Ascii.eqb a c); simpl.
    + split; [reflexivity|]. intros r Hr. now injection Hr as <-.
    + destruct (IH Hs) as [H1 H2]. destruct (partition c s) as [h o]. simpl in *.
      rewrite Ha, H1. split; [reflexivity | exact H2].
Qed.

Lemma span_until_app (p : ascii -> bool) (s : string) (x : ascii) (t : string) :
  p x = true ->
  span_until p (s +:+ String x t)
  = (fst (span_until p s), snd (span_until p s) +:+ String x t).
Proof.
  intros Hx. induction s as [|a s IH]; simpl.
  - now rewrite Hx.
  - destruct (p a); simpl; [reflexivity|].
    rewrite IH. now destruct (span_until p s).
Qed.

Lemma span_until_chars (p : ascii -> bool) (d : ascii) (s : string) :
  has_char d s = false ->
  has_char d (fst (span_until p s)) = false
  /\ has_char d (snd (span_until p s)) = false.
Proof.
  induction s as [|a s IH]; simpl; [now split|].
  intros H. destruct (p a); simpl; [now split|].
  apply orb_false_iff in H. destruct H as [Ha Hs].
  destruct (IH Hs) as [H1 H2]. destruct (span_until p s). simpl in *.
  now rewrite Ha, H1.
Qed.

(** [rstrip] takes a trailing separator with it *)
Lemma rstrip_char_snoc (c : ascii) (s : string) :
  rstrip_char c (s +:+ String c "") = rstrip_char c s.
Proof.
  induction s as [|a s IH]; simpl.
  - now rewrite Ascii.eqb_refl.
  - now rewrite IH.
Qed.

Lemma rstrip_char_all (c : ascii) (s : string) :
  all_chars (Ascii.eqb c) s = true -> rstrip_char c s = "".
Proof.
  induction s as [|a s IH]; simpl; [reflexivity|].
  intros H. apply andb_true_iff in H. destruct H as [Ha Hs].
  rewrite (IH Hs). rewrite Ascii.eqb_sym in Ha. now rewrite Ha.
Qed.

Lemma rstrip_char_app_all (c : ascii) (s t : string) :
  all_chars (Ascii.eqb c) t = true ->
  rstrip_char c (s +:+ t) = rstrip_char c s.
Proof.
  intros Ht. induction s as [|a s IH]; simpl.
  - now apply rstrip_char_all.
  - now rewrite IH.
Qed.



End StrFacts.

(* ===================================================================== *)
(** * Facts about [urlparse] *)
(* ===================================================================== *)

Module UrlFacts.
Import PyStr UrlLib StrFacts.

#[local] Arguments String.append !s1 s2 /.

Lemma clean_app (u : string) (x : ascii) (t : string) :
  is_c0_or_space x = false -> is_unsafe x = false ->
  clean (u +:+ String x t) = clean u +:+ String x (remove_pred is_unsafe t).
Proof.
  intros Hc Hu. unfold clean.
  rewrite lstrip_pred_app by exact Hc.
  rewrite remove_pred_app. simpl. now rewrite Hu.
Qed.

Lemma clean_chars (d : ascii) (u : string) :
  has_char d u = false -> has_char d (clean u) = false.
Proof.
  intros H. unfold clean.
  destruct (has_char d (remove_pred is_unsafe (lstrip_pred is_c0_or_space u))) eqn:E;
    [|reflexivity].
  apply has_char_remove, has_char_lstrip in E. congruence.
Qed.

Lemma all_chars_app (p : ascii -> bool) (s t : string) :
  all_chars p (s +:+ t) = all_chars p s && all_chars p t.
Proof.
  induction s as [|a s IH]; simpl; [reflexivity|].
  rewrite IH. now rewrite andb_assoc.
Qed.

(** a suffix that starts with a character no scheme can hold leaves the
    scheme as it is *)
Lemma split_scheme_app (c : string) (x : ascii) (t : string) :
  is_scheme_char x = false -> Ascii.eqb x ":" = false ->
  split_scheme (c +:+ String x t)
  = (fst (split_scheme c), snd (split_scheme c) +:+ String x t).
Proof.
  intros Hx Hcolon. unfold split_scheme.
  destruct (has_char ":" c) eqn:Hc.
  - destruct (partition_present _ _ Hc) as (pre & rest & Hp & _ & _).
    rewrite (partition_app_found _ _ _ _ (String x t) Hp), Hp.
    destruct pre as [|c0 pre']; [reflexivity|].
    destruct (is_ascii_alpha c0 && all_chars is_scheme_char (String c0 pre'));
      reflexivity.
  - rewrite (partition_app_absent _ _ (String x t) Hc), (partition_absent _ _ Hc).
    simpl partition at 1 2. rewrite Hcolon.
    destruct (partition ":" t) as [h o]. simpl fst. simpl snd.
    destruct o as [r|].
    + destruct (c +:+ String x h) as [|c0 pre'] eqn:E.
      * destruct c; discriminate.
      * rewrite <- E, all_chars_app. simpl all_chars. rewrite Hx.
        rewrite andb_false_r, andb_false_r. now destruct c.
    + destruct (c +:+ String x h); now destruct c.
Qed.

Lemma split_scheme_chars (d : ascii) (c : string) :
  has_char d c = false -> has_char d (snd (split_scheme c)) = false.
Proof.
  intros H. unfold split_scheme.
  destruct (partition_chars ":" d c H) as [_ H2].
  destruct (partition ":" c) as [pre o]. simpl in H2.
  destruct pre as [|c0 pre']; [now destruct o|].
  destruct o as [rest|]; [|exact H].
  destruct (is_ascii_alpha c0 && all_chars is_scheme_char (String c0 pre'));
    simpl; [now apply H2 | exact H].
Qed.

Lemma split_netloc_chars (d : ascii) (r : string) :
  has_char d r = false ->
  has_char d (snd (split_netloc r)) = false.
Proof.
  intros H. unfold split_netloc, splitnetloc.
  destruct r as [|a [|b r']]; try exact H.
  destruct (Ascii.eqb a "/" && Ascii.eqb b "/"); [|exact H].
  simpl in H. apply orb_false_iff in H. destruct H as [_ H].
  apply orb_false_iff in H. destruct H as [_ H].
  destruct (span_until_chars is_netloc_delim d r' H) as [_ H2].
  now destruct (span_until is_netloc_delim r').
Qed.

(** a fragment after the text leaves the network location as it is *)
Lemma split_netloc_app_fragment (r t : string) :
  split_netloc (r +:+ String "#" t)
  = (fst (split_netloc r), snd (split_netloc r) +:+ String "#" t).
Proof.
  unfold split_netloc.
  destruct r as [|a [|b r']]; simpl.
  - now destruct t.
  - now destruct (Ascii.eqb a "/").
  - destruct (Ascii.eqb a "/" && Ascii.eqb b "/"); [|reflexivity].
    rewrite span_until_app by reflexivity.
    now destruct (span_until is_netloc_delim r').
Qed.

(** so does a trailing slash, unless the text is a single slash *)
Lemma split_netloc_app_slash (r : string) :
  r <> "/" ->
  split_netloc (r +:+ "/")
  = (fst (split_netloc r), snd (split_netloc r) +:+ "/").
Proof.
  intros Hr. unfold split_netloc.
  destruct r as [|a [|b r']]; simpl.
  - reflexivity.
  - destruct (Ascii.eqb a "/") eqn:Ea; [|reflexivity].
    apply Ascii.eqb_eq in Ea. now subst a.
  - destruct (Ascii.eqb a "/" && Ascii.eqb b "/"); [|reflexivity].
    rewrite span_until_app by reflexivity.
    now destruct (span_until is_netloc_delim r').
Qed.

Section Suffixes.

Variable ok : string -> bool.

(** the path-side text of a URL holds no character the URL lacks *)
Lemma rest_chars (d : ascii) (u : string) :
  has_char d u = false ->
  has_char d (snd (split_netloc (snd (split_scheme (clean u))))) = false.
Proof.
  intros H. now apply split_netloc_chars, split_scheme_chars, clean_chars.
Qed.

Lemma urlsplit_chars (d : ascii) (u : string) (r : SplitResult) :
  has_char d u = false -> urlsplit ok u = Some r -> has_char d (s_path r) = false.
Proof.
  intros H. unfold urlsplit. pose proof (rest_chars d u H) as Hr.
  destruct (split_scheme (clean u)) as [sch url1]. simpl in Hr.
  destruct (split_netloc url1) as [net url2]. simpl in Hr.
  destruct (netloc_ok ok net); [|discriminate].
  destruct (partition_chars "#" d url2 Hr) as [H3 _].
  destruct (partition "#" url2) as [url3 frag]. simpl in H3.
  destruct (partition_chars "?" d url3 H3) as [H4 _].
  destruct (partition "?" url3) as [url4 qry]. simpl in H4.
  intros E. injection E as <-. exact H4.
Qed.

(** [urlsplit] of a URL with a fragment added *)
Lemma urlsplit_fragment (u f : string) :
  has_char "#" u = false ->
  urlsplit ok (u +:+ String "#" f)
  = option_map (fun r => mkSplit (s_scheme r) (s_netloc r) (s_path r) (s_query r)
                           (remove_pred is_unsafe f))
      (urlsplit ok u).
Proof.
  intros H. unfold urlsplit.
  rewrite clean_app by reflexivity.
  rewrite split_scheme_app by reflexivity.
  pose proof (rest_chars "#" u H) as Hr.
  destruct (split_scheme (clean u)) as [sch url1]. simpl fst. simpl snd. simpl in Hr.
  rewrite split_netloc_app_fragment.
  destruct (split_netloc url1) as [net url2]. simpl fst. simpl snd. simpl in Hr.
  destruct (netloc_ok ok net); [|reflexivity].
  rewrite (partition_app_absent _ _ _ Hr), (partition_absent _ _ Hr).
  simpl. rewrite append_nil_r.
  now destruct (partition "?" url2).
Qed.

(** [urlparse] of a URL with a fragment added: only the fragment changes *)
Lemma urlparse_fragment (u f : string) :
  has_char "#" u = false ->
  urlparse ok (u +:+ String "#" f)
  = option_map (set_fragment (remove_pred is_unsafe f)) (urlparse ok u).
Proof.
  intros H. unfold urlparse. rewrite (urlsplit_fragment _ _ H).
  destruct (urlsplit ok u) as [r|]; [|reflexivity].
  unfold option_map. cbn [s_scheme s_netloc s_path s_query s_fragment].
  now destruct (if str_in (s_scheme r) uses_params && has_char ";" (s_path r)
                then splitparams (s_path r) else (s_path r, "")).
Qed.

(** [urlsplit] of a URL without fragment or query, with a slash added: the
    slash goes to the path, or turns a path of one slash into an empty
    network location *)
Lemma urlsplit_slash (u : string) :
  has_char "#" u = false -> has_char "?" u = false ->
  match urlsplit ok u, urlsplit ok (u +:+ "/") with
  | Some r1, Some r2 =>
      s_scheme r2 = s_scheme r1 /\ s_netloc r2 = s_netloc r1
      /\ s_query r1 = "" /\ s_query r2 = ""
      /\ (s_path r2 = s_path r1 +:+ "/"
          \/ (s_netloc r1 = "" /\ s_path r1 = "/" /\ s_path r2 = ""))
  | None, None => True
  | _, _ => False
  end.
Proof.
  intros Hf Hq. unfold urlsplit.
  rewrite clean_app by reflexivity. simpl remove_pred.
  rewrite split_scheme_app by reflexivity.
  pose proof (rest_chars "#" u Hf) as Hrf. pose proof (rest_chars "?" u Hq) as Hrq.
  destruct (split_scheme (clean u)) as [sch url1]. simpl fst. simpl snd.
  simpl in Hrf, Hrq.
  destruct (string_dec url1 "/") as [->|Hne].
  - simpl. unfold netloc_ok. simpl. repeat split; auto.
  - rewrite (split_netloc_app_slash _ Hne).
    destruct (split_netloc url1) as [net url2]. simpl fst. simpl snd.
    simpl in Hrf, Hrq.
    destruct (netloc_ok ok net); [|exact I].
    rewrite (partition_app_absent _ _ _ Hrf), (partition_absent _ _ Hrf). simpl.
    rewrite (partition_app_absent _ _ _ Hrq), (partition_absent _ _ Hrq). simpl.
    repeat split; auto.
Qed.

End Suffixes.

End UrlFacts.

(* ===================================================================== *)
(** * Facts about [normalize_url] *)
(* ===================================================================== *)

Module NormalizeFacts.
Import PyStr UrlLib Scraper Terms StrFacts UrlFacts.

#[local] Arguments String.append !s1 s2 /.

Section Normalize.

Variable ok : string -> bool.

Lemma is_booking_url_same_parse (u1 u2 f : string) :
  urlparse ok u2 = option_map (set_fragment f) (urlparse ok u1) ->
  is_booking_url ok u2 = is_booking_url ok u1.
Proof.
  unfold is_booking_url. intros ->. now destruct (urlparse ok u1).
Qed.

Lemma normalize_url_same_parse (u1 u2 f : string) :
  urlparse ok u2 = option_map (set_fragment f) (urlparse ok u1) ->
  normalize_url ok u2 = normalize_url ok u1.
Proof.
  intros H. unfold normalize_url.
  rewrite (is_booking_url_same_parse _ _ _ H), H.
  now destruct (urlparse ok u1).
Qed.

(** a fragment does not reach the normal form *)
Lemma normalize_url_fragment (u f : string) :
  has_char "#" u = false ->
  normalize_url ok (with_fragment u f) = normalize_url ok u.
Proof.
  intros H. eapply normalize_url_same_parse. now apply urlparse_fragment.
Qed.

Lemma normalize_url_strip_fragment (u : string) :
  normalize_url ok u = normalize_url ok (strip_fragment u).
Proof.
  unfold strip_fragment. destruct (has_char "#" u) eqn:H.
  - destruct (partition_present _ _ H) as (pre & rest & Hp & Hn & ->).
    rewrite (partition_app_absent _ _ _ Hn). simpl.
    rewrite append_nil_r. now apply normalize_url_fragment.
  - now rewrite (partition_absent _ _ H).
Qed.

(** [urlparse] keeps a path without [;] whole *)
Lemma urlparse_no_params (u : string) (r : SplitResult) :
  urlsplit ok u = Some r -> has_char ";" (s_path r) = false ->
  urlparse ok u
  = Some (mkParse (s_scheme r) (s_netloc r) (s_path r) "" (s_query r) (s_fragment r)).
Proof.
  intros E H. unfold urlparse. rewrite E, H, andb_false_r. reflexivity.
Qed.

Lemma rstrip_three_two (s : string) :
  rstrip_char "/" (s +:+ "://" +:+ "" +:+ "/") = rstrip_char "/" (s +:+ "://" +:+ "" +:+ "").
Proof.
  change (s +:+ "://" +:+ "" +:+ "/") with (s +:+ ":" +:+ "///").
  change (s +:+ "://" +:+ "" +:+ "") with (s +:+ ":" +:+ "//").
  rewrite <- (append_assoc s ":" "///"), <- (append_assoc s ":" "//").
  rewrite (rstrip_char_app_all "/" (s +:+ ":") "///") by reflexivity.
  now rewrite (rstrip_char_app_all "/" (s +:+ ":") "//") by reflexivity.
Qed.

(** a trailing slash does not reach the normal form of a URL that has
    neither fragment, query nor path parameters *)
Lemma normalize_url_slash_plain (u : string) :
  has_char "#" u = false -> has_char "?" u = false -> has_char ";" u = false ->
  normalize_url ok (with_trailing_slash u) = normalize_url ok u.
Proof.
  intros Hf Hq Hs. unfold with_trailing_slash.
  assert (Hs2 : has_char ";" (u +:+ "/") = false)
    by (rewrite has_char_app, Hs; reflexivity).
  pose proof (urlsplit_slash ok u Hf Hq) as H.
  destruct (urlsplit ok u) as [r1|] eqn:E1;
    destruct (urlsplit ok (u +:+ "/")) as [r2|] eqn:E2; try contradiction.
  - destruct H as (Hsch & Hnet & Hq1 & Hq2 & Hpath).
    unfold normalize_url.
    rewrite (urlparse_no_params _ _ E1 (urlsplit_chars ok ";" _ _ Hs E1)).
    rewrite (urlparse_no_params _ _ E2 (urlsplit_chars ok ";" _ _ Hs2 E2)).
    cbn -[String.append rstrip_char]. rewrite Hq1, Hq2, Hsch, Hnet.
    cbn -[String.append rstrip_char]. f_equal.
    destruct Hpath as [-> | (Hn & -> & ->)].
    + rewrite <- !append_assoc. apply rstrip_char_snoc.
    + rewrite Hn. symmetry. apply rstrip_three_two.
  - unfold normalize_url, urlparse. now rewrite E1, E2.
Qed.

Lemma normalize_url_slash (u : string) :
  slash_in_path_or_fragment u ->
  normalize_url ok (with_trailing_slash u) = normalize_url ok u.
Proof.
  intros [H | [Hq Hs]].
  - rewrite (normalize_url_strip_fragment u),
            (normalize_url_strip_fragment (with_trailing_slash u)).
    f_equal. unfold strip_fragment, with_trailing_slash.
    destruct (partition_present _ _ H) as (pre & rest & Hp & _ & _).
    now rewrite (partition_app_found _ _ _ _ "/" Hp), Hp.
  - destruct (has_char "#" u) eqn:H.
    + rewrite (normalize_url_strip_fragment u),
              (normalize_url_strip_fragment (with_trailing_slash u)).
      f_equal. unfold strip_fragment, with_trailing_slash.
      destruct (partition_present _ _ H) as (pre & rest & Hp & _ & _).
      now rewrite (partition_app_found _ _ _ _ "/" Hp), Hp.
    + now apply normalize_url_slash_plain.
Qed.

End Normalize.

End NormalizeFacts.

(** ** The query of a booking URL *)

Module QueryFacts.
Import PyStr UrlLib Scraper Terms StrFacts.

#[local] Arguments String.append !s1 s2 /.




Section Booking.

Variable ok : string -> bool.




End Booking.

End QueryFacts.

(* ===================================================================== *)
(** * Facts about the text crawler *)
(* ===================================================================== *)

Module ScraperFacts.
Import PyStr UrlLib Scraper Terms.

Section Crawl.

Variable ok : string -> bool.
Variable tld : string -> ExtractResult.
Variable w : World.
Variable cfg : Config.

Local Abbreviation process := (_process_url ok tld w cfg).

(** the [try] block changes the content and the request log only *)
Lemma fetch_page_frame (s : State) (u : string) :
  let s' := fst (fetch_page ok tld w cfg s u) in
  visited_urls s' = visited_urls s
  /\ booking_urls_crawled s' = booking_urls_crawled s
  /\ booking_domains_seen s' = booking_domains_seen s
  /\ requests s' = requests s ++ [(Processing, u)].
Proof.
  unfold fetch_page, get. simpl.
  destruct (w (requests s) u) as [|status page]; simpl; [now repeat split|].
  destruct (negb (status =? 200)%Z); simpl; [now repeat split|].
  now destruct (extract_new_urls ok tld cfg _ page).
Qed.

(** what the booking test leaves of the state *)
Lemma booking_gate_open (s s2 : State) (u : string) :
  booking_gate ok cfg s u = GateOpen s2 ->
  visited_urls s2 = visited_urls s /\ requests s2 = requests s.
Proof.
  unfold booking_gate.
  destruct (is_booking_url ok u) as [[|]|]; destruct (urlparse ok u) as [p|];
    try discriminate; try (intros E; injection E as <-; now split).
  destruct (bool_decide _); [destruct (_ >=? _)%Z; [discriminate|]|];
    intros E; injection E as <-; now split.
Qed.

Lemma process_visited (s : State) (u : string) :
  visited_urls s ⊆ visited_urls (fst (process s u)).
Proof.
  unfold _process_url.
  destruct (normalize_url ok u) as [n|]; [|done].
  destruct (bool_decide (n ∈ visited_urls s)); [done|].
  destruct (booking_gate ok cfg (mark_visited n s) u) as [| |s2] eqn:G; simpl;
    try set_solver.
  destruct (booking_gate_open _ _ _ G) as [Hv _].
  pose proof (fetch_page_frame s2 u) as (Hf & _).
  destruct (fetch_page ok tld w cfg s2 u) as [s3 new_urls]. simpl in *.
  rewrite Hf, Hv. simpl. set_solver.
Qed.

(** [_process_url] makes at most one request, for the URL it is given *)
Lemma process_requests (s : State) (u : string) :
  requests (fst (process s u)) = requests s
  \/ requests (fst (process s u)) = requests s ++ [(Processing, u)].
Proof.
  unfold _process_url.
  destruct (normalize_url ok u) as [n|]; [|now left].
  destruct (bool_decide (n ∈ visited_urls s)); [now left|].
  destruct (booking_gate ok cfg (mark_visited n s) u) as [| |s2] eqn:G; simpl;
    try (now left).
  destruct (booking_gate_open _ _ _ G) as [_ Hr].
  pose proof (fetch_page_frame s2 u) as (_ & _ & _ & Hf).
  destruct (fetch_page ok tld w cfg s2 u) as [s3 new_urls]. simpl in *.
  right. now rewrite Hf, Hr.
Qed.

(** a target whose normal form is visited is not processed again *)
Lemma process_visited_noop (s : State) (u n : string) :
  normalize_url ok u = Some n -> n ∈ visited_urls s ->
  process s u = (s, Some []).
Proof.
  intros Hn Hv. unfold _process_url. rewrite Hn.
  now rewrite bool_decide_eq_true_2.
Qed.

(** a processed target is visited *)
Lemma process_marks (s : State) (u n : string) :
  normalize_url ok u = Some n -> n ∈ visited_urls (fst (process s u)).
Proof.
  intros Hn. unfold _process_url. rewrite Hn.
  destruct (bool_decide (n ∈ visited_urls s)) eqn:E.
  - now apply bool_decide_eq_true_1 in E.
  - destruct (booking_gate ok cfg (mark_visited n s) u) as [| |s2] eqn:G; simpl;
      try set_solver.
    destruct (booking_gate_open _ _ _ G) as [Hv _].
    pose proof (fetch_page_frame s2 u) as (Hf & _).
    destruct (fetch_page ok tld w cfg s2 u) as [s3 new_urls]. simpl in *.
    rewrite Hf, Hv. simpl. set_solver.
Qed.

(** a request is made only for a target that the frontier yields *)
Lemma process_requests_yielded (s : State) (u : string) :
  requests (fst (process s u)) = requests s
  \/ (requests (fst (process s u)) = requests s ++ [(Processing, u)]
      /\ yielded ok s u = true).
Proof.
  destruct (process_requests s u) as [H|H]; [now left|].
  unfold yielded. destruct (normalize_url ok u) as [n|] eqn:Hn.
  - destruct (bool_decide (n ∈ visited_urls s)) eqn:Hv.
    + apply bool_decide_eq_true_1 in Hv.
      rewrite (process_visited_noop _ _ _ Hn Hv) in *. now left.
    + now right.
  - left. unfold _process_url. now rewrite Hn.
Qed.

Lemma frontier_fetch_count_snoc (n : string) (log : list (Origin * string)) (u : string) :
  frontier_fetch_count ok n (log ++ [(Processing, u)])
  = (frontier_fetch_count ok n log + (if has_normal_form ok n u then 1 else 0))%nat.
Proof.
  unfold frontier_fetch_count. rewrite List.filter_app, List.length_app.
  unfold frontier_fetches at 2. simpl.
  now destruct (has_normal_form ok n u).
Qed.

Lemma frontier_fetch_count_other (n : string) (log : list (Origin * string))
    (o : Origin) (u : string) :
  o <> Processing -> frontier_fetch_count ok n (log ++ [(o, u)]) = frontier_fetch_count ok n log.
Proof.
  intros Ho. unfold frontier_fetch_count. rewrite List.filter_app, List.length_app.
  unfold frontier_fetches at 2. simpl. destruct o; try congruence; simpl; lia.
Qed.

(** a target with the normal form [n] is not yielded once [n] is visited *)
Lemma visited_not_yielded (s : State) (n u : string) :
  n ∈ visited_urls s -> has_normal_form ok n u && yielded ok s u = false.
Proof.
  intros Hv. unfold has_normal_form, yielded.
  destruct (normalize_url ok u) as [m|]; [|reflexivity].
  destruct (String.eqb m n) eqn:E; [|reflexivity].
  apply String.eqb_eq in E. subst m.
  now rewrite bool_decide_eq_true_2.
Qed.

(** once [n] is visited, no further offer yields it or frontier_fetches its page *)
Lemma after_visit (n : string) (urls : list string) (s : State) :
  n ∈ visited_urls s ->
  yield_count ok tld w cfg n s urls = O
  /\ frontier_fetch_count ok n (requests (offer_all ok tld w cfg s urls))
     = frontier_fetch_count ok n (requests s).
Proof.
  revert s. induction urls as [|u urls IH]; intros s Hv; simpl; [done|].
  pose proof (visited_not_yielded s n u Hv) as Hy. rewrite Hy.
  assert (Hv' : n ∈ visited_urls (fst (process s u)))
    by (now apply (process_visited s u)).
  destruct (IH _ Hv') as [IH1 IH2]. rewrite IH1, IH2. split; [reflexivity|].
  destruct (process_requests_yielded s u) as [-> | [-> Hyu]]; [reflexivity|].
  rewrite frontier_fetch_count_snoc. rewrite Hyu, andb_true_r in Hy. rewrite Hy. lia.
Qed.

(** however the offers of a normalised URL are spread over a run of
    offers, it is yielded, and its page fetched, at most once *)
Lemma at_most_once (n : string) (urls : list string) (s : State) :
  (yield_count ok tld w cfg n s urls <= 1)%nat
  /\ (frontier_fetch_count ok n (requests (offer_all ok tld w cfg s urls))
      <= frontier_fetch_count ok n (requests s) + 1)%nat.
Proof.
  revert s. induction urls as [|u urls IH]; intros s; simpl; [lia|].
  destruct (has_normal_form ok n u && yielded ok s u) eqn:Hy.
  - apply andb_true_iff in Hy. destruct Hy as [Hn Hyu].
    assert (Hv : n ∈ visited_urls (fst (process s u))).
    { unfold has_normal_form in Hn.
      destruct (normalize_url ok u) as [m|] eqn:E; [|discriminate].
      apply String.eqb_eq in Hn. subst m. now apply process_marks. }
    destruct (after_visit n urls _ Hv) as [H1 H2]. rewrite H1, H2.
    split; [lia|].
    destruct (process_requests_yielded s u) as [-> | [-> _]]; [lia|].
    rewrite frontier_fetch_count_snoc. destruct (has_normal_form ok n u); lia.
  - destruct (IH (fst (process s u))) as [IH1 IH2]. split; [lia|].
    destruct (process_requests_yielded s u) as [E | [E Hyu]]; rewrite E in IH2;
      [lia|].
    rewrite frontier_fetch_count_snoc in IH2. rewrite Hyu, andb_true_r in Hy.
    rewrite Hy in IH2. lia.
Qed.

Lemma offer_all_visited (s : State) (urls : list string) :
  visited_urls s ⊆ visited_urls (offer_all ok tld w cfg s urls).
Proof.
  revert s. induction urls as [|u urls IH]; intros s; simpl; [done|].
  etrans; [apply (process_visited s u) | apply IH].
Qed.

(** ** What every step of [crawl] preserves *)

Section Preserved.

Variable P : State -> Prop.
Hypothesis P_log : forall s o u, o <> Processing -> P s -> P (log_request o u s).
Hypothesis P_main : forall s u, P s -> P (add_main_page_link u s).
Hypothesis P_lang : forall s d, P s -> P (add_language_subdomain d s).
Hypothesis P_process : forall s u, P s -> P (fst (process s u)).

Lemma add_main_page_links_preserves (links : list string) (s : State) :
  P s -> P (fst (add_main_page_links ok tld cfg links s)).
Proof.
  revert s. induction links as [|l links IH]; intros s H; simpl; [exact H|].
  destruct (is_valid_url ok tld cfg l) as [[|]|]; simpl; auto.
  destruct (normalize_url ok l) as [n|]; simpl; auto.
Qed.

Lemma seed_preserves (s : State) :
  P s -> P (fst (seed ok tld w cfg s)).
Proof.
  intros H. unfold seed, get.
  destruct (w (requests s) (base_url cfg)) as [|status page]; simpl; auto.
  destruct (negb (status =? 200)%Z); simpl; auto.
  assert (HU : Upfront <> Processing) by discriminate.
  pose proof (add_main_page_links_preserves (anchors page) _
                (P_log s Upfront (base_url cfg) HU H)).
  destruct (add_main_page_links ok tld cfg (anchors page) _) as [s2 [|]]; exact H0.
Qed.

Lemma explore_subdomain_preserves (s : State) (u : string) (q : list string) :
  P s -> P (fst (explore_subdomain ok tld w cfg s u q)).
Proof.
  intros H. unfold explore_subdomain, get.
  destruct (w (requests s) u) as [|status page]; simpl; auto.
  destruct (status =? 200)%Z; simpl; auto.
Qed.

Lemma process_priority_preserves (l : list string) (s : State) (q : list string) :
  P s -> P (fst (fst (process_priority ok tld w cfg l s q))).
Proof.
  revert s q. induction l as [|u l IH]; intros s q H; simpl; [exact H|].
  destruct (bool_decide (u ∈ visited_urls s)); [now apply IH|].
  pose proof (P_process s u H) as H1.
  destruct (process s u) as [s1 [r|]]; simpl in *; [|exact H1].
  destruct (urlparse ok u); simpl; [|exact H1].
  destruct (str_in (subdomain (tld u)) language_prefixes); [|now apply IH].
  pose proof (explore_subdomain_preserves s1 u q H1) as H2.
  destruct (explore_subdomain ok tld w cfg s1 u q) as [s2 q2]. now apply IH.
Qed.

Lemma is_priority_url_preserves (s s' : State) (u : string) (k : bool) :
  is_priority_url ok tld s u = Some (s', k) -> P s -> P s'.
Proof.
  unfold is_priority_url.
  destruct (urlparse ok u) as [p|]; simpl; [|discriminate].
  destruct (str_in (subdomain (tld u)) language_prefixes).
  - intros E. injection E as <- <-. apply P_lang.
  - destruct (contains_any _ _); intros E; injection E as <- <-; auto.
Qed.

Lemma priority_keys_preserves (l : list string) (s : State) :
  P s -> P (fst (priority_keys ok tld s l)).
Proof.
  revert s. induction l as [|u l IH]; intros s H; simpl; [exact H|].
  destruct (is_priority_url ok tld s u) as [[s1 k]|] eqn:E; simpl; [|exact H].
  pose proof (IH s1 (is_priority_url_preserves _ _ _ _ E H)) as H1.
  now destruct (priority_keys ok tld s1 l) as [s2 [ks|]].
Qed.

Lemma drain_preserves (fuel : nat) (s : State) (q : list string) :
  P s -> P (fst (drain ok tld w cfg fuel s q)).
Proof.
  revert s q. induction fuel as [|fuel IH]; intros s q H.
  - now destruct q.
  - destruct q as [|u0 q0]; [exact H|].
    cbn [drain].
    pose proof (priority_keys_preserves (u0 :: q0) s H) as H1.
    destruct (priority_keys ok tld s (u0 :: q0)) as [s1 [ks|]]; simpl in H1;
      [|exact H1].
    destruct (sort_by_priority ks) as [|url rest]; [exact H1|].
    destruct (bool_decide (url ∈ visited_urls s1)); [now apply IH|].
    pose proof (P_process s1 url H1) as H2.
    destruct (process s1 url) as [s2 [new_urls|]]; simpl in H2; [|exact H2].
    now apply IH.
Qed.

(** a property of the state that the single steps preserve holds all
    through [crawl] *)
Lemma crawl_preserves (fuel : nat) (s : State) :
  P s -> P (fst (crawl ok tld w cfg fuel s)).
Proof.
  intros H. unfold crawl.
  pose proof (seed_preserves s H) as H1.
  destruct (seed ok tld w cfg s) as [s1 [priority_urls|]]; simpl in H1; [|exact H1].
  pose proof (P_process s1 (base_url cfg) H1) as H2.
  destruct (process s1 (base_url cfg)) as [s2 [r|]]; simpl in H2; [|exact H2].
  pose proof (process_priority_preserves priority_urls s2 [base_url cfg] H2) as H3.
  destruct (process_priority ok tld w cfg priority_urls s2 [base_url cfg])
    as [[s3 q] [|]]; simpl in H3; [|exact H3].
  now apply drain_preserves.
Qed.

End Preserved.

(** ** The booking counter *)

Lemma booking_gate_bound (s s2 : State) (u : string) :
  booking_bound cfg s -> booking_gate ok cfg s u = GateOpen s2 ->
  booking_bound cfg s2.
Proof.
  unfold booking_bound, booking_gate. intros H.
  destruct (is_booking_url ok u) as [[|]|]; destruct (urlparse ok u) as [p|];
    try discriminate; try (intros E; injection E as <-; exact H).
  destruct (bool_decide (netloc p ∈ booking_domains_seen s)) eqn:Hd.
  - destruct (booking_urls_crawled s >=? max_booking_urls cfg)%Z eqn:Hc;
      [discriminate|].
    intros E. injection E as <-. simpl. lia.
  - intros E. injection E as <-. simpl.
    apply bool_decide_eq_false_1 in Hd.
    rewrite size_union by set_solver. rewrite size_singleton. lia.
Qed.

Lemma process_booking_bound (s : State) (u : string) :
  booking_bound cfg s -> booking_bound cfg (fst (process s u)).
Proof.
  intros H. unfold _process_url.
  destruct (normalize_url ok u) as [n|]; [|exact H].
  destruct (bool_decide (n ∈ visited_urls s)); [exact H|].
  destruct (booking_gate ok cfg (mark_visited n s) u) as [| |s2] eqn:G; simpl;
    try exact H.
  assert (H2 : booking_bound cfg s2) by (eapply booking_gate_bound; [|exact G]; exact H).
  pose proof (fetch_page_frame s2 u) as (_ & Hc & Hd & _).
  destruct (fetch_page ok tld w cfg s2 u) as [s3 new_urls]. simpl in *.
  unfold booking_bound in *. now rewrite Hc, Hd.
Qed.

(** a booking target on a domain seen before is dropped, marked visited,
    once the counter has reached the limit *)
Lemma process_seen_dropped (s : State) (u n : string) (p : ParseResult) :
  normalize_url ok u = Some n -> n ∉ visited_urls s ->
  is_booking_url ok u = Some true -> urlparse ok u = Some p ->
  netloc p ∈ booking_domains_seen s ->
  (booking_urls_crawled s >= max_booking_urls cfg)%Z ->
  process s u = (mark_visited n s, Some []).
Proof.
  intros Hn Hv Hb Hp Hd Hc. unfold _process_url, booking_gate.
  rewrite Hn, Hb, Hp. rewrite bool_decide_eq_false_2 by exact Hv.
  cbn [booking_domains_seen booking_urls_crawled mark_visited].
  rewrite bool_decide_eq_true_2 by exact Hd.
  destruct (booking_urls_crawled s >=? max_booking_urls cfg)%Z eqn:E;
    [reflexivity | lia].
Qed.

(** a booking target on a new domain is admitted whatever the counter:
    the domain is recorded, the counter incremented, the page requested *)
Lemma process_new_admitted (s : State) (u n : string) (p : ParseResult) :
  normalize_url ok u = Some n -> n ∉ visited_urls s ->
  is_booking_url ok u = Some true -> urlparse ok u = Some p ->
  netloc p ∉ booking_domains_seen s ->
  booking_domains_seen (fst (process s u)) = {[ netloc p ]} ∪ booking_domains_seen s
  /\ booking_urls_crawled (fst (process s u)) = (booking_urls_crawled s + 1)%Z
  /\ requests (fst (process s u)) = requests s ++ [(Processing, u)].
Proof.
  intros Hn Hv Hb Hp Hd. unfold _process_url, booking_gate.
  rewrite Hn, Hb, Hp. rewrite bool_decide_eq_false_2 by exact Hv.
  cbn [booking_domains_seen booking_urls_crawled mark_visited].
  rewrite bool_decide_eq_false_2 by exact Hd.
  set (s2 := count_booking_url _).
  pose proof (fetch_page_frame s2 u) as (_ & Hc & Hs & Hr).
  destruct (fetch_page ok tld w cfg s2 u) as [s3 new_urls]. cbn [fst] in *.
  rewrite Hc, Hs, Hr. now repeat split.
Qed.

(** the bound holds all through a crawl *)
Lemma crawl_booking_bound (fuel : nat) (s : State) :
  booking_bound cfg s -> booking_bound cfg (fst (crawl ok tld w cfg fuel s)).
Proof.
  apply (crawl_preserves (booking_bound cfg)); auto using process_booking_bound.
Qed.

(** ** One fetch for each normalised URL *)

Lemma process_fetched_once (s : State) (u : string) :
  fetched_once ok s -> fetched_once ok (fst (process s u)).
Proof.
  intros H n. specialize (H n).
  pose proof (process_visited s u) as Hmono.
  assert (Hle : ((if bool_decide (n ∈ visited_urls s) then 1 else 0)
                 <= if bool_decide (n ∈ visited_urls (fst (process s u)))
                    then 1 else 0)%nat).
  { destruct (bool_decide (n ∈ visited_urls s)) eqn:E; [|lia].
    apply bool_decide_eq_true_1 in E.
    rewrite bool_decide_eq_true_2 by set_solver. lia. }
  destruct (process_requests_yielded s u) as [-> | [-> Hy]]; [lia|].
  rewrite frontier_fetch_count_snoc.
  destruct (has_normal_form ok n u) eqn:Hn; [|lia].
  unfold has_normal_form in Hn. unfold yielded in Hy.
  destruct (normalize_url ok u) as [m|] eqn:Em; [|discriminate].
  apply String.eqb_eq in Hn. subst m.
  rewrite (bool_decide_eq_true_2 _ (process_marks s u n Em)).
  destruct (bool_decide (n ∈ visited_urls s)); [discriminate | lia].
Qed.

(** all through a crawl the frontier has fetched no page twice *)
Lemma crawl_fetched_once (fuel : nat) (s : State) :
  fetched_once ok s -> fetched_once ok (fst (crawl ok tld w cfg fuel s)).
Proof.
  apply (crawl_preserves (fetched_once ok)); auto using process_fetched_once.
  intros s' o u Ho H n. specialize (H n). simpl.
  now rewrite frontier_fetch_count_other.
Qed.

(** the visited set only grows through a crawl *)
Lemma crawl_visited (fuel : nat) (s : State) :
  visited_urls s ⊆ visited_urls (fst (crawl ok tld w cfg fuel s)).
Proof.
  apply (crawl_preserves (fun s' => visited_urls s ⊆ visited_urls s')); try done.
  intros s' u H. etrans; [exact H | apply process_visited].
Qed.

(** ** The requests outside [_process_url] *)

Lemma fetch_count_app (n : string) (l1 l2 : list (Origin * string)) :
  fetch_count ok n (l1 ++ l2) = (fetch_count ok n l1 + fetch_count ok n l2)%nat.
Proof. unfold fetch_count. now rewrite List.filter_app, List.length_app. Qed.

Lemma frontier_fetch_count_app (n : string) (l1 l2 : list (Origin * string)) :
  frontier_fetch_count ok n (l1 ++ l2)
  = (frontier_fetch_count ok n l1 + frontier_fetch_count ok n l2)%nat.
Proof. unfold frontier_fetch_count. now rewrite List.filter_app, List.length_app. Qed.

(** the requests of [_process_url] count the same either way *)
Lemma fetch_count_processing (n : string) (l : list (Origin * string)) :
  Forall (fun r => fst r = Processing) l ->
  fetch_count ok n l = frontier_fetch_count ok n l.
Proof.
  unfold fetch_count, frontier_fetch_count.
  induction 1 as [|[o u] l Ho _ IH]; [reflexivity|].
  simpl in Ho. subst o. cbn [List.filter].
  unfold fetches at 1, frontier_fetches at 1. cbn [fst snd].
  destruct (has_normal_form ok n u); simpl; now rewrite IH.
Qed.

(** a run of offers adds requests of [_process_url] only *)
Lemma offer_all_requests (s : State) (urls : list string) :
  exists extra,
    requests (offer_all ok tld w cfg s urls) = requests s ++ extra
    /\ Forall (fun r => fst r = Processing) extra.
Proof.
  revert s. induction urls as [|u urls IH]; intros s; simpl.
  - exists []. now rewrite app_nil_r.
  - destruct (IH (fst (process s u))) as (extra & E & H).
    destruct (process_requests s u) as [R | R]; rewrite R in E.
    + now exists extra.
    + exists ((Processing, u) :: extra). split.
      * now rewrite E, <- app_assoc.
      * now constructor.
Qed.

(** so the offers of a normalised URL fetch its page at most once,
    whoever is counted *)
Lemma offers_fetch_once (n : string) (urls : list string) (s : State) :
  (fetch_count ok n (requests (offer_all ok tld w cfg s urls))
   <= fetch_count ok n (requests s) + 1)%nat.
Proof.
  destruct (at_most_once n urls s) as [_ H].
  destruct (offer_all_requests s urls) as (extra & E & Hp).
  rewrite E in *. rewrite fetch_count_app, (fetch_count_processing n extra Hp).
  rewrite frontier_fetch_count_app in H. lia.
Qed.

(** on a log with one upfront request the fetches of a page are those of
    [_process_url], those of the explorations, and the upfront request
    when the page is the landing page *)
Lemma fetch_count_one_upfront (n : string) (s : State) :
  one_upfront cfg s ->
  fetch_count ok n (requests s)
  = (frontier_fetch_count ok n (requests s)
     + (if has_normal_form ok n (base_url cfg) then 1 else 0)
     + exploration_count ok n (requests s))%nat.
Proof.
  intros (rest & -> & H).
  assert (E : fetch_count ok n rest
              = (frontier_fetch_count ok n rest + exploration_count ok n rest)%nat).
  { unfold fetch_count, frontier_fetch_count, exploration_count.
    induction H as [|[o u] l Ho _ IH]; [reflexivity|].
    cbn [List.filter].
    unfold fetches at 1, frontier_fetches at 1, exploration_fetches at 1.
    cbn [fst snd] in *.
    destruct o; [congruence| |]; destruct (has_normal_form ok n u); simpl; lia. }
  unfold fetch_count, frontier_fetch_count, exploration_count in *.
  cbn [List.filter].
  unfold fetches at 1, frontier_fetches at 1, exploration_fetches at 1.
  cbn [fst snd].
  destruct (has_normal_form ok n (base_url cfg)); simpl; lia.
Qed.

Lemma add_main_page_links_requests (links : list string) (s : State) :
  requests (fst (add_main_page_links ok tld cfg links s)) = requests s.
Proof.
  revert s. induction links as [|l links IH]; intros s; simpl; [reflexivity|].
  destruct (is_valid_url ok tld cfg l) as [[|]|]; simpl; auto.
  destruct (normalize_url ok l) as [m|]; simpl; auto.
  now rewrite IH.
Qed.

(** the upfront pass makes one request, for the landing page *)
Lemma seed_requests (s : State) :
  requests (fst (seed ok tld w cfg s)) = requests s ++ [(Upfront, base_url cfg)].
Proof.
  unfold seed, get.
  destruct (w (requests s) (base_url cfg)) as [|status page]; simpl; [reflexivity|].
  destruct (negb (status =? 200)%Z); simpl; [reflexivity|].
  pose proof (add_main_page_links_requests (anchors page)
                (log_request Upfront (base_url cfg) s)) as H.
  now destruct (add_main_page_links ok tld cfg (anchors page) _) as [s2 [|]].
Qed.

(** what the steps after the upfront pass preserve *)
Section AfterSeed.

Variable P : State -> Prop.
Hypothesis P_explore :
  forall s u, str_in (subdomain (tld u)) language_prefixes = true ->
              P s -> P (log_request Exploration u s).
Hypothesis P_lang : forall s d, P s -> P (add_language_subdomain d s).
Hypothesis P_process : forall s u, P s -> P (fst (process s u)).

Lemma explore_subdomain_keeps (s : State) (u : string) (q : list string) :
  str_in (subdomain (tld u)) language_prefixes = true ->
  P s -> P (fst (explore_subdomain ok tld w cfg s u q)).
Proof.
  intros Hl H. unfold explore_subdomain, get.
  destruct (w (requests s) u) as [|status page]; simpl; auto.
  destruct (status =? 200)%Z; simpl; auto.
Qed.

Lemma process_priority_keeps (l : list string) (s : State) (q : list string) :
  P s -> P (fst (fst (process_priority ok tld w cfg l s q))).
Proof.
  revert s q. induction l as [|u l IH]; intros s q H; simpl; [exact H|].
  destruct (bool_decide (u ∈ visited_urls s)); [now apply IH|].
  pose proof (P_process s u H) as H1.
  destruct (process s u) as [s1 [r|]]; simpl in *; [|exact H1].
  destruct (urlparse ok u); simpl; [|exact H1].
  destruct (str_in (subdomain (tld u)) language_prefixes) eqn:Hl; [|now apply IH].
  pose proof (explore_subdomain_keeps s1 u q Hl H1) as H2.
  destruct (explore_subdomain ok tld w cfg s1 u q) as [s2 q2]. now apply IH.
Qed.

Lemma crawl_keeps_after_seed (fuel : nat) (s : State) :
  P (fst (seed ok tld w cfg s)) -> P (fst (crawl ok tld w cfg fuel s)).
Proof.
  intros H1. unfold crawl.
  destruct (seed ok tld w cfg s) as [s1 [priority_urls|]]; simpl in H1; [|exact H1].
  pose proof (P_process s1 (base_url cfg) H1) as H2.
  destruct (process s1 (base_url cfg)) as [s2 [r|]]; simpl in H2; [|exact H2].
  pose proof (process_priority_keeps priority_urls s2 [base_url cfg] H2) as H3.
  destruct (process_priority ok tld w cfg priority_urls s2 [base_url cfg])
    as [[s3 q] [|]]; simpl in H3; [|exact H3].
  apply (drain_preserves P); assumption.
Qed.

End AfterSeed.

(** [crawl] makes no second upfront request *)
Lemma crawl_one_upfront (fuel : nat) :
  one_upfront cfg (fst (crawl ok tld w cfg fuel initial_state)).
Proof.
  apply (crawl_keeps_after_seed (one_upfront cfg)).
  - intros s u _ (rest & E & H). exists (rest ++ [(Exploration, u)]).
    simpl. rewrite E. split; [reflexivity|].
    apply Forall_app. split; [exact H|]. now constructor.
  - intros s d H. exact H.
  - intros s u (rest & E & H).
    destruct (process_requests s u) as [R | R]; unfold one_upfront; rewrite R.
    + now exists rest.
    + exists (rest ++ [(Processing, u)]). rewrite E. split; [reflexivity|].
      apply Forall_app. split; [exact H|]. now constructor.
  - exists []. now rewrite seed_requests.
Qed.

(** [crawl] explores the URLs of language subdomains only *)
Lemma crawl_explores_languages (fuel : nat) :
  explores_languages tld (fst (crawl ok tld w cfg fuel initial_state)).
Proof.
  apply (crawl_keeps_after_seed (explores_languages tld)).
  - intros s u Hl H x Hx. simpl in Hx. apply elem_of_app in Hx.
    destruct Hx as [Hx | Hx]; [now apply H|].
    apply list_elem_of_singleton in Hx. now injection Hx as ->.
  - intros s d H. exact H.
  - intros s u H x.
    destruct (process_requests s u) as [R | R]; rewrite R; [apply H|].
    intros Hx. apply elem_of_app in Hx.
    destruct Hx as [Hx | Hx]; [now apply H|].
    apply list_elem_of_singleton in Hx. discriminate.
  - intros x. rewrite seed_requests. simpl. intros Hx.
    apply list_elem_of_singleton in Hx. discriminate.
Qed.

End Crawl.

End ScraperFacts.

(* ===================================================================== *)
(** * Facts about the image downloader *)
(* ===================================================================== *)

Module ImagesFacts.
Import PyStr UrlLib Images.

Section Downloader.

Variable ok : string -> bool.
Variable urljoin : string -> string -> option string.
Variable image_size : list Byte.byte -> option (Z * Z).
Variable md5_hexdigest : list Byte.byte -> string.
Variable str_hash : string -> Z.
Variable w : World.
Variable cfg : Config.

Local Abbreviation download := (_download_image ok image_size str_hash w cfg).
Local Abbreviation download_all := (_download_images ok image_size str_hash w cfg).
Local Abbreviation process :=
  (_process_url ok urljoin image_size str_hash w cfg).

(** ** What a download leaves alone *)

(** [_download_image] makes one request, never sleeps, and touches neither
    the visited pages nor the set of image URLs and hashes *)
Lemma download_frame (s : State) (u : string) :
  visited_urls (download s u) = visited_urls s
  /\ image_urls (download s u) = image_urls s
  /\ priority_pages (download s u) = priority_pages s
  /\ requests (download s u) = requests s ++ [(GET, u)]
  /\ pauses (download s u) = pauses s.
Proof.
  unfold _download_image, request. simpl.
  destruct (w (requests s) GET u) as [|r]; [repeat split; reflexivity|].
  destruct (is_error_status (status_code r)); [repeat split; reflexivity|].
  destruct (negb (startswith "image/" (content_type_of r)));
    [repeat split; reflexivity|].
  destruct (Qlt_bool (file_size_kb r) (inject_Z (min_size_kb cfg)));
    [repeat split; reflexivity|].
  destruct (image_size (content r)) as [[width height]|];
    [|repeat split; reflexivity].
  destruct ((width <? min_width cfg) || (height <? min_height cfg))%Z;
    [repeat split; reflexivity|].
  destruct (urlparse ok u); [|repeat split; reflexivity].
  unfold write_file. now destruct (Os.open_wb _ _).
Qed.

Lemma downloads_visited (l : list string) (s : State) :
  visited_urls (fold_left download l s) = visited_urls s.
Proof.
  revert s. induction l as [|u l IH]; intros s; simpl; [done|].
  rewrite IH. apply download_frame.
Qed.

Lemma download_all_visited (s : State) :
  visited_urls (download_all s) = visited_urls s.
Proof. unfold _download_images. simpl. apply downloads_visited. Qed.

Lemma scan_imgs_visited (u : string) (l : list Img) (s : State) :
  visited_urls (fst (scan_imgs urljoin u l s)) = visited_urls s.
Proof.
  revert s. induction l as [|img l IH]; intros s; simpl; [done|].
  destruct (truthy (img_src img)) as [img_url|]; [|apply IH].
  destruct (small_icon img) as [[|]|]; [apply IH | | done].
  destruct (contains_any decoration_patterns (lower img_url)); [apply IH|].
  destruct (urljoin u img_url) as [a|]; [|done].
  destruct (truthy (img_data_src img)) as [d|]; [|now rewrite IH].
  destruct (urljoin u d) as [b|]; [|done]. now rewrite IH.
Qed.

Lemma scan_styled_visited (u : string) (l : list Styled) (s : State) :
  visited_urls (fst (scan_styled urljoin u l s)) = visited_urls s.
Proof.
  revert s. induction l as [|e l IH]; intros s; simpl; [done|].
  destruct (contains "background-image" (style_text e)); [|apply IH].
  destruct (style_bg_url e) as [bg|]; [|apply IH].
  destruct (urljoin u bg) as [a|]; [|done]. now rewrite IH.
Qed.

(** ** The qualification of an image *)




(** ** [download_image], the download with hash check and retries *)

Lemma get_image_info_frame (s : State) (u : string) :
  let s' := fst (get_image_info image_size w cfg s u) in
  writes s' = writes s /\ image_urls s' = image_urls s /\ pauses s' = pauses s.
Proof.
  unfold get_image_info, request. cbn [fst snd].
  destruct (w (requests s) HEAD u) as [|hr]; [now repeat split|].
  destruct (negb (startswith "image/" (content_type_of hr))); [now repeat split|].
  destruct (content_length hr) as [[len|]|]; try (now repeat split).
  - destruct ((len >? 0) && (len <? min_size_kb cfg * 1024))%Z; [now repeat split|].
    destruct (w _ GET u) as [|r]; [now repeat split|].
    destruct (size_bytes_of r <? min_size_kb cfg * 1024)%Z; [now repeat split|].
    destruct (image_size (content r)) as [[wd ht]|]; [|now repeat split].
    now destruct ((wd <? min_width cfg) || (ht <? min_height cfg))%Z.
  - destruct ((0 >? 0) && (0 <? min_size_kb cfg * 1024))%Z; [now repeat split|].
    destruct (w _ GET u) as [|r]; [now repeat split|].
    destruct (size_bytes_of r <? min_size_kb cfg * 1024)%Z; [now repeat split|].
    destruct (image_size (content r)) as [[wd ht]|]; [|now repeat split].
    now destruct ((wd <? min_width cfg) || (ht <? min_height cfg))%Z.
Qed.

(** [download_image] writes at most one file, and none whose digest is on
    record; the digest of what it writes goes on record; its sleeps are
    waits that double from 1 second on, fewer than there are attempts *)
Lemma download_attempts_sound (max_retries : Z) (remaining : nat) (attempt : Z)
    (s : State) (u : string) :
  (max_retries - attempt <= Z.of_nat remaining)%Z ->
  let s' := fst (download_attempts ok urljoin image_size md5_hexdigest w cfg
                   max_retries remaining attempt s u) in
  image_urls s ⊆ image_urls s'
  /\ (writes s' = writes s
      \/ exists path data,
           writes s' = writes s ++ [(path, data)]
           /\ (md5_hexdigest data ∉ image_urls s)
           /\ (md5_hexdigest data ∈ image_urls s'))
  /\ exists k, pauses s' = pauses s ++ Terms.doubling_waits attempt k
               /\ (k = 0%nat \/ (k < remaining)%nat).
Proof.
  revert attempt s u.
  induction remaining as [|remaining IH]; intros attempt s u Hrem.
  - simpl. split; [done|]. split; [now left|]. exists 0%nat.
    unfold Terms.doubling_waits. simpl. rewrite app_nil_r. auto.
  - cbn [download_attempts].
    assert (Hstop : forall st : State,
              image_urls st = image_urls s -> writes st = writes s ->
              pauses st = pauses s ->
              image_urls s ⊆ image_urls st
              /\ (writes st = writes s
                  \/ exists path data,
                       writes st = writes s ++ [(path, data)]
                       /\ (md5_hexdigest data ∉ image_urls s)
                       /\ (md5_hexdigest data ∈ image_urls st))
              /\ exists k, pauses st = pauses s ++ Terms.doubling_waits attempt k
                           /\ (k = 0%nat \/ (k < S remaining)%nat)).
    { intros st Hi Hw Hp. split; [now rewrite Hi|]. split; [now left|].
      exists 0%nat. unfold Terms.doubling_waits. simpl. rewrite app_nil_r. auto. }
    destruct (urljoin (base_url cfg) u) as [u1|]; [|now apply Hstop].
    pose proof (get_image_info_frame s u1) as (Hw1 & Hi1 & Hp1).
    destruct (get_image_info image_size w cfg s u1) as [s1 info]. cbn [fst] in *.
    destruct (negb (is_valid info)); [now apply Hstop|].
    unfold request. cbn [fst snd].
    set (s2 := mkState _ _ _ _ _ _ _ _).
    assert (Hw2 : writes s2 = writes s) by exact Hw1.
    assert (Hi2 : image_urls s2 = image_urls s) by exact Hi1.
    assert (Hp2 : pauses s2 = pauses s) by exact Hp1.
    destruct (w (requests s1) GET u1) as [|r].
    + destruct (attempt <? max_retries - 1)%Z eqn:Hmore; [|now apply Hstop].
      apply Z.ltb_lt in Hmore.
      destruct (IH (attempt + 1)%Z (sleep (Backoff (2 ^ attempt)) s2) u1)
        as (Ha & Hb & k & Hk & Hlt); [lia|].
      cbn [image_urls writes pauses sleep] in Ha, Hb, Hk.
      rewrite Hi2 in Ha. rewrite Hw2 in Hb. rewrite Hp2 in Hk.
      split; [exact Ha|]. split.
      * destruct Hb as [Hb | (path & data & Hb & Hn & Hm)]; [now left|].
        right. exists path, data. rewrite Hi2 in Hn. now repeat split.
      * exists (S k). split; [|lia].
        rewrite Hk, <- app_assoc. f_equal.
        unfold Terms.doubling_waits. simpl. rewrite Z.add_0_r. f_equal.
        rewrite <- seq_shift, map_map. apply map_ext. intros i.
        do 2 f_equal. lia.
    + destruct (bool_decide (md5_hexdigest (content r) ∈ image_urls s2)) eqn:Hin;
        [now apply Hstop|].
      apply bool_decide_eq_false_1 in Hin. rewrite Hi2 in Hin.
      destruct (urlparse ok u1) as [p|]; cbn [fst];
        [unfold write_file; destruct (Os.open_wb _ _); cbn [fst]|].
      * cbn [image_urls writes pauses set_image_urls set_downloaded_count store_file].
        rewrite Hi2, Hw2, Hp2.
        split; [set_solver|]. split.
        -- right. eexists _, _. split; [reflexivity|]. split; [exact Hin | set_solver].
        -- exists 0%nat. unfold Terms.doubling_waits. simpl. rewrite app_nil_r. auto.
      * cbn [image_urls writes pauses set_image_urls].
        rewrite Hi2, Hw2, Hp2.
        split; [set_solver|]. split; [now left|].
        exists 0%nat. unfold Terms.doubling_waits. simpl. rewrite app_nil_r. auto.
      * cbn [image_urls writes pauses set_image_urls].
        rewrite Hi2, Hw2, Hp2.
        split; [set_solver|]. split; [now left|].
        exists 0%nat. unfold Terms.doubling_waits. simpl. rewrite app_nil_r. auto.
Qed.

(** the sleeps of [download_image]: 1, 2, 4, ... seconds, one fewer than
    [max_retries] at most *)
Lemma download_image_backoff (max_retries : Z) (s : State) (u : string) :
  exists k,
    pauses (fst (download_image ok urljoin image_size md5_hexdigest w cfg
                   max_retries s u))
    = pauses s ++ Terms.doubling_waits 0 k
    /\ (k = 0%nat \/ (k < Z.to_nat max_retries)%nat).
Proof.
  unfold download_image.
  destruct (download_attempts_sound max_retries (Z.to_nat max_retries) 0 s u)
    as (_ & _ & k & Hk & Hlt); [lia|].
  now exists k.
Qed.

(** so no two files that [download_image] writes have the same digest *)
Lemma download_image_keeps_distinct (max_retries : Z) (s : State) (u : string) :
  Terms.hashes_distinct md5_hexdigest s ->
  Terms.hashes_distinct md5_hexdigest
    (fst (download_image ok urljoin image_size md5_hexdigest w cfg max_retries s u)).
Proof.
  intros [Hnd Hrec]. unfold download_image.
  destruct (download_attempts_sound max_retries (Z.to_nat max_retries) 0 s u)
    as (Hsub & Hw & _); [lia|].
  set (s' := fst (download_attempts _ _ _ _ _ _ _ _ _ _ _)) in *.
  destruct Hw as [Hw | (path & data & Hw & Hnew & Hin)].
  - split; rewrite Hw; [exact Hnd|]. intros f Hf. apply Hsub. now apply Hrec.
  - split; rewrite Hw.
    + rewrite map_app. simpl. apply NoDup_app. split; [exact Hnd|]. split.
      * intros x Hx Hx'. apply list_elem_of_singleton in Hx'.
        apply list_elem_of_fmap in Hx. destruct Hx as (f & Hxf & Hf).
        apply Hnew. rewrite <- Hx', Hxf. now apply Hrec.
      * apply NoDup_singleton.
    + intros f Hf. apply elem_of_app in Hf. destruct Hf as [Hf|Hf].
      * apply Hsub. now apply Hrec.
      * apply list_elem_of_singleton in Hf. now subst f.
Qed.

(** ** The page cap *)

Local Abbreviation within_cap := (Terms.within_cap cfg).
Local Abbreviation pages_left := (Terms.pages_left cfg).

Section Links.

(** the recursive call made for a followed link, with what is known
    about it *)
Variable rec : State -> string -> option State.
Variable Q : gset string -> Prop.
Hypothesis rec_grows : forall st u st',
  rec st u = Some st' -> visited_urls st ⊆ visited_urls st'.
Hypothesis rec_keeps : forall st u st',
  rec st u = Some st' -> Q (visited_urls st) -> Q (visited_urls st').

Lemma follow_links_sound (u : string) (l : list Link) (s s' : State) :
  follow_links ok urljoin rec cfg u l s = Some s' ->
  visited_urls s ⊆ visited_urls s'
  /\ (Q (visited_urls s) -> Q (visited_urls s')).
Proof.
  revert s. induction l as [|link l IH]; intros s; simpl.
  - intros E. injection E as <-. done.
  - destruct (truthy (href link)) as [h|]; [|apply IH].
    destruct (is_priority_link priority_keywords link h); [|apply IH].
    destruct (urljoin u h) as [a|]; [|intros E; injection E as <-; done].
    destruct (urlparse ok a) as [p|]; [|intros E; injection E as <-; done].
    destruct (_ && _); [|apply IH].
    destruct (rec (sleep Delay s) a) as [st|] eqn:R; simpl; [|discriminate].
    intros E. destruct (IH _ E) as [H1 H2].
    pose proof (rec_grows _ _ _ R) as G. pose proof (rec_keeps _ _ _ R) as K.
    simpl in G, K. split; [set_solver | auto].
Qed.

Lemma scan_page_sound (u : string) (pr : bool) (page : Page) (s s' : State) :
  scan_page ok urljoin rec cfg u pr page s = Some s' ->
  visited_urls s ⊆ visited_urls s'
  /\ (Q (visited_urls s) -> Q (visited_urls s')).
Proof.
  unfold scan_page.
  pose proof (scan_imgs_visited u (imgs page) s) as H1.
  destruct (scan_imgs urljoin u (imgs page) s) as [s2 [|]]; simpl in H1.
  - pose proof (scan_styled_visited u (styled page) s2) as H2.
    destruct (scan_styled urljoin u (styled page) s2) as [s3 [|]]; simpl in H2.
    + destruct pr.
      * intros E. apply follow_links_sound in E. rewrite H2, H1 in E. exact E.
      * intros E. injection E as <-. now rewrite H2, H1.
    + intros E. injection E as <-. now rewrite H2, H1.
  - intros E. injection E as <-. now rewrite H1.
Qed.

End Links.

(** [_process_url] only adds to the visited set, and keeps it within the
    page cap *)
Lemma process_sound (fuel : nat) (s s' : State) (u : string) (pr : bool) :
  process fuel s u pr = Some s' ->
  visited_urls s ⊆ visited_urls s' /\ (within_cap s -> within_cap s').
Proof.
  revert s s' u pr. induction fuel as [|fuel IH]; intros s s' u pr.
  - simpl. destruct (_ >=? _)%Z; [intros E; injection E as <-; done|].
    destruct (bool_decide _); [intros E; injection E as <-; done | discriminate].
  - cbn [_process_url].
    destruct (Z.of_nat (size (visited_urls s)) >=? max_pages cfg)%Z eqn:Hcap;
      [intros E; injection E as <-; done|].
    destruct (bool_decide (u ∈ visited_urls s)) eqn:Hin;
      [intros E; injection E as <-; done|].
    apply bool_decide_eq_false_1 in Hin.
    unfold request. cbn [fst snd].
    set (s0 := set_visited ({[u]} ∪ visited_urls s) s).
    set (s1 := mkState _ _ _ _ _ _ _ _).
    assert (Hs1 : visited_urls s1 = {[u]} ∪ visited_urls s) by reflexivity.
    assert (Hcap1 : within_cap s1).
    { unfold Terms.within_cap. rewrite Hs1, size_union by set_solver.
      rewrite size_singleton. lia. }
    intros E.
    assert (Hgoal : forall after, visited_urls s1 ⊆ visited_urls after ->
              (within_cap s1 -> within_cap after) ->
              Some (download_all after) = Some s' ->
              visited_urls s ⊆ visited_urls s' /\ (within_cap s -> within_cap s')).
    { intros after G K E'. injection E' as <-.
      unfold Terms.within_cap in *. rewrite download_all_visited.
      split; [set_solver | auto]. }
    destruct (w (requests s0) GET u) as [|r]; simpl in E.
    + now apply (Hgoal s1).
    + destruct (is_error_status (status_code r)); simpl in E;
        [now apply (Hgoal s1)|].
      destruct (scan_page ok urljoin _ cfg u pr (html r) s1) as [after|] eqn:S;
        simpl in E; [|discriminate].
      apply (scan_page_sound _
               (fun v => (Z.of_nat (size v) <= Z.max 0 (max_pages cfg))%Z)) in S.
      * destruct S as [G K]. now apply (Hgoal after).
      * intros st a st' R. now apply (IH _ _ _ _ R).
      * intros st a st' R. now apply (IH _ _ _ _ R).
Qed.

(** ** Enough fuel *)

Lemma pages_left_mono (s s' : State) :
  visited_urls s ⊆ visited_urls s' -> (pages_left s' <= pages_left s)%nat.
Proof.
  intros H. apply subseteq_size in H. unfold Terms.pages_left. lia.
Qed.

Section LinksTotal.

Variable rec : State -> string -> option State.
Variable fuel : nat.
Hypothesis rec_grows : forall st u st',
  rec st u = Some st' -> visited_urls st ⊆ visited_urls st'.
Hypothesis rec_total : forall st u,
  (pages_left st <= fuel)%nat -> is_Some (rec st u).

Lemma follow_links_total (u : string) (l : list Link) (s : State) :
  (pages_left s <= fuel)%nat ->
  is_Some (follow_links ok urljoin rec cfg u l s).
Proof.
  revert s. induction l as [|link l IH]; intros s H; simpl; [done|].
  destruct (truthy (href link)) as [h|]; [|now apply IH].
  destruct (is_priority_link priority_keywords link h); [|now apply IH].
  destruct (urljoin u h) as [a|]; [|done].
  destruct (urlparse ok a) as [p|]; [|done].
  destruct (_ && _); [|now apply IH].
  destruct (rec_total (sleep Delay s) a H) as [st R]. rewrite R. simpl.
  apply IH. pose proof (pages_left_mono _ _ (rec_grows _ _ _ R)) as M.
  unfold Terms.pages_left in *. simpl in M. lia.
Qed.

Lemma scan_page_total (u : string) (pr : bool) (page : Page) (s : State) :
  (pages_left s <= fuel)%nat ->
  is_Some (scan_page ok urljoin rec cfg u pr page s).
Proof.
  intros H. unfold scan_page.
  pose proof (scan_imgs_visited u (imgs page) s) as H1.
  destruct (scan_imgs urljoin u (imgs page) s) as [s2 [|]]; simpl in H1; [|done].
  pose proof (scan_styled_visited u (styled page) s2) as H2.
  destruct (scan_styled urljoin u (styled page) s2) as [s3 [|]]; simpl in H2;
    [|done].
  destruct pr; [|done]. apply follow_links_total.
  unfold Terms.pages_left in *. now rewrite H2, H1.
Qed.

End LinksTotal.

(** one unit of fuel for every page that may still be visited is enough
    for [_process_url] to return *)
Lemma process_total (fuel : nat) (s : State) (u : string) (pr : bool) :
  (pages_left s <= fuel)%nat -> is_Some (process fuel s u pr).
Proof.
  revert s u pr. induction fuel as [|fuel IH]; intros s u pr H.
  - simpl. unfold Terms.pages_left in H.
    destruct (_ >=? _)%Z eqn:E; [done | lia].
  - cbn [_process_url].
    destruct (Z.of_nat (size (visited_urls s)) >=? max_pages cfg)%Z eqn:Hcap;
      [done|].
    destruct (bool_decide (u ∈ visited_urls s)) eqn:Hin; [done|].
    apply bool_decide_eq_false_1 in Hin.
    unfold request. cbn [fst snd].
    set (s0 := set_visited ({[u]} ∪ visited_urls s) s).
    set (s1 := mkState _ _ _ _ _ _ _ _).
    assert (Hs1 : visited_urls s1 = {[u]} ∪ visited_urls s) by reflexivity.
    assert (Hleft : (pages_left s1 <= fuel)%nat).
    { unfold Terms.pages_left in *. rewrite Hs1, size_union by set_solver.
      rewrite size_singleton. lia. }
    destruct (w (requests s0) GET u) as [|r]; simpl; [done|].
    destruct (is_error_status (status_code r)); simpl; [done|].
    destruct (scan_page_total
                (fun st a => process fuel st a true) fuel
                (fun st a st' R => proj1 (process_sound fuel st st' a true R))
                (fun st a Hst => IH st a true Hst)
                u pr (html r) s1 Hleft) as [after ->].
    done.
Qed.

(** ** [crawl] *)

Lemma scan_priority_visited (u : string) (l : list Link) (s : State) :
  visited_urls (scan_priority ok urljoin cfg u l s) = visited_urls s.
Proof.
  revert s. induction l as [|link l IH]; intros s; simpl; [done|].
  destruct (truthy (href link)) as [h|]; [|apply IH].
  destruct (is_priority_link landing_keywords link h); [|apply IH].
  destruct (urljoin u h) as [a|]; [|done].
  destruct (urlparse ok a) as [p|]; [|done].
  destruct (String.eqb _ _); [now rewrite IH | apply IH].
Qed.

Lemma identify_visited (s : State) (u : string) :
  visited_urls (_identify_priority_pages ok urljoin w cfg s u) = visited_urls s.
Proof.
  unfold _identify_priority_pages, request. cbn [fst snd].
  destruct (w (requests s) GET u) as [|r]; [done|].
  destruct (is_error_status (status_code r)); [done|].
  now rewrite scan_priority_visited.
Qed.

Lemma process_priority_pages_ok (fuel : nat) (l : list string) (s : State) :
  (pages_left s <= fuel)%nat -> within_cap s ->
  exists s', process_priority_pages ok urljoin image_size str_hash w cfg fuel l s
             = Some s'
             /\ within_cap s'.
Proof.
  revert s. induction l as [|u l IH]; intros s Hl Hc; simpl; [now exists s|].
  destruct (_ && _); [|now apply IH].
  destruct (process_total fuel s u true Hl) as [s1 R]. rewrite R. simpl.
  destruct (process_sound _ _ _ _ _ R) as [G K].
  apply IH; [|now apply K].
  pose proof (pages_left_mono _ _ G). lia.
Qed.

(** with one unit of fuel for every page of the cap, [crawl] returns, and
    the visited set it leaves is within the page cap *)
Lemma crawl_within_cap (fuel : nat) (s : State) :
  (Z.to_nat (max_pages cfg) <= fuel)%nat ->
  exists s', crawl ok urljoin image_size str_hash w cfg fuel s = Some s'
             /\ within_cap s'.
Proof.
  intros Hf. unfold crawl.
  set (s0 := set_downloaded_count 0 _).
  set (s1 := _identify_priority_pages ok urljoin w cfg s0 (base_url cfg)).
  assert (H1 : visited_urls s1 = ∅) by (unfold s1; now rewrite identify_visited).
  assert (Hl : (pages_left s1 <= fuel)%nat).
  { unfold Terms.pages_left. rewrite H1, size_empty. lia. }
  assert (Hc : within_cap s1).
  { unfold Terms.within_cap. rewrite H1, size_empty. lia. }
  destruct (process_total fuel s1 (base_url cfg) true Hl) as [s2 R].
  rewrite R. simpl.
  destruct (process_sound _ _ _ _ _ R) as [G K].
  apply process_priority_pages_ok; [|now apply K].
  pose proof (pages_left_mono _ _ G). lia.
Qed.

End Downloader.

End ImagesFacts.

(* ===================================================================== *)
(** * The properties of the specification *)
(* ===================================================================== *)

Import PyStr UrlLib Terms Demo.

(** ** Image deduplication *)

(** C1: two image URLs of one page serve the same bytes and both
    qualify.  The crawl of the image pipeline writes both: two files
    with the same content, a count of two, and no content hash on
    record. *)
Theorem pipeline_stores_same_bytes_twice :
  outcome <$> Images.crawl any_host_ok absolute_urljoin full_size zero_hash
                gallery downloader 20 Images.initial_state
  = Some {| files_written := [photo; photo];
            files_on_disk := 2;
            images_counted := 2;
            hashes_recorded := [] |}.
Proof. vm_compute. reflexivity. Qed.

(** [download_image], which no caller uses, stores the first of the two
    and skips the second by its hash *)
Example download_image_skips_same_bytes :
  let run := Images.download_image any_host_ok absolute_urljoin full_size
               length_digest gallery downloader 3 in
  let first := run Images.initial_state photo_a in
  let second := run (fst first) photo_b in
  snd first = Some true /\ snd second = Some false
  /\ outcome (fst second)
     = {| files_written := [photo]; files_on_disk := 1; images_counted := 1;
          hashes_recorded := [length_digest photo] |}.
Proof. repeat split; vm_compute; reflexivity. Qed.

(** ** The page cap *)

(** C2 (counterexample): the text crawler started from options with a
    page cap of 3, on a site whose landing page links ten pages, runs to
    the end of its work list and returns a mapping of eleven entries. *)
Lemma text_crawl_ignores_page_cap :
  let run := Pipeline.text_crawl any_host_ok two_label_extract
               (site ten_links []) landing (Pipeline.mkOptions 5 800 600 50 3) 100 in
  snd run = Scraper.Finished
  /\ size (Scraper.markdown_content (fst run)) = 11%nat
  /\ size (Scraper.visited_urls (fst run)) = 11%nat.
Proof. repeat split; vm_compute; reflexivity. Qed.

(** C2 (amended): the page cap bounds the image crawler: with a unit of
    fuel for each page of the cap its crawl returns, and the visited set
    it leaves has at most as many entries as the cap.  The text crawl
    takes only the booking limit from the options of the pipeline, so
    the page cap does not change it. *)
Theorem page_cap_bounds_image_crawl
    (ok : string -> bool) (tld : string -> Scraper.ExtractResult)
    (urljoin : string -> string -> option string)
    (image_size : list Byte.byte -> option (Z * Z)) (str_hash : string -> Z)
    (w : Images.World) (cfg : Images.Config) (fuel : nat) (s : Images.State)
    (tw : Scraper.World) (url : string) (o o' : Pipeline.Options) (tfuel : nat) :
  (Z.to_nat (Images.max_pages cfg) <= fuel)%nat ->
  Pipeline.max_booking_urls o = Pipeline.max_booking_urls o' ->
  (exists s', Images.crawl ok urljoin image_size str_hash w cfg fuel s = Some s'
              /\ within_cap cfg s')
  /\ Pipeline.text_crawl ok tld tw url o tfuel
     = Pipeline.text_crawl ok tld tw url o' tfuel.
Proof.
  intros Hf Hb. split.
  - now apply ImagesFacts.crawl_within_cap.
  - unfold Pipeline.text_crawl. now rewrite Hb.
Qed.

Lemma page_cap_bounds_image_crawl_witness :
  (exists s', Images.crawl any_host_ok absolute_urljoin full_size zero_hash
                gallery downloader 20 Images.initial_state = Some s'
              /\ within_cap downloader s')
  /\ Pipeline.text_crawl any_host_ok two_label_extract (site ten_links []) landing
       (Pipeline.mkOptions 5 800 600 50 3) 100
     = Pipeline.text_crawl any_host_ok two_label_extract (site ten_links []) landing
         (Pipeline.mkOptions 5 800 600 50 20) 100.
Proof.
  apply (page_cap_bounds_image_crawl any_host_ok two_label_extract absolute_urljoin
           full_size zero_hash gallery downloader 20 Images.initial_state
           (site ten_links []) landing
           (Pipeline.mkOptions 5 800 600 50 3) (Pipeline.mkOptions 5 800 600 50 20) 100).
  - vm_compute. lia.
  - reflexivity.
Defined.

(** ** At-most-once visitation *)

(** C3 (counterexample): in a crawl of a site of one page the landing
    page is fetched twice: once upfront by [crawl], once more by
    [_process_url]. *)
Lemma landing_page_is_fetched_twice :
  let run := Scraper.crawl any_host_ok two_label_extract (site [] []) (scraper 5)
               100 Scraper.initial_state in
  snd run = Scraper.Finished
  /\ Scraper.requests (fst run)
     = [(Scraper.Upfront, landing); (Scraper.Processing, landing)]
  /\ fetch_count any_host_ok landing (Scraper.requests (fst run)) = 2%nat.
Proof. repeat split; vm_compute; reflexivity. Qed.

(** so is the page of a priority URL on a language subdomain: once by
    [_process_url], once more by the exploration that follows it *)
Example language_page_is_fetched_twice :
  let run := Scraper.crawl any_host_ok two_label_extract language_site (scraper 5)
               100 Scraper.initial_state in
  snd run = Scraper.Finished
  /\ Scraper.requests (fst run)
     = [(Scraper.Upfront, landing); (Scraper.Processing, landing);
        (Scraper.Processing, english); (Scraper.Exploration, english)]
  /\ fetch_count any_host_ok english (Scraper.requests (fst run)) = 2%nat.
Proof. repeat split; vm_compute; reflexivity. Qed.

(** C3 (amended): however the offers of targets with one normalised URL
    are spread over a run of offers, the frontier yields that URL at most
    once and the offers fetch its page at most once; the visited set only
    grows, over a run of offers and over a whole crawl.  In a whole crawl
    [_process_url] fetches the page of a normalised URL at most once; the
    crawl fetches it besides once upfront when it is the landing page,
    and once for every exploration of it, which is made for URLs on a
    language subdomain only. *)
Theorem at_most_once_visitation
    (ok : string -> bool) (tld : string -> Scraper.ExtractResult)
    (w : Scraper.World) (cfg : Scraper.Config) (s : Scraper.State)
    (n : string) (urls : list string) :
  (yield_count ok tld w cfg n s urls <= 1)%nat
  /\ (fetch_count ok n (Scraper.requests (offer_all ok tld w cfg s urls))
      <= fetch_count ok n (Scraper.requests s) + 1)%nat
  /\ Scraper.visited_urls s ⊆ Scraper.visited_urls (offer_all ok tld w cfg s urls)
  /\ forall fuel,
       let log := Scraper.requests
                    (fst (Scraper.crawl ok tld w cfg fuel Scraper.initial_state)) in
       (frontier_fetch_count ok n log <= 1)%nat
       /\ fetch_count ok n log
          = (frontier_fetch_count ok n log
             + (if has_normal_form ok n (Scraper.base_url cfg) then 1 else 0)
             + exploration_count ok n log)%nat
       /\ (forall u, (Scraper.Exploration, u) ∈ log ->
             str_in (Scraper.subdomain (tld u)) Scraper.language_prefixes = true)
       /\ Scraper.visited_urls s
          ⊆ Scraper.visited_urls (fst (Scraper.crawl ok tld w cfg fuel s)).
Proof.
  destruct (ScraperFacts.at_most_once ok tld w cfg n urls s) as [H1 _].
  split; [exact H1|]. split; [apply ScraperFacts.offers_fetch_once|].
  split; [apply ScraperFacts.offer_all_visited|].
  intros fuel log. subst log. split; [|split; [|split]].
  - assert (H0 : fetched_once ok Scraper.initial_state).
    { intros m. unfold frontier_fetch_count. simpl. lia. }
    pose proof (ScraperFacts.crawl_fetched_once ok tld w cfg fuel _ H0 n) as H.
    destruct (bool_decide _) in H; lia.
  - apply ScraperFacts.fetch_count_one_upfront.
    apply ScraperFacts.crawl_one_upfront.
  - apply ScraperFacts.crawl_explores_languages.
  - apply ScraperFacts.crawl_visited.
Qed.

(** three offers of one page under different spellings: one yield, one
    request *)
Example three_offers_one_fetch :
  let urls := ["https://www.hotel.com/rooms/"; "https://www.hotel.com/rooms#top";
               "https://www.hotel.com/rooms"] in
  yield_count any_host_ok two_label_extract (site [] []) (scraper 5)
    "https://www.hotel.com/rooms" Scraper.initial_state urls = 1%nat
  /\ Scraper.requests
       (offer_all any_host_ok two_label_extract (site [] []) (scraper 5)
          Scraper.initial_state urls)
     = [(Scraper.Processing, "https://www.hotel.com/rooms/")].
Proof. split; vm_compute; reflexivity. Qed.

(** ** The booking throttle *)

(** C4 (counterexample): with a limit of one booking URL, a crawl of a
    site that links two booking engines crawls both and leaves the
    counter at two. *)
Lemma booking_count_exceeds_max :
  let run := Scraper.crawl any_host_ok two_label_extract (site [] two_engines)
               (scraper 1) 100 Scraper.initial_state in
  Scraper.max_booking_urls (scraper 1) = 1%Z
  /\ Scraper.booking_urls_crawled (fst run) = 2%Z
  /\ Scraper.requests (fst run)
     = [(Scraper.Upfront, landing); (Scraper.Processing, landing);
        (Scraper.Processing, "https://booking.hotel.com/rooms");
        (Scraper.Processing, "https://reserve.hotel.com/rooms")].
Proof. repeat split; vm_compute; reflexivity. Qed.

(** C4 (amended): all through a crawl the booking counter is at most the
    limit plus the number of booking domains seen.  A booking target on
    a domain seen before is dropped without a request, marked visited,
    once the counter has reached the limit; a booking target on a new
    domain is admitted whatever the counter: its domain joins the seen
    set, the counter goes up by one, and its page is requested, all in
    the same call. *)
Theorem booking_throttle
    (ok : string -> bool) (tld : string -> Scraper.ExtractResult)
    (w : Scraper.World) (cfg : Scraper.Config) :
  (forall fuel,
     booking_bound cfg (fst (Scraper.crawl ok tld w cfg fuel Scraper.initial_state)))
  /\ (forall s u n p,
        Scraper.normalize_url ok u = Some n -> n ∉ Scraper.visited_urls s ->
        Scraper.is_booking_url ok u = Some true -> urlparse ok u = Some p ->
        netloc p ∈ Scraper.booking_domains_seen s ->
        (Scraper.booking_urls_crawled s >= Scraper.max_booking_urls cfg)%Z ->
        Scraper._process_url ok tld w cfg s u = (Scraper.mark_visited n s, Some []))
  /\ (forall s u n p,
        Scraper.normalize_url ok u = Some n -> n ∉ Scraper.visited_urls s ->
        Scraper.is_booking_url ok u = Some true -> urlparse ok u = Some p ->
        netloc p ∉ Scraper.booking_domains_seen s ->
        let s' := fst (Scraper._process_url ok tld w cfg s u) in
        Scraper.booking_domains_seen s'
        = {[ netloc p ]} ∪ Scraper.booking_domains_seen s
        /\ Scraper.booking_urls_crawled s' = (Scraper.booking_urls_crawled s + 1)%Z
        /\ Scraper.requests s'
           = Scraper.requests s ++ [(Scraper.Processing, u)]).
Proof.
  split; [|split].
  - intros fuel. apply ScraperFacts.crawl_booking_bound.
    unfold booking_bound, Scraper.initial_state.
    cbn [Scraper.booking_urls_crawled Scraper.booking_domains_seen].
    rewrite size_empty. lia.
  - intros s u n p. apply ScraperFacts.process_seen_dropped.
  - intros s u n p. apply ScraperFacts.process_new_admitted.
Qed.

Lemma booking_throttle_witness :
  let process := Scraper._process_url any_host_ok two_label_extract
                   (site [] two_engines) (scraper 1) in
  let s1 := fst (process Scraper.initial_state "https://booking.hotel.com/rooms") in
  booking_bound (scraper 1)
    (fst (Scraper.crawl any_host_ok two_label_extract (site [] two_engines)
            (scraper 1) 100 Scraper.initial_state))
  /\ process s1 "https://booking.hotel.com/suites"
     = (Scraper.mark_visited "https://booking.hotel.com/suites" s1, Some [])
  /\ Scraper.booking_urls_crawled s1 = 1%Z.
Proof.
  destruct (booking_throttle any_host_ok two_label_extract (site [] two_engines)
              (scraper 1)) as (H1 & H2 & H3).
  split; [apply H1 | split].
  - apply (H2 _ _ _ (mkParse "https" "booking.hotel.com" "/suites" "" "" "")).
    + vm_compute. reflexivity.
    + apply (bool_decide_unpack _). vm_compute. exact I.
    + vm_compute. reflexivity.
    + vm_compute. reflexivity.
    + apply (bool_decide_unpack _). vm_compute. exact I.
    + vm_compute. discriminate.
  - apply (H3 Scraper.initial_state "https://booking.hotel.com/rooms"
             "https://booking.hotel.com/rooms"
             (mkParse "https" "booking.hotel.com" "/rooms" "" "" "")).
    + vm_compute. reflexivity.
    + apply (bool_decide_unpack _). vm_compute. exact I.
    + vm_compute. reflexivity.
    + vm_compute. reflexivity.
    + apply (bool_decide_unpack _). vm_compute. exact I.
Defined.

(** ** Image qualification *)



(** a photo at the thresholds whose URL ends in [..]: it qualifies, but
    the name made of its URL is that of a directory, [open] raises, and
    nothing is written or counted; so it is on a disk that opens no file *)
Example qualified_image_that_cannot_be_saved :
  Images.is_valid
    (snd (Images.get_image_info full_size photo_everywhere downloader
            Images.initial_state photo_up)) = true
  /\ opens_after_get photo_everywhere Images.initial_state photo_up
       "MCP/data/images/hotel/.." = false
  /\ outcome (Images._download_image any_host_ok full_size zero_hash
                photo_everywhere downloader Images.initial_state photo_up)
     = {| files_written := []; files_on_disk := 0; images_counted := 0;
          hashes_recorded := [] |}
  /\ outcome <$> Images.crawl any_host_ok absolute_urljoin full_size zero_hash
                   gallery_locked downloader 20 Images.initial_state
     = Some {| files_written := []; files_on_disk := 0; images_counted := 0;
               hashes_recorded := [] |}.
Proof. repeat split; vm_compute; reflexivity. Qed.

(** ** URL normalisation *)

(** C6 (counterexample): a URL that ends in a bare question mark and the
    same URL with a trailing slash have different normal forms. *)
Lemma trailing_slash_after_empty_query :
  differ_by_trailing_slash "http://hotel.com/rooms?" "http://hotel.com/rooms?/"
  /\ Scraper.normalize_url any_host_ok "http://hotel.com/rooms?"
     = Some "http://hotel.com/rooms"
  /\ Scraper.normalize_url any_host_ok "http://hotel.com/rooms?/"
     = Some "http://hotel.com/rooms?".
Proof. split; [left; reflexivity | split; vm_compute; reflexivity]. Qed.

(** so have a URL whose last path segment carries parameters and the same
    URL with a trailing slash *)
Example trailing_slash_after_path_parameters :
  Scraper.normalize_url any_host_ok "http://hotel.com/rooms;v=1"
  = Some "http://hotel.com/rooms"
  /\ Scraper.normalize_url any_host_ok "http://hotel.com/rooms;v=1/"
     = Some "http://hotel.com/rooms;v=1".
Proof. split; vm_compute; reflexivity. Qed.

(** and two URLs with a query whose paths differ by the trailing slash *)
Example trailing_slash_before_query :
  Scraper.normalize_url any_host_ok "http://hotel.com/rooms?page=2"
  = Some "http://hotel.com/rooms?page=2"
  /\ Scraper.normalize_url any_host_ok "http://hotel.com/rooms/?page=2"
     = Some "http://hotel.com/rooms/?page=2".
Proof. split; vm_compute; reflexivity. Qed.

(** C6 (amended): two URLs that differ only by a fragment have the same
    normal form; so have two URLs that differ only by a trailing slash,
    when the URL without the slash has a fragment or has neither a query
    nor path parameters. *)
Theorem normalize_fragment_and_slash (ok : string -> bool) (u1 u2 : string) :
  differ_by_fragment u1 u2
  \/ (differ_by_trailing_slash u1 u2
      /\ slash_in_path_or_fragment u1 /\ slash_in_path_or_fragment u2) ->
  Scraper.normalize_url ok u1 = Scraper.normalize_url ok u2.
Proof.
  intros [H | [[-> | ->] [H1 H2]]].
  - rewrite (NormalizeFacts.normalize_url_strip_fragment ok u1),
            (NormalizeFacts.normalize_url_strip_fragment ok u2).
    now rewrite H.
  - symmetry. now apply NormalizeFacts.normalize_url_slash.
  - now apply NormalizeFacts.normalize_url_slash.
Qed.

Lemma normalize_fragment_and_slash_witness :
  Scraper.normalize_url any_host_ok "https://www.hotel.com/rooms"
  = Scraper.normalize_url any_host_ok "https://www.hotel.com/rooms/"
  /\ Scraper.normalize_url any_host_ok "https://www.hotel.com/rooms#top"
     = Scraper.normalize_url any_host_ok "https://www.hotel.com/rooms#rates".
Proof.
  split.
  - apply (normalize_fragment_and_slash any_host_ok).
    right. split; [left; reflexivity|].
    split; right; split; reflexivity.
  - apply (normalize_fragment_and_slash any_host_ok).
    left. reflexivity.
Defined.


(** nor are the fragment and the trailing slash all that is stripped:
    the path parameters go as well *)
Example non_booking_path_parameters_are_dropped :
  Scraper.is_booking_url any_host_ok "https://www.hotel.com/rooms;v=1?x=1"
  = Some false
  /\ Scraper.normalize_url any_host_ok "https://www.hotel.com/rooms;v=1?x=1"
     = Some "https://www.hotel.com/rooms?x=1".
Proof. split; vm_compute; reflexivity. Qed.



(** ** The scope classifier *)

(** a same-site URL whose path ends in one of the skipped extensions is
    out of scope *)
Lemma same_site_file_rejected
    (ok : string -> bool) (tld : string -> Scraper.ExtractResult)
    (cfg : Scraper.Config) (u : string) (p : ParseResult) :
  urlparse ok u = Some p ->
  Scraper.is_same_site ok tld cfg u = Some true ->
  endswith_any Scraper.file_extensions (lower (path p)) = true ->
  Scraper.is_valid_url ok tld cfg u = Some false.
Proof.
  intros Hp Hs He. unfold Scraper.is_valid_url, Scraper.is_same_site in *.
  rewrite Hp in *. simpl in *.
  destruct (Scraper.is_empty (netloc p)); [discriminate|]. simpl in *.
  injection Hs as Hs. rewrite Hs. simpl. now rewrite He.
Qed.

(** a URL on another site whose host holds a booking term and the root
    domain is in scope, whatever its path *)
Lemma external_booking_url_accepted
    (ok : string -> bool) (tld : string -> Scraper.ExtractResult)
    (cfg : Scraper.Config) (u : string) (p : ParseResult) :
  urlparse ok u = Some p ->
  Scraper.is_same_site ok tld cfg u = Some false ->
  Scraper.is_empty (netloc p) = false ->
  contains_any Scraper.potential_booking_domains (lower (netloc p)) = true ->
  contains (Scraper.root_domain cfg) (lower (netloc p)) = true ->
  Scraper.is_valid_url ok tld cfg u = Some true.
Proof.
  intros Hp Hs Hn Hb Hr. unfold Scraper.is_valid_url.
  rewrite Hp, Hs. simpl. now rewrite Hn, Hb, Hr.
Qed.

(** C8: a PDF on an external booking host whose name holds the site's
    root domain is accepted for text crawling; the same file on the site
    itself is not. *)
Theorem external_booking_file_is_valid :
  Scraper.is_valid_url any_host_ok two_label_extract (scraper 5)
    "https://booking.hotel.com.partner.net/brochure.pdf" = Some true
  /\ Scraper.is_valid_url any_host_ok two_label_extract (scraper 5)
       "https://www.hotel.com/brochure.pdf" = Some false.
Proof. split; vm_compute; reflexivity. Qed.

(** [WebsiteScraper.is_valid_url] raises exactly when [urlparse] does *)
Lemma scraper_is_valid_url_raises_iff
    (ok : string -> bool) (tld : string -> Scraper.ExtractResult)
    (cfg : Scraper.Config) (u : string) :
  Scraper.is_valid_url ok tld cfg u = None <-> urlparse ok u = None.
Proof.
  unfold Scraper.is_valid_url, Scraper.is_same_site.
  destruct (urlparse ok u) as [p|]; simpl; [|done].
  split; [|discriminate].
  destruct (Scraper.is_empty (netloc p)); simpl; [discriminate|].
  destruct (negb _); [now destruct (_ && _)|].
  now destruct (endswith_any _ _).
Qed.

(** C9: on a URL with an unclosed bracket in its host
    [WebsiteScraper.is_valid_url] raises the [ValueError] of [urlparse];
    [ImageDownloader.is_valid_url] answers [False] on it. *)
Theorem scraper_is_valid_url_raises
    (ok : string -> bool) (tld : string -> Scraper.ExtractResult)
    (cfg : Scraper.Config) (icfg : Images.Config) :
  Scraper.is_valid_url ok tld cfg "http://[" = None
  /\ Images.is_valid_url ok icfg "http://[" = false.
Proof. split; reflexivity. Qed.

(** ** Retries *)

(** C10: [_download_image], the download of the image pipeline, makes one
    request for its URL and never sleeps, whatever the request answers. *)
Theorem pipeline_download_single_attempt
    (ok : string -> bool) (image_size : list Byte.byte -> option (Z * Z))
    (str_hash : string -> Z) (w : Images.World) (cfg : Images.Config)
    (s : Images.State) (u : string) :
  let s' := Images._download_image ok image_size str_hash w cfg s u in
  Images.requests s' = Images.requests s ++ [(Images.GET, u)]
  /\ Images.pauses s' = Images.pauses s.
Proof.
  destruct (ImagesFacts.download_frame ok image_size str_hash w cfg s u)
    as (_ & _ & _ & Hr & Hp).
  now split.
Qed.

(** a connection that drops the first GET of a photo: the crawl of the
    image pipeline asks for the photo once, loses it, and stores the
    other photo of the page *)
Example dropped_request_is_not_retried :
  let run := Images.crawl any_host_ok absolute_urljoin full_size zero_hash
               flaky_gallery downloader 20 Images.initial_state in
  (fun s => (gets_of photo_a (Images.requests s), Images.pauses s,
             Images.downloaded_count s)) <$> run
  = Some (1%nat, [], 1%Z).
Proof. vm_compute. reflexivity. Qed.

(** [download_image], which no caller uses, retries a dropped download
    after 1 and 2 seconds and gives up after the third attempt *)
Example download_image_backs_off :
  let run := Images.download_image any_host_ok absolute_urljoin full_size
               length_digest dropping_gallery downloader 3
               Images.initial_state photo_a in
  snd run = Some false
  /\ Images.pauses (fst run) = [Images.Backoff 1; Images.Backoff 2]
  /\ gets_of photo_a (Images.requests (fst run)) = 6%nat.
Proof. repeat split; vm_compute; reflexivity. Qed.

Module CharFacts.
Import PyStr UrlLib StrFacts.

#[local] Arguments String.append !s1 s2 /.

Lemma endswith_cons (suf : string) (a : ascii) (s : string) :
  endswith suf (String a s) = String.eqb suf (String a s) || endswith suf s.
Proof. reflexivity. Qed.

Lemma has_char_cons (c a : ascii) (s : string) :
  has_char c (String a s) = Ascii.eqb a c || has_char c s.
Proof. reflexivity. Qed.

Lemma rstrip_char_no_end (c : ascii) (s : string) :
  endswith (String c "") (rstrip_char c s) = false.
Proof.
  induction s as [|a s IH]; [reflexivity|]. simpl.
  destruct (rstrip_char c s) as [|b r] eqn:E.
  - destruct (Ascii.eqb a c) eqn:Hac; [reflexivity|].
    rewrite endswith_cons. simpl. rewrite Ascii.eqb_sym, Hac. reflexivity.
  - rewrite endswith_cons, IH. simpl.
    destruct (Ascii.eqb c a); reflexivity.
Qed.

Lemma has_char_rstrip (d c : ascii) (s : string) :
  has_char d s = false -> has_char d (rstrip_char c s) = false.
Proof.
  induction s as [|a s IH]; [reflexivity|]. simpl. intros H.
  apply orb_false_iff in H. destruct H as [Ha Hs]. specialize (IH Hs).
  destruct (rstrip_char c s) as [|b r].
  - destruct (Ascii.eqb a c); simpl; [reflexivity | now rewrite Ha].
  - simpl in *. now rewrite Ha, IH.
Qed.

Lemma lower_char_hash (a : ascii) :
  Ascii.eqb (lower_char a) "#" = Ascii.eqb a "#".
Proof. destruct a as [[] [] [] [] [] [] [] []]; reflexivity. Qed.

Lemma has_char_lower_hash (s : string) :
  has_char "#" (lower s) = has_char "#" s.
Proof.
  induction s as [|a s IH]; [reflexivity|]. simpl.
  now rewrite lower_char_hash, IH.
Qed.

Lemma scheme_chars_no_hash (s : string) :
  all_chars is_scheme_char s = true -> has_char "#" s = false.
Proof.
  induction s as [|a s IH]; [reflexivity|]. simpl. intros H.
  apply andb_true_iff in H. destruct H as [Ha Hs]. rewrite (IH Hs).
  destruct a as [[] [] [] [] [] [] [] []]; try reflexivity; discriminate.
Qed.

Lemma split_scheme_no_hash (c : string) :
  has_char "#" (fst (split_scheme c)) = false.
Proof.
  unfold split_scheme. destruct (partition ":" c) as [[|c0 pre] [rest|]];
    try reflexivity.
  destruct (is_ascii_alpha c0 && all_chars is_scheme_char (String c0 pre)) eqn:E;
    [|reflexivity].
  apply andb_true_iff in E. destruct E as [_ E].
  cbn [fst]. rewrite has_char_lower_hash. now apply scheme_chars_no_hash.
Qed.

Lemma span_until_fst (p : ascii -> bool) (d : ascii) (s : string) :
  p d = true -> has_char d (fst (span_until p s)) = false.
Proof.
  intros Hd. induction s as [|a s IH]; [reflexivity|]. simpl.
  destruct (p a) eqn:Ha; [reflexivity|].
  destruct (span_until p s) as [h t]. simpl in *. rewrite IH.
  destruct (Ascii.eqb a d) eqn:E; [|reflexivity].
  apply Ascii.eqb_eq in E. congruence.
Qed.

Lemma split_netloc_fst (d : ascii) (r : string) :
  is_netloc_delim d = true -> has_char d (fst (split_netloc r)) = false.
Proof.
  intros Hd. unfold split_netloc, splitnetloc.
  destruct r as [|a [|b r']]; try reflexivity.
  destruct (Ascii.eqb a "/" && Ascii.eqb b "/"); [|reflexivity].
  pose proof (span_until_fst is_netloc_delim d r' Hd) as H.
  now destruct (span_until is_netloc_delim r').
Qed.

Lemma partition_fst (c : ascii) (s : string) :
  has_char c (fst (partition c s)) = false.
Proof.
  induction s as [|a s IH]; [reflexivity|]. simpl.
  destruct (Ascii.eqb a c) eqn:E; [reflexivity|].
  destruct (partition c s) as [h t]. simpl in *. now rewrite E, IH.
Qed.

Lemma rpartition_chars (c d : ascii) (s : string) :
  has_char d s = false ->
  (forall h, fst (rpartition c s) = Some h -> has_char d h = false)
  /\ has_char d (snd (rpartition c s)) = false.
Proof.
  induction s as [|a s IH]; [split; [discriminate | reflexivity]|].
  simpl. intros H. apply orb_false_iff in H. destruct H as [Ha Hs].
  destruct (IH Hs) as [I1 I2].
  destruct (rpartition c s) as [[h|] t]; simpl in *.
  - split; [|exact I2]. intros h' E. injection E as <-. simpl.
    now rewrite Ha, (I1 h).
  - destruct (Ascii.eqb a c); simpl.
    + split; [|exact I2]. intros h' E. now injection E as <-.
    + split; [discriminate|]. now rewrite Ha, I2.
Qed.

Lemma splitparams_chars (d : ascii) (url : string) :
  Ascii.eqb "/" d = false -> has_char d url = false ->
  has_char d (fst (splitparams url)) = false
  /\ has_char d (snd (splitparams url)) = false.
Proof.
  intros Hd H. unfold splitparams.
  destruct (rpartition_chars "/" d url H) as [R1 R2].
  destruct (rpartition "/" url) as [[dir|] seg]; cbn [fst snd] in *.
  - destruct (partition_chars ";" d seg R2) as [P1 P2].
    destruct (partition ";" seg) as [before [after|]]; cbn [fst snd] in *.
    + split; [|now apply P2].
      rewrite has_char_app, (R1 dir eq_refl).
      change ("/" +:+ before) with (String "/" before).
      rewrite has_char_cons. now rewrite Hd, P1.
    + now split.
  - destruct (partition_chars ";" d url H) as [P1 P2].
    destruct (partition ";" url) as [before [after|]]; cbn [fst snd] in *.
    + split; [exact P1 | now apply P2].
    + now split.
Qed.

Section Parsed.

Variable ok : string -> bool.

(** no field of a parsed URL but the fragment holds a [#] *)
Lemma urlparse_no_hash (u : string) (p : ParseResult) :
  urlparse ok u = Some p ->
  has_char "#" (scheme p) = false /\ has_char "#" (netloc p) = false
  /\ has_char "#" (path p) = false /\ has_char "#" (params p) = false
  /\ has_char "#" (query p) = false.
Proof.
  unfold urlparse, urlsplit.
  pose proof (split_scheme_no_hash (clean u)) as Hs.
  destruct (split_scheme (clean u)) as [sch url1].
  pose proof (split_netloc_fst "#" url1 eq_refl) as Hn.
  destruct (split_netloc url1) as [net url2].
  destruct (netloc_ok ok net); [|discriminate].
  pose proof (partition_fst "#" url2) as H3.
  destruct (partition "#" url2) as [url3 frag].
  destruct (partition_chars "?" "#" url3 H3) as [H4 Hq].
  destruct (partition "?" url3) as [url4 qry].
  cbn [fst snd s_scheme s_netloc s_path s_query s_fragment] in *.
  assert (Hq' : has_char "#" (or_empty qry) = false).
  { destruct qry as [q|]; [now apply Hq | reflexivity]. }
  destruct (str_in sch uses_params && has_char ";" url4).
  - destruct (splitparams_chars "#" url4 eq_refl H4) as [S1 S2].
    destruct (splitparams url4) as [pa prm]. intros E. injection E as <-.
    now repeat split.
  - intros E. injection E as <-. now repeat split.
Qed.

End Parsed.

End CharFacts.

(* ===================================================================== *)
(** * Facts about the query parameters kept for a booking URL *)
(* ===================================================================== *)

Module DictFacts.
Import PyStr UrlLib Scraper Query StrFacts CharFacts.

#[local] Arguments String.append !s1 s2 /.

Lemma dict_get_set_same (k v : string) (d : list (string * string)) :
  dict_get k (dict_set k v d) = Some v.
Proof.
  induction d as [|[k' v'] d IH]; simpl; [now rewrite String.eqb_refl|].
  destruct (String.eqb k' k) eqn:E; simpl; now rewrite E.
Qed.

Lemma dict_get_set_other (k k0 v : string) (d : list (string * string)) :
  k0 <> k -> dict_get k0 (dict_set k v d) = dict_get k0 d.
Proof.
  intros Hne. induction d as [|[k' v'] d IH]; simpl.
  - destruct (String.eqb k k0) eqn:E; [|reflexivity].
    apply String.eqb_eq in E. congruence.
  - destruct (String.eqb k' k) eqn:E; simpl.
    + apply String.eqb_eq in E. subst k'.
      destruct (String.eqb k k0) eqn:E0; [|reflexivity].
      apply String.eqb_eq in E0. congruence.
    + now rewrite IH.
Qed.

Lemma dict_set_keys (k v : string) (d : list (string * string)) :
  map fst (dict_set k v d) = map fst d
  \/ ((k ∉ map fst d) /\ map fst (dict_set k v d) = map fst d ++ [k]).
Proof.
  induction d as [|[k' v'] d IH]; simpl.
  - right. split; [apply not_elem_of_nil | reflexivity].
  - destruct (String.eqb k' k) eqn:E; simpl; [now left|].
    apply String.eqb_neq in E.
    destruct IH as [-> | [Hn ->]]; [now left|].
    right. split; [|reflexivity].
    rewrite not_elem_of_cons. split; [congruence | exact Hn].
Qed.

Lemma dict_set_NoDup (k v : string) (d : list (string * string)) :
  NoDup (map fst d) -> NoDup (map fst (dict_set k v d)).
Proof.
  intros H. destruct (dict_set_keys k v d) as [-> | [Hn ->]]; [exact H|].
  apply NoDup_app. split; [exact H|]. split; [|apply NoDup_singleton].
  intros x Hx Hx'. apply list_elem_of_singleton in Hx'. now subst x.
Qed.

Lemma dict_set_Forall (P : string * string -> Prop) (k v : string)
    (d : list (string * string)) :
  P (k, v) -> Forall P d -> Forall P (dict_set k v d).
Proof.
  intros Hk. induction d as [|[k' v'] d IH]; simpl; intros H.
  - now constructor.
  - apply Forall_cons in H. destruct H as [H1 H2].
    destruct (String.eqb k' k) eqn:E.
    + apply String.eqb_eq in E. subst k'. now constructor.
    + constructor; [exact H1 | now apply IH].
Qed.

(** the keys that [normalize_url] keeps are none of the volatile ones, and
    no key is kept twice *)
Lemma add_param_keys (d : list (string * string)) (param : string) :
  NoDup (map fst d)
  /\ Forall (fun kv => str_in (lower (fst kv)) volatile_keys = false) d ->
  NoDup (map fst (add_param d param))
  /\ Forall (fun kv => str_in (lower (fst kv)) volatile_keys = false)
       (add_param d param).
Proof.
  intros [H1 H2]. unfold add_param.
  destruct (partition "=" param) as [key [value|]]; [|now split].
  destruct (str_in (lower key) volatile_keys) eqn:E; [now split|].
  split; [now apply dict_set_NoDup | now apply dict_set_Forall].
Qed.

Lemma fold_add_param_keys (l : list string) (d : list (string * string)) :
  NoDup (map fst d)
  /\ Forall (fun kv => str_in (lower (fst kv)) volatile_keys = false) d ->
  NoDup (map fst (fold_left add_param l d))
  /\ Forall (fun kv => str_in (lower (fst kv)) volatile_keys = false)
       (fold_left add_param l d).
Proof.
  revert d. induction l as [|param l IH]; intros d H; simpl; [exact H|].
  apply IH. now apply add_param_keys.
Qed.

Lemma add_param_get (k : string) (d : list (string * string)) (param : string) :
  dict_get k (add_param d param)
  = match param_value k param with
    | Some value =>
        if str_in (lower k) volatile_keys then dict_get k d else Some value
    | None => dict_get k d
    end.
Proof.
  unfold add_param, param_value.
  destruct (partition "=" param) as [key [value|]]; [|reflexivity].
  destruct (String.eqb key k) eqn:E.
  - apply String.eqb_eq in E. subst key.
    destruct (str_in (lower k) volatile_keys); [reflexivity|].
    apply dict_get_set_same.
  - apply String.eqb_neq in E.
    destruct (str_in (lower key) volatile_keys); [reflexivity|].
    apply dict_get_set_other. congruence.
Qed.

Lemma fold_add_param_get (k : string) (l : list string)
    (d : list (string * string)) :
  dict_get k (fold_left add_param l d)
  = if str_in (lower k) volatile_keys then dict_get k d
    else fold_left (fun found param =>
                      match param_value k param with
                      | Some value => Some value
                      | None => found
                      end) l (dict_get k d).
Proof.
  revert d. induction l as [|param l IH]; intros d; simpl.
  - now destruct (str_in (lower k) volatile_keys).
  - rewrite IH, add_param_get.
    destruct (str_in (lower k) volatile_keys);
      now destruct (param_value k param).
Qed.

(** ** The characters of the kept parameters *)

Lemma split_on_chars (d c : ascii) (s : string) :
  has_char d s = false ->
  Forall (fun x => has_char d x = false) (split_on c s).
Proof.
  induction s as [|a s IH]; simpl; intros H; [now repeat constructor|].
  apply orb_false_iff in H. destruct H as [Ha Hs]. specialize (IH Hs).
  destruct (Ascii.eqb a c); [now constructor|].
  destruct (split_on c s) as [|h t]; [repeat constructor; simpl; now rewrite Ha|].
  apply Forall_cons in IH. destruct IH as [I1 I2].
  constructor; [simpl; now rewrite Ha, I1 | exact I2].
Qed.

Local Abbreviation clear_of d :=
  (fun kv : string * string =>
     has_char d (fst kv) = false /\ has_char d (snd kv) = false).

Lemma fold_add_param_chars (d : ascii) (l : list string)
    (acc : list (string * string)) :
  Forall (fun x => has_char d x = false) l -> Forall (clear_of d) acc ->
  Forall (clear_of d) (fold_left add_param l acc).
Proof.
  revert acc. induction l as [|param l IH]; intros acc Hl Ha; simpl; [exact Ha|].
  apply Forall_cons in Hl. destruct Hl as [Hp Hl]. apply IH; [exact Hl|].
  unfold add_param.
  destruct (partition_chars "=" d param Hp) as [P1 P2].
  destruct (partition "=" param) as [key [value|]]; [|exact Ha].
  destruct (str_in (lower key) volatile_keys); [exact Ha|].
  apply dict_set_Forall; [|exact Ha]. split; [exact P1 | now apply P2].
Qed.

Lemma render_params_chars (d : ascii) (l : list (string * string)) :
  Ascii.eqb "&" d = false -> Ascii.eqb "=" d = false ->
  Forall (clear_of d) l -> has_char d (render_params l) = false.
Proof.
  intros Hamp Heq. unfold render_params.
  induction l as [|[k v] l IH]; intros H; [reflexivity|].
  apply Forall_cons in H. destruct H as [[Hk Hv] Hl]. specialize (IH Hl).
  cbn [fst snd] in *.
  assert (Hkv : has_char d (k +:+ "=" +:+ v) = false).
  { rewrite has_char_app, Hk. change ("=" +:+ v) with (String "=" v).
    rewrite has_char_cons. now rewrite Heq, Hv. }
  destruct l as [|kv l]; [exact Hkv|].
  change (has_char d ((k +:+ "=" +:+ v) +:+ "&"
                      +:+ join "&" (map (fun kv => fst kv +:+ "=" +:+ snd kv)
                                      (kv :: l))) = false).
  rewrite has_char_app, Hkv.
  match goal with |- context [ "&" +:+ ?x ] =>
    change ("&" +:+ x) with (String "&" x) end.
  rewrite has_char_cons. now rewrite Hamp, IH.
Qed.

Lemma query_params_chars (d : ascii) (q : string) :
  has_char d q = false -> Forall (clear_of d) (query_params q).
Proof.
  intros H. apply fold_add_param_chars; [now apply split_on_chars | constructor].
Qed.

End DictFacts.

(* ===================================================================== *)
(** * Facts about normal forms *)
(* ===================================================================== *)

Module NormalFormFacts.
Import PyStr UrlLib Scraper StrFacts CharFacts DictFacts.

Section NormalForms.

Variable ok : string -> bool.

Lemma is_booking_url_parsed (u : string) (p : ParseResult) :
  urlparse ok u = Some p -> is_Some (is_booking_url ok u).
Proof.
  intros Hp. unfold is_booking_url. rewrite Hp. simpl.
  destruct (contains_any _ _); [done|].
  destruct (contains_any _ _); [done|].
  now destruct (_ && _).
Qed.

Lemma normalize_url_parsed (u : string) (p : ParseResult) :
  urlparse ok u = Some p -> is_Some (normalize_url ok u).
Proof.
  intros Hp. destruct (is_booking_url_parsed u p Hp) as [b Hb].
  unfold normalize_url. rewrite Hp. simpl.
  destruct (negb (is_empty (query p))); [|done].
  rewrite Hb. simpl. destruct b; [|done].
  now destruct (query_params (query p)).
Qed.

Lemma normalize_url_raises (u : string) :
  normalize_url ok u = None -> urlparse ok u = None.
Proof.
  intros H. destruct (urlparse ok u) as [p|] eqn:Hp; [|reflexivity].
  destruct (normalize_url_parsed u p Hp) as [n Hn]. congruence.
Qed.

(** what [normalize_url] returns: some text with the trailing slashes
    stripped *)
Lemma normalize_url_rstrip (u n : string) :
  normalize_url ok u = Some n ->
  exists p t, urlparse ok u = Some p
    /\ n = rstrip_char "/" (scheme p +:+ "://" +:+ netloc p +:+ path p +:+ t)
    /\ (has_char "#" (query p) = false -> has_char "#" t = false).
Proof.
  unfold normalize_url. destruct (urlparse ok u) as [p|]; [|discriminate].
  simpl. intros H. exists p.
  assert (A : forall x y z t,
             (x +:+ "://" +:+ y +:+ z) +:+ t = x +:+ "://" +:+ y +:+ z +:+ t).
  { intros x y z t. now rewrite !append_assoc. }
  destruct (negb (is_empty (query p))).
  - destruct (is_booking_url ok u) as [[|]|]; simpl in H; [| |discriminate].
    + destruct (query_params (query p)) as [|kv l] eqn:Q.
      * exists "". injection H as <-. rewrite append_nil_r. now repeat split.
      * exists ("?" +:+ render_params (kv :: l)). injection H as <-.
        rewrite A. repeat split. intros Hq.
        change (has_char "#" (String "?" (render_params (kv :: l))) = false).
        rewrite has_char_cons. rewrite <- Q.
        rewrite render_params_chars; [reflexivity..|].
        now apply query_params_chars.
    + exists ("?" +:+ query p). injection H as <-. rewrite A.
      repeat split. intros Hq.
      change (has_char "#" (String "?" (query p)) = false).
      rewrite has_char_cons. now rewrite Hq.
  - exists "". injection H as <-. rewrite append_nil_r. now repeat split.
Qed.

Lemma normalize_url_no_slash (u n : string) :
  normalize_url ok u = Some n -> endswith "/" n = false.
Proof.
  intros H. destruct (normalize_url_rstrip u n H) as (p & t & _ & -> & _).
  apply rstrip_char_no_end.
Qed.

Lemma normalize_url_no_hash (u n : string) :
  normalize_url ok u = Some n -> has_char "#" n = false.
Proof.
  intros H. destruct (normalize_url_rstrip u n H) as (p & t & Hp & -> & Ht).
  destruct (urlparse_no_hash ok u p Hp) as (H1 & H2 & H3 & _ & H5).
  apply has_char_rstrip.
  rewrite has_char_app, H1.
  change ("://" +:+ netloc p +:+ path p +:+ t)
    with (String ":" (String "/" (String "/" (netloc p +:+ path p +:+ t)))).
  rewrite !has_char_cons, !has_char_app, H2, H3, (Ht H5). reflexivity.
Qed.

End NormalForms.

End NormalFormFacts.

(* ===================================================================== *)
(** * Further facts about the text crawler *)
(* ===================================================================== *)

Module CrawlFacts.
Import PyStr UrlLib Scraper Ledger NormalFormFacts ScraperFacts.

Section Crawl.

Variable ok : string -> bool.
Variable tld : string -> ExtractResult.
Variable w : World.
Variable cfg : Config.

Local Abbreviation process := (_process_url ok tld w cfg).

(** a link that a loop of [_process_url] appends is the normal form of a
    valid link of the list and is not visited *)
Lemma collect_links_new (visited : gset string) (unique : bool)
    (links acc out : list string) :
  collect_links ok tld cfg visited unique links acc = Some out ->
  forall n, n ∈ out ->
    n ∈ acc
    \/ ((n ∉ visited)
        /\ exists link, link ∈ links /\ is_valid_url ok tld cfg link = Some true
                        /\ normalize_url ok link = Some n).
Proof.
  revert acc. induction links as [|link links IH]; intros acc; simpl.
  - intros E. injection E as <-. now left.
  - assert (K : forall acc', collect_links ok tld cfg visited unique links acc'
                             = Some out ->
              (forall n, n ∈ acc' ->
                 n ∈ acc
                 \/ ((n ∉ visited)
                     /\ exists l, l ∈ link :: links
                                  /\ is_valid_url ok tld cfg l = Some true
                                  /\ normalize_url ok l = Some n)) ->
              forall n, n ∈ out ->
                n ∈ acc
                \/ ((n ∉ visited)
                    /\ exists l, l ∈ link :: links
                                 /\ is_valid_url ok tld cfg l = Some true
                                 /\ normalize_url ok l = Some n)).
    { intros acc' E Hacc n Hn. destruct (IH acc' E n Hn) as [H | [Hv (l & Hl & H)]].
      - now apply Hacc.
      - right. split; [exact Hv|]. exists l. split; [now right | exact H]. }
    destruct (is_valid_url ok tld cfg link) as [[|]|] eqn:V; simpl;
      [| |discriminate].
    + destruct (normalize_url ok link) as [m|] eqn:N; simpl; [|discriminate].
      destruct (bool_decide (m ∈ visited)) eqn:B; simpl.
      * intros E. apply (K acc E). now left.
      * apply bool_decide_eq_false_1 in B.
        destruct (unique && str_in m acc).
        -- intros E. apply (K acc E). now left.
        -- intros E. apply (K _ E). intros n Hn.
           apply elem_of_app in Hn. destruct Hn as [Hn | Hn]; [now left|].
           apply list_elem_of_singleton in Hn. subst n. right.
           split; [exact B|]. exists link. split; [now left | now split].
    + intros E. apply (K acc E). now left.
Qed.

Lemma extract_new_urls_new (s : State) (page : Page) (out : list string) :
  extract_new_urls ok tld cfg s page = Some out ->
  forall n, n ∈ out ->
    (n ∉ visited_urls s)
    /\ exists link, link ∈ page_links page
                    /\ is_valid_url ok tld cfg link = Some true
                    /\ normalize_url ok link = Some n.
Proof.
  unfold extract_new_urls, page_links.
  destruct (collect_links _ _ _ _ _ (language_variants page) [])
    as [l1|] eqn:E1; simpl; [|discriminate].
  destruct (collect_links _ _ _ _ _ (header_menu_links page) l1)
    as [l2|] eqn:E2; simpl; [|discriminate].
  assert (H1 : forall n, n ∈ l1 ->
            (n ∉ visited_urls s)
            /\ exists link, link ∈ language_variants page
                 /\ is_valid_url ok tld cfg link = Some true
                 /\ normalize_url ok link = Some n).
  { intros n Hn. destruct (collect_links_new _ _ _ _ _ E1 n Hn) as [H|H];
      [now apply elem_of_nil in H | exact H]. }
  assert (H2 : forall n, n ∈ l2 ->
            (n ∉ visited_urls s)
            /\ exists link, link ∈ language_variants page ++ header_menu_links page
                 /\ is_valid_url ok tld cfg link = Some true
                 /\ normalize_url ok link = Some n).
  { intros n Hn.
    destruct (collect_links_new _ _ _ _ _ E2 n Hn) as [H|[Hv (l & Hl & H)]].
    - destruct (H1 n H) as [Hv (l & Hl & H')]. split; [exact Hv|].
      exists l. split; [set_solver | exact H'].
    - split; [exact Hv|]. exists l. split; [set_solver | exact H]. }
  set (l3o := if (booking_urls_crawled s <? max_booking_urls cfg)%Z
              then collect_links ok tld cfg (visited_urls s) false
                     (booking_links page) l2
              else Some l2).
  destruct l3o as [l3|] eqn:E3; simpl; [|discriminate].
  assert (H3 : forall n, n ∈ l3 ->
            (n ∉ visited_urls s)
            /\ exists link, link ∈ language_variants page ++ header_menu_links page
                                   ++ booking_links page
                 /\ is_valid_url ok tld cfg link = Some true
                 /\ normalize_url ok link = Some n).
  { intros n Hn. unfold l3o in E3.
    destruct (booking_urls_crawled s <? max_booking_urls cfg)%Z.
    - destruct (collect_links_new _ _ _ _ _ E3 n Hn) as [H|[Hv (l & Hl & H)]].
      + destruct (H2 n H) as [Hv (l & Hl & H')]. split; [exact Hv|].
        exists l. split; [set_solver | exact H'].
      + split; [exact Hv|]. exists l. split; [set_solver | exact H].
    - injection E3 as <-. destruct (H2 n Hn) as [Hv (l & Hl & H')].
      split; [exact Hv|]. exists l. split; [set_solver | exact H']. }
  intros E4 n Hn.
  destruct (collect_links_new _ _ _ _ _ E4 n Hn) as [H|[Hv (l & Hl & H)]].
  - destruct (H3 n H) as [Hv (l & Hl & H')]. split; [exact Hv|].
    exists l. split; [set_solver | exact H'].
  - split; [exact Hv|]. exists l. split; [set_solver | exact H].
Qed.

(** the booking test leaves the content alone *)
Lemma booking_gate_content (s s2 : State) (u : string) :
  booking_gate ok cfg s u = GateOpen s2 ->
  markdown_content s2 = markdown_content s.
Proof.
  unfold booking_gate.
  destruct (is_booking_url ok u) as [[|]|]; [| |discriminate].
  - destruct (urlparse ok u) as [p|]; [|discriminate].
    destruct (bool_decide _).
    + destruct (_ >=? _)%Z; [discriminate|]. intros E. now injection E as <-.
    + intros E. now injection E as <-.
  - intros E. now injection E as <-.
Qed.

(** the booking test never raises on a URL that [urlparse] reads *)
Lemma booking_gate_parsed (s : State) (u : string) (p : ParseResult) :
  urlparse ok u = Some p -> booking_gate ok cfg s u <> GateRaised.
Proof.
  intros Hp. unfold booking_gate. rewrite Hp.
  destruct (is_booking_url_parsed ok u p Hp) as [b ->].
  destruct b; [|discriminate].
  destruct (bool_decide _); [|discriminate].
  now destruct (_ >=? _)%Z.
Qed.

Lemma process_returns_new (s s' : State) (u : string) (l : list string) :
  process s u = (s', Some l) ->
  forall n, n ∈ l ->
    (n ∉ visited_urls s')
    /\ exists page link,
         w (requests s) u = Http 200 page /\ link ∈ page_links page
         /\ is_valid_url ok tld cfg link = Some true
         /\ normalize_url ok link = Some n.
Proof.
  unfold _process_url.
  destruct (normalize_url ok u) as [m|]; [|discriminate].
  destruct (bool_decide (m ∈ visited_urls s));
    [intros E; injection E as <- <-; intros n Hn; now apply elem_of_nil in Hn|].
  destruct (booking_gate ok cfg (mark_visited m s) u) as [| |s2] eqn:G;
    [discriminate
    |intros E; injection E as <- <-; intros n Hn; now apply elem_of_nil in Hn|].
  destruct (booking_gate_open ok cfg _ _ _ G) as [Gv Gr]. simpl in Gr.
  unfold fetch_page, get. rewrite Gr.
  destruct (w (requests s) u) as [|status page] eqn:W;
    [intros E; injection E as <- <-; intros n Hn; now apply elem_of_nil in Hn|].
  destruct (status =? 200)%Z eqn:S; simpl;
    [|intros E; injection E as <- <-; intros n Hn; now apply elem_of_nil in Hn].
  apply Z.eqb_eq in S. subst status.
  destruct (extract_new_urls ok tld cfg _ page) as [out|] eqn:X;
    [|intros E; injection E as <- <-; intros n Hn; now apply elem_of_nil in Hn].
  intros E. injection E as <- <-. intros n Hn.
  destruct (extract_new_urls_new _ _ _ X n Hn) as [Hv (link & Hl & H)].
  split; [exact Hv|]. now exists page, link.
Qed.

Lemma process_failed_fetch (s : State) (u n : string) :
  normalize_url ok u = Some n -> n ∉ visited_urls s ->
  fetch_fails (w (requests s) u) ->
  snd (process s u) = Some []
  /\ markdown_content (fst (process s u)) = markdown_content s
  /\ n ∈ visited_urls (fst (process s u)).
Proof.
  intros Hn Hv Hf. split; [|split]; [| |now apply process_marks].
  - unfold _process_url. rewrite Hn.
    rewrite bool_decide_eq_false_2 by exact Hv.
    destruct (booking_gate ok cfg (mark_visited n s) u) as [| |s2] eqn:G.
    + exfalso. destruct (urlparse ok u) as [p|] eqn:Hp.
      * now apply (booking_gate_parsed _ _ _ Hp) in G.
      * unfold normalize_url in Hn. now rewrite Hp in Hn.
    + reflexivity.
    + destruct (booking_gate_open ok cfg _ _ _ G) as [_ Gr]. simpl in Gr.
      unfold fetch_page, get. rewrite Gr.
      destruct (w (requests s) u) as [|status page]; [reflexivity|].
      simpl in Hf. apply Z.eqb_neq in Hf. now rewrite Hf.
  - unfold _process_url. rewrite Hn.
    rewrite bool_decide_eq_false_2 by exact Hv.
    destruct (booking_gate ok cfg (mark_visited n s) u) as [| |s2] eqn:G;
      [reflexivity..|].
    destruct (booking_gate_open ok cfg _ _ _ G) as [_ Gr]. simpl in Gr.
    pose proof (booking_gate_content _ _ _ G) as Gm. simpl in Gm.
    unfold fetch_page, get. rewrite Gr.
    destruct (w (requests s) u) as [|status page]; [exact Gm|].
    simpl in Hf. apply Z.eqb_neq in Hf. rewrite Hf. exact Gm.
Qed.

(** ** Invariants of a whole crawl *)

Lemma process_visited_normal (s : State) (u : string) :
  visited_normal ok s -> visited_normal ok (fst (process s u)).
Proof.
  intros H. unfold _process_url.
  destruct (normalize_url ok u) as [m|] eqn:N; [|exact H].
  destruct (bool_decide (m ∈ visited_urls s)); [exact H|].
  assert (H1 : visited_normal ok (mark_visited m s)).
  { intros n Hn. simpl in Hn. apply elem_of_union in Hn.
    destruct Hn as [Hn|Hn]; [|now apply H].
    apply elem_of_singleton in Hn. subst n. now exists u. }
  destruct (booking_gate ok cfg (mark_visited m s) u) as [| |s2] eqn:G;
    [exact H1..|].
  destruct (booking_gate_open ok cfg _ _ _ G) as [Gv _].
  destruct (fetch_page_frame ok tld w cfg s2 u) as (Fv & _).
  destruct (fetch_page ok tld w cfg s2 u) as [s3 new_urls]. simpl in *.
  intros n Hn. rewrite Fv, Gv in Hn. now apply H1.
Qed.

Lemma crawl_visited_normal (fuel : nat) (s : State) :
  visited_normal ok s -> visited_normal ok (fst (crawl ok tld w cfg fuel s)).
Proof.
  apply (crawl_preserves ok tld w cfg (visited_normal ok)); try done.
  intros s0 u. apply process_visited_normal.
Qed.

Lemma process_stored_fetched (s : State) (u : string) :
  stored_fetched ok s -> stored_fetched ok (fst (process s u)).
Proof.
  intros H. unfold _process_url.
  destruct (normalize_url ok u) as [m|] eqn:N; [|exact H].
  destruct (bool_decide (m ∈ visited_urls s)); [exact H|].
  assert (H1 : stored_fetched ok (mark_visited m s)).
  { intros x Hx. destruct (H x Hx) as [Hr (n & Hn & Hv)]. split; [exact Hr|].
    exists n. split; [exact Hn|]. simpl. set_solver. }
  destruct (booking_gate ok cfg (mark_visited m s) u) as [| |s2] eqn:G;
    [exact H1..|].
  destruct (booking_gate_open ok cfg _ _ _ G) as [Gv Gr].
  pose proof (booking_gate_content _ _ _ G) as Gm.
  assert (H2 : stored_fetched ok s2).
  { intros x Hx. rewrite Gm in Hx. rewrite Gr, Gv. now apply H1. }
  assert (Hm : m ∈ visited_urls s2) by (rewrite Gv; simpl; set_solver).
  clear G Gv Gr Gm H1 H.
  unfold fetch_page, get.
  assert (H3 : stored_fetched ok (log_request Processing u s2)).
  { intros x Hx. destruct (H2 x Hx) as [Hr Hv]. split; [|exact Hv].
    simpl. apply elem_of_app. now left. }
  destruct (w (requests s2) u) as [|status page]; [exact H3|].
  destruct (negb (status =? 200)%Z); [exact H3|].
  assert (H4 : stored_fetched ok
                 (store_content u (markdown page) (log_request Processing u s2))).
  { intros x Hx. simpl in Hx.
    destruct (decide (x = u)) as [->|Hne].
    - split; [simpl; apply elem_of_app; right; now left|].
      exists m. now split.
    - rewrite lookup_insert_ne in Hx by congruence. now apply H3. }
  now destruct (extract_new_urls ok tld cfg _ page).
Qed.

Lemma crawl_stored_fetched (fuel : nat) (s : State) :
  stored_fetched ok s -> stored_fetched ok (fst (crawl ok tld w cfg fuel s)).
Proof.
  apply (crawl_preserves ok tld w cfg (stored_fetched ok)); try done.
  - intros s0 o u _ H x Hx. destruct (H x Hx) as [Hr Hv]. split; [|exact Hv].
    simpl. apply elem_of_app. now left.
  - intros s0 u. apply process_stored_fetched.
Qed.

(** ** The request log of a crawl *)

Lemma add_main_page_links_frame (links : list string) (s : State) :
  let s' := fst (add_main_page_links ok tld cfg links s) in
  visited_urls s' = visited_urls s /\ requests s' = requests s
  /\ booking_domains_seen s' = booking_domains_seen s.
Proof.
  revert s. induction links as [|l links IH]; intros s; simpl; [done|].
  destruct (is_valid_url ok tld cfg l) as [[|]|]; [|apply IH|done].
  destruct (normalize_url ok l) as [n|]; [|done].
  destruct (IH (add_main_page_link n s)) as (H1 & H2 & H3). now repeat split.
Qed.

Lemma seed_frame (s : State) :
  let s' := fst (seed ok tld w cfg s) in
  visited_urls s' = visited_urls s
  /\ requests s' = requests s ++ [(Upfront, base_url cfg)]
  /\ booking_domains_seen s' = booking_domains_seen s.
Proof.
  unfold seed, get.
  destruct (w (requests s) (base_url cfg)) as [|status page]; [done|].
  destruct (negb (status =? 200)%Z); [done|].
  destruct (add_main_page_links_frame (anchors page)
              (log_request Upfront (base_url cfg) s)) as (H1 & H2 & H3).
  destruct (add_main_page_links ok tld cfg (anchors page) _) as [s2 [|]];
    simpl in *; now repeat split.
Qed.

Lemma process_log_starts (l : list (Origin * string)) (s : State) (u : string) :
  log_starts l s -> log_starts l (fst (process s u)).
Proof.
  intros [rest H]. unfold log_starts.
  destruct (process_requests ok tld w cfg s u) as [-> | ->]; rewrite H.
  - now exists rest.
  - exists (rest ++ [(Processing, u)]). now rewrite app_assoc.
Qed.

Lemma log_request_log_starts (l : list (Origin * string)) (s : State)
    (o : Origin) (u : string) :
  o <> Processing -> log_starts l s -> log_starts l (log_request o u s).
Proof.
  intros _ [rest H]. exists (rest ++ [(o, u)]). simpl. now rewrite H, app_assoc.
Qed.

(** the first call of [_process_url] in a crawl always asks for the page *)
Lemma process_first (s : State) (u : string) (s' : State) (l : list string) :
  visited_urls s = ∅ -> booking_domains_seen s = ∅ ->
  process s u = (s', Some l) ->
  requests s' = requests s ++ [(Processing, u)].
Proof.
  intros Hv Hb. unfold _process_url.
  destruct (normalize_url ok u) as [m|]; [|discriminate].
  rewrite bool_decide_eq_false_2 by (rewrite Hv; set_solver).
  unfold booking_gate.
  destruct (is_booking_url ok u) as [[|]|]; [| |discriminate].
  - destruct (urlparse ok u) as [p|]; [|discriminate].
    rewrite bool_decide_eq_false_2 by (simpl; rewrite Hb; set_solver).
    destruct (fetch_page_frame ok tld w cfg
                (count_booking_url (see_booking_domain (netloc p) (mark_visited m s)))
                u) as (_ & _ & _ & Fr).
    destruct (fetch_page _ _ _ _ _ _) as [s3 new_urls]. simpl in Fr.
    intros E. injection E as <- <-. exact Fr.
  - destruct (fetch_page_frame ok tld w cfg (mark_visited m s) u)
      as (_ & _ & _ & Fr).
    destruct (fetch_page _ _ _ _ _ _) as [s3 new_urls]. simpl in Fr.
    intros E. injection E as <- <-. exact Fr.
Qed.

Lemma crawl_log_starts (fuel : nat) (s : State) :
  visited_urls s = ∅ -> booking_domains_seen s = ∅ ->
  snd (crawl ok tld w cfg fuel s) <> Raised ->
  log_starts (requests s ++ [(Upfront, base_url cfg); (Processing, base_url cfg)])
    (fst (crawl ok tld w cfg fuel s)).
Proof.
  intros Hv Hb. unfold crawl.
  destruct (seed_frame s) as (Sv & Sr & Sb).
  destruct (seed ok tld w cfg s) as [s1 [priority_urls|]]; [|done].
  simpl in Sv, Sr, Sb.
  destruct (process s1 (base_url cfg)) as [s2 [l|]] eqn:P; [|done].
  apply process_first in P; [|congruence..].
  assert (H2 : log_starts
                 (requests s ++ [(Upfront, base_url cfg); (Processing, base_url cfg)])
                 s2).
  { exists []. rewrite P, Sr, app_nil_r, <- app_assoc. reflexivity. }
  assert (H3 : log_starts
                 (requests s ++ [(Upfront, base_url cfg); (Processing, base_url cfg)])
                 (fst (fst (process_priority ok tld w cfg priority_urls s2
                              [base_url cfg])))).
  { apply (process_priority_preserves ok tld w cfg (log_starts _)); try done;
      first [ intros s0 o u; apply log_request_log_starts
            | intros s0 u; apply process_log_starts ]. }
  destruct (process_priority ok tld w cfg priority_urls s2 [base_url cfg])
    as [[s3 q] [|]]; [|done].
  intros _. simpl in H3.
  apply (drain_preserves ok tld w cfg (log_starts _)); try done;
    first [ intros s0 o u; apply log_request_log_starts
          | intros s0 u; apply process_log_starts ].
Qed.

End Crawl.

(** ** The work list *)

Lemma enqueue_spec (visited : gset string) (new_urls q : list string) :
  NoDup q ->
  NoDup (enqueue visited new_urls q)
  /\ q `prefix_of` enqueue visited new_urls q
  /\ forall x, x ∈ enqueue visited new_urls q
               <-> x ∈ q \/ (x ∈ new_urls /\ x ∉ visited).
Proof.
  revert q. induction new_urls as [|u l IH]; intros q Hq; simpl.
  - split; [exact Hq|]. split; [done|]. intros x. split; [now left|].
    intros [H|[H _]]; [exact H | now apply elem_of_nil in H].
  - destruct (bool_decide (u ∈ visited)) eqn:B; simpl.
    + apply bool_decide_eq_true_1 in B.
      destruct (IH q Hq) as (H1 & H2 & H3). split; [exact H1|].
      split; [exact H2|]. intros x. rewrite H3. set_solver.
    + apply bool_decide_eq_false_1 in B.
      destruct (str_in u q) eqn:S; simpl.
      * assert (Hu : u ∈ q).
        { unfold str_in in S. apply existsb_exists in S.
          destruct S as (y & Hy & E). apply String.eqb_eq in E. subst y.
          now apply list_elem_of_In. }
        destruct (IH q Hq) as (H1 & H2 & H3). split; [exact H1|].
        split; [exact H2|]. intros x. rewrite H3. set_solver.
      * assert (Hu : u ∉ q).
        { intros Hin. apply list_elem_of_In in Hin.
          assert (str_in u q = true); [|congruence].
          unfold str_in. apply existsb_exists. exists u.
          split; [exact Hin | apply String.eqb_refl]. }
        assert (Hq' : NoDup (q ++ [u])).
        { apply NoDup_app. split; [exact Hq|]. split; [|apply NoDup_singleton].
          intros x Hx Hx'. apply list_elem_of_singleton in Hx'. now subst x. }
        destruct (IH _ Hq') as (H1 & H2 & H3). split; [exact H1|].
        split; [etrans; [apply prefix_app_r; reflexivity | exact H2]|].
        intros x. rewrite H3. set_solver.
Qed.

End CrawlFacts.

(* ===================================================================== *)
(** * Further facts about the image downloader *)
(* ===================================================================== *)

Module ShelfFacts.
Import PyStr UrlLib Images Shelf StrFacts CharFacts ImagesFacts.

Section Downloader.

Variable ok : string -> bool.
Variable urljoin : string -> string -> option string.
Variable image_size : list Byte.byte -> option (Z * Z).
Variable str_hash : string -> Z.
Variable w : World.
Variable cfg : Config.

Local Abbreviation download := (_download_image ok image_size str_hash w cfg).
Local Abbreviation download_all := (_download_images ok image_size str_hash w cfg).
Local Abbreviation process :=
  (_process_url ok urljoin image_size str_hash w cfg).

(** ** What every step of [crawl] preserves *)

Section Kept.

Variable P : State -> Prop.
Hypothesis P_visited : forall s v, P s -> P (set_visited v s).
Hypothesis P_image_urls : forall s i, P s -> P (set_image_urls i s).
Hypothesis P_get : forall s u, P s -> P (fst (request w GET s u)).
Hypothesis P_sleep : forall s, P s -> P (sleep Delay s).
Hypothesis P_priority : forall s u, P s -> P (add_priority_page u s).
Hypothesis P_download : forall s u, P s -> P (download s u).

Lemma downloads_keep (l : list string) (s : State) :
  P s -> P (fold_left download l s).
Proof.
  revert s. induction l as [|u l IH]; intros s H; simpl; [exact H|].
  apply IH. now apply P_download.
Qed.

Lemma download_all_keeps (s : State) : P s -> P (download_all s).
Proof.
  intros H. unfold _download_images. apply P_image_urls. now apply downloads_keep.
Qed.

Lemma scan_imgs_keeps (u : string) (l : list Img) (s : State) :
  P s -> P (fst (scan_imgs urljoin u l s)).
Proof.
  revert s. induction l as [|img l IH]; intros s H; simpl; [exact H|].
  destruct (truthy (img_src img)) as [src|]; [|now apply IH].
  destruct (small_icon img) as [[|]|]; [now apply IH| |exact H].
  destruct (contains_any _ _); [now apply IH|].
  destruct (urljoin u src) as [a|]; [|exact H].
  assert (H1 : P (add_image_url a s)) by now apply P_image_urls.
  destruct (truthy (img_data_src img)) as [ds|]; [|now apply IH].
  destruct (urljoin u ds) as [b|]; [|exact H1].
  apply IH. now apply P_image_urls.
Qed.

Lemma scan_styled_keeps (u : string) (l : list Styled) (s : State) :
  P s -> P (fst (scan_styled urljoin u l s)).
Proof.
  revert s. induction l as [|e l IH]; intros s H; simpl; [exact H|].
  destruct (contains _ _); [|now apply IH].
  destruct (style_bg_url e) as [bg|]; [|now apply IH].
  destruct (urljoin u bg) as [a|]; [|exact H].
  apply IH. now apply P_image_urls.
Qed.

Lemma follow_links_keeps (rec : State -> string -> option State)
    (u : string) (l : list Link) (s s' : State) :
  (forall st a st', rec st a = Some st' -> P st -> P st') ->
  follow_links ok urljoin rec cfg u l s = Some s' -> P s -> P s'.
Proof.
  intros Hrec. revert s. induction l as [|link l IH]; intros s; simpl.
  - intros E. now injection E as <-.
  - destruct (truthy (href link)) as [h|]; [|apply IH].
    destruct (is_priority_link priority_keywords link h); [|apply IH].
    destruct (urljoin u h) as [a|]; [|intros E; now injection E as <-].
    destruct (urlparse ok a) as [p|]; [|intros E; now injection E as <-].
    destruct (_ && _); [|apply IH].
    destruct (rec (sleep Delay s) a) as [st|] eqn:R; simpl; [|discriminate].
    intros E H. apply (IH _ E). apply (Hrec _ _ _ R). now apply P_sleep.
Qed.

Lemma scan_page_keeps (rec : State -> string -> option State)
    (u : string) (pr : bool) (page : Page) (s s' : State) :
  (forall st a st', rec st a = Some st' -> P st -> P st') ->
  scan_page ok urljoin rec cfg u pr page s = Some s' -> P s -> P s'.
Proof.
  intros Hrec E H. unfold scan_page in E.
  pose proof (scan_imgs_keeps u (imgs page) s H) as H1.
  destruct (scan_imgs urljoin u (imgs page) s) as [s2 [|]]; simpl in H1;
    [|now injection E as <-].
  pose proof (scan_styled_keeps u (styled page) s2 H1) as H2.
  destruct (scan_styled urljoin u (styled page) s2) as [s3 [|]]; simpl in H2;
    [|now injection E as <-].
  destruct pr; [|now injection E as <-].
  now apply (follow_links_keeps rec u (links page) s3 s' Hrec E).
Qed.

Lemma process_keeps (fuel : nat) (s s' : State) (u : string) (pr : bool) :
  process fuel s u pr = Some s' -> P s -> P s'.
Proof.
  revert s s' u pr. induction fuel as [|fuel IH]; intros s s' u pr.
  - simpl. destruct (_ >=? _)%Z; [intros E; now injection E as <-|].
    destruct (bool_decide _); [intros E; now injection E as <- | discriminate].
  - cbn [_process_url].
    destruct (_ >=? _)%Z; [intros E; now injection E as <-|].
    destruct (bool_decide _); [intros E; now injection E as <-|].
    intros E H.
    set (s0 := set_visited ({[u]} ∪ visited_urls s) s) in *.
    assert (H1 : P (fst (request w GET s0 u))).
    { apply P_get. now apply P_visited. }
    destruct (request w GET s0 u) as [s1 got]. simpl in H1.
    destruct got as [|r]; simpl in E.
    + injection E as <-. now apply download_all_keeps.
    + destruct (is_error_status (status_code r)); simpl in E.
      * injection E as <-. now apply download_all_keeps.
      * destruct (scan_page ok urljoin _ cfg u pr (html r) s1) as [after|] eqn:S;
          simpl in E; [|discriminate].
        injection E as <-. apply download_all_keeps.
        apply (scan_page_keeps _ _ _ _ _ _ (fun st a st' => IH st st' a true) S H1).
Qed.

Lemma scan_priority_keeps (u : string) (l : list Link) (s : State) :
  P s -> P (scan_priority ok urljoin cfg u l s).
Proof.
  revert s. induction l as [|link l IH]; intros s H; simpl; [exact H|].
  destruct (truthy (href link)) as [h|]; [|now apply IH].
  destruct (is_priority_link landing_keywords link h); [|now apply IH].
  destruct (urljoin u h) as [a|]; [|exact H].
  destruct (urlparse ok a) as [p|]; [|exact H].
  destruct (String.eqb _ _); [|now apply IH].
  apply IH. now apply P_priority.
Qed.

Lemma identify_keeps (s : State) (u : string) :
  P s -> P (_identify_priority_pages ok urljoin w cfg s u).
Proof.
  intros H. unfold _identify_priority_pages.
  pose proof (P_get s u H) as H1.
  destruct (request w GET s u) as [s1 got]. simpl in H1.
  destruct got as [|r]; [exact H1|].
  destruct (is_error_status (status_code r)); [exact H1|].
  now apply scan_priority_keeps.
Qed.

Lemma process_priority_pages_keeps (fuel : nat) (l : list string) (s s' : State) :
  process_priority_pages ok urljoin image_size str_hash w cfg fuel l s = Some s' ->
  P s -> P s'.
Proof.
  revert s. induction l as [|u l IH]; intros s; simpl.
  - intros E. now injection E as <-.
  - destruct (_ && _); [|apply IH].
    destruct (process fuel s u true) as [s1|] eqn:R; simpl; [|discriminate].
    intros E H. apply (IH _ E). now apply (process_keeps _ _ _ _ _ R).
Qed.

Lemma crawl_keeps (fuel : nat) (s s' : State) :
  crawl ok urljoin image_size str_hash w cfg fuel s = Some s' ->
  P (reset s) -> P s'.
Proof.
  unfold crawl. fold (reset s). intros E H.
  pose proof (identify_keeps (reset s) (base_url cfg) H) as H1.
  destruct (process fuel _ (base_url cfg) true) as [s2|] eqn:R; simpl in E;
    [|discriminate].
  apply (process_priority_pages_keeps _ _ _ _ E).
  now apply (process_keeps _ _ _ _ _ R).
Qed.

End Kept.

(** ** The files of a crawl *)

Lemma digits_fuel_chars (d : ascii) (fuel n : nat) (acc : string) :
  (forall k, (k < 10)%nat -> Ascii.eqb (digit_char k) d = false) ->
  has_char d acc = false -> has_char d (digits_fuel fuel n acc) = false.
Proof.
  intros Hd. revert n acc.
  induction fuel as [|fuel IH]; intros n acc H; cbn [digits_fuel]; [exact H|].
  assert (H' : has_char d (String (digit_char (n mod 10)) acc) = false).
  { rewrite has_char_cons, H, Hd; [reflexivity|].
    apply Nat.mod_upper_bound. lia. }
  destruct (n / 10 =? 0)%nat; [exact H' | now apply IH].
Qed.

Lemma digit_not_slash (k : nat) :
  (k < 10)%nat -> Ascii.eqb (digit_char k) "/" = false.
Proof.
  intros H. do 10 (destruct k as [|k]; [reflexivity|]). lia.
Qed.

Lemma digit_not_dot (k : nat) :
  (k < 10)%nat -> Ascii.eqb (digit_char k) "." = false.
Proof.
  intros H. do 10 (destruct k as [|k]; [reflexivity|]). lia.
Qed.

Lemma rpartition_snd (c : ascii) (s : string) :
  has_char c (snd (rpartition c s)) = false.
Proof.
  induction s as [|a s IH]; [reflexivity|]. simpl.
  destruct (rpartition c s) as [[h|] t]; simpl in *; [exact IH|].
  destruct (Ascii.eqb a c) eqn:E; simpl; [exact IH | now rewrite E, IH].
Qed.

Lemma basename_no_slash (p : string) : has_char "/" (basename p) = false.
Proof. apply rpartition_snd. Qed.

(** the name that [_download_image] gives a file *)
Lemma download_name (u : string) (p : ParseResult) :
  let name :=
    if bad_filename (basename (path p))
    then "image_" +:+ str_of_nat (Z.to_nat (str_hash u mod 10000)) +:+ ".jpg"
    else basename (path p) in
  has_char "/" name = false /\ bad_filename name = false.
Proof.
  destruct (bad_filename (basename (path p))) eqn:B; simpl.
  - set (digits := str_of_nat _).
    assert (Hd : has_char "/" digits = false).
    { apply digits_fuel_chars; [apply digit_not_slash | reflexivity]. }
    split.
    + change (has_char "/" ("image_" +:+ digits +:+ ".jpg") = false).
      rewrite !has_char_app, Hd. reflexivity.
    + change (negb (has_char "." ("image_" +:+ digits +:+ ".jpg")) = false).
      rewrite !has_char_app. simpl. now rewrite orb_true_r.
  - split; [apply basename_no_slash | exact B].
Qed.

(** [_download_image] writes nothing, or one file into the image directory,
    counted once *)
Lemma download_writes (s : State) (u : string) :
  (writes (download s u) = writes s /\ disk (download s u) = disk s
   /\ downloaded_count (download s u) = downloaded_count s)
  \/ exists name data,
       has_char "/" name = false /\ bad_filename name = false
       /\ writes (download s u)
          = writes s ++ [(path_join (image_dir cfg) name, data)]
       /\ disk (download s u) = <[ path_join (image_dir cfg) name := data ]> (disk s)
       /\ downloaded_count (download s u) = (downloaded_count s + 1)%Z.
Proof.
  unfold _download_image, request. cbn [fst snd].
  destruct (w (requests s) GET u) as [|r]; [now left|].
  destruct (is_error_status (status_code r)); [now left|].
  destruct (negb _); [now left|].
  destruct (Qlt_bool _ _); [now left|].
  destruct (image_size (content r)) as [[wd ht]|]; [|now left].
  destruct (_ || _); [now left|].
  destruct (urlparse ok u) as [p|]; [|now left].
  unfold write_file. destruct (Os.open_wb _ _); [|now left].
  right. destruct (download_name u p) as [N1 N2].
  eexists _, (content r). split; [exact N1|]. split; [exact N2|]. now repeat split.
Qed.

Lemma size_list_to_set_le (l : list string) :
  (size (list_to_set l : gset string) <= length l)%nat.
Proof.
  induction l as [|x l IH].
  - rewrite list_to_set_nil, size_empty. reflexivity.
  - rewrite list_to_set_cons, size_union_alt, size_singleton. simpl.
    assert (size (list_to_set l ∖ {[x]} : gset string)
            <= size (list_to_set l : gset string))%nat
      by (apply subseteq_size; set_solver).
    lia.
Qed.

Lemma download_tidy (s : State) (u : string) : tidy cfg s -> tidy cfg (download s u).
Proof.
  intros (H1 & H2 & H3). unfold tidy.
  destruct (download_writes s u)
    as [(-> & -> & ->) | (name & data & N1 & N2 & -> & -> & ->)]; [done|].
  split; [|split].
  - rewrite H1, length_app. simpl. lia.
  - apply Forall_app. split; [exact H2|]. repeat constructor. now exists name.
  - rewrite dom_insert, map_app, list_to_set_app, H3. simpl. set_solver.
Qed.

Lemma download_quiet (s : State) (u : string) : quiet s -> quiet (download s u).
Proof.
  intros [H1 H2]. destruct (download_frame ok image_size str_hash w cfg s u)
    as (_ & _ & _ & Hr & Hp).
  split; [rewrite Hr | now rewrite Hp].
  apply Forall_app. split; [exact H1 | now repeat constructor].
Qed.

Lemma download_log_starts (l : list (Method * string)) (s : State) (u : string) :
  log_starts l s -> log_starts l (download s u).
Proof.
  intros [rest H]. destruct (download_frame ok image_size str_hash w cfg s u)
    as (_ & _ & _ & Hr & _).
  exists (rest ++ [(GET, u)]). now rewrite Hr, H, app_assoc.
Qed.

Lemma tidy_initial : tidy cfg (reset initial_state).
Proof.
  split; [reflexivity|]. split; [simpl; constructor|].
  simpl. rewrite dom_empty. reflexivity.
Qed.

Lemma crawl_tidy (fuel : nat) (s s' : State) :
  crawl ok urljoin image_size str_hash w cfg fuel s = Some s' ->
  tidy cfg (reset s) -> tidy cfg s'.
Proof.
  apply (crawl_keeps (tidy cfg)); try done.
  intros s0 u. apply download_tidy.
Qed.

Lemma crawl_quiet (fuel : nat) (s s' : State) :
  crawl ok urljoin image_size str_hash w cfg fuel s = Some s' ->
  quiet (reset s) -> quiet s'.
Proof.
  apply (crawl_keeps quiet); try done.
  - intros s0 u [H1 H2]. split; [|exact H2]. simpl.
    apply Forall_app. split; [exact H1 | now repeat constructor].
  - intros s0 [H1 H2]. split; [exact H1|]. simpl.
    apply Forall_app. split; [exact H2 | now repeat constructor].
  - intros s0 u. apply download_quiet.
Qed.

Lemma page_log_starts (l : list (Method * string)) (fuel : nat)
    (s s' : State) (u : string) (pr : bool) :
  process fuel s u pr = Some s' -> log_starts l s -> log_starts l s'.
Proof.
  apply (process_keeps (log_starts l)); try done.
  - intros s0 a [rest H]. exists (rest ++ [(GET, a)]). simpl.
    now rewrite H, app_assoc.
  - intros s0 a. apply download_log_starts.
Qed.

Lemma process_priority_pages_log_starts (l : list (Method * string)) (fuel : nat)
    (pages : list string) (s s' : State) :
  process_priority_pages ok urljoin image_size str_hash w cfg fuel pages s = Some s' ->
  log_starts l s -> log_starts l s'.
Proof.
  apply (process_priority_pages_keeps (log_starts l)); try done.
  - intros s0 a [rest H]. exists (rest ++ [(GET, a)]). simpl.
    now rewrite H, app_assoc.
  - intros s0 a. apply download_log_starts.
Qed.

Lemma scan_priority_requests (u : string) (l : list Link) (s : State) :
  requests (scan_priority ok urljoin cfg u l s) = requests s.
Proof.
  revert s. induction l as [|link l IH]; intros s; simpl; [done|].
  destruct (truthy (href link)) as [h|]; [|apply IH].
  destruct (is_priority_link landing_keywords link h); [|apply IH].
  destruct (urljoin u h) as [a|]; [|done].
  destruct (urlparse ok a) as [p|]; [|done].
  destruct (String.eqb _ _); [now rewrite IH | apply IH].
Qed.

Lemma identify_requests (s : State) (u : string) :
  requests (_identify_priority_pages ok urljoin w cfg s u)
  = requests s ++ [(GET, u)].
Proof.
  unfold _identify_priority_pages, request. cbn [fst snd].
  destruct (w (requests s) GET u) as [|r]; [done|].
  destruct (is_error_status (status_code r)); [done|].
  now rewrite scan_priority_requests.
Qed.

(** the first call of [_process_url] in a crawl asks for the page *)
Lemma first_page_requested (fuel : nat) (s s' : State) (u : string) (pr : bool) :
  visited_urls s = ∅ -> (0 < max_pages cfg)%Z ->
  process fuel s u pr = Some s' ->
  log_starts (requests s ++ [(GET, u)]) s'.
Proof.
  intros Hv Hm. destruct fuel as [|fuel]; cbn [_process_url];
    rewrite Hv, size_empty;
    (destruct (_ >=? _)%Z eqn:C;
       [rewrite Z.geb_leb in C; apply Z.leb_le in C; simpl in C; lia|]);
    rewrite bool_decide_eq_false_2 by set_solver; [discriminate|].
  set (s0 := set_visited _ s).
  assert (H1 : log_starts (requests s ++ [(GET, u)]) (fst (request w GET s0 u))).
  { exists []. simpl. now rewrite app_nil_r. }
  destruct (request w GET s0 u) as [s1 got]. simpl in H1.
  assert (Hd : forall st, log_starts (requests s ++ [(GET, u)]) st ->
                 log_starts (requests s ++ [(GET, u)]) (download_all st)).
  { intros st. apply (download_all_keeps (log_starts _)); try done.
    intros s2 a. apply download_log_starts. }
  destruct got as [|r]; simpl.
  - intros E. injection E as <-. now apply Hd.
  - destruct (is_error_status (status_code r)); simpl.
    + intros E. injection E as <-. now apply Hd.
    + destruct (scan_page ok urljoin _ cfg u pr (html r) s1) as [after|] eqn:S;
        simpl; [|discriminate].
      intros E. injection E as <-. apply Hd.
      apply (scan_page_keeps (log_starts (requests s ++ [(GET, u)]))) in S;
        try done.
      intros st a st'. apply page_log_starts.
Qed.

Lemma image_crawl_log_starts (fuel : nat) (s s' : State) :
  (0 < max_pages cfg)%Z ->
  crawl ok urljoin image_size str_hash w cfg fuel s = Some s' ->
  log_starts (requests s ++ [(GET, base_url cfg); (GET, base_url cfg)]) s'.
Proof.
  intros Hm. unfold crawl. fold (reset s).
  set (s1 := _identify_priority_pages ok urljoin w cfg (reset s) (base_url cfg)).
  assert (Hr : requests s1 = requests s ++ [(GET, base_url cfg)]).
  { unfold s1. now rewrite identify_requests. }
  assert (Hv : visited_urls s1 = ∅).
  { unfold s1. now rewrite identify_visited. }
  destruct (process fuel s1 (base_url cfg) true) as [s2|] eqn:R; simpl;
    [|discriminate].
  apply first_page_requested in R; [|done..]. rewrite Hr, <- app_assoc in R.
  intros E. now apply (process_priority_pages_log_starts _ _ _ _ _ E).
Qed.

End Downloader.

End ShelfFacts.

(* ===================================================================== *)
(** * Facts about the folder and file names *)
(* ===================================================================== *)

Module PathFacts.
Import PyStr UrlLib Images Paths StrFacts CharFacts.

Lemma startswith_cons (a b : ascii) (p s : string) :
  startswith (String a p) (String b s) = Ascii.eqb a b && startswith p s.
Proof. reflexivity. Qed.

Lemma slice_to_length (n : nat) (s : string) : (String.length (slice_to n s) <= n)%nat.
Proof.
  revert s. induction n as [|n IH]; intros [|a s]; simpl; try lia.
  specialize (IH s). lia.
Qed.

Lemma limit_length (n : nat) (s : string) : (String.length (limit n s) <= n)%nat.
Proof.
  unfold limit. destruct (n <? String.length s)%nat eqn:E.
  - apply slice_to_length.
  - apply Nat.ltb_ge in E. exact E.
Qed.

Lemma slice_to_chars (d : ascii) (n : nat) (s : string) :
  has_char d s = false -> has_char d (slice_to n s) = false.
Proof.
  revert s. induction n as [|n IH]; intros [|a s]; simpl; try reflexivity.
  intros H. apply orb_false_iff in H. destruct H as [Ha Hs].
  now rewrite Ha, IH.
Qed.

Lemma limit_chars (d : ascii) (n : nat) (s : string) :
  has_char d s = false -> has_char d (limit n s) = false.
Proof.
  intros H. unfold limit. destruct (_ <? _)%nat; [now apply slice_to_chars | exact H].
Qed.

Lemma slice_to_first (c : ascii) (n : nat) (s : string) :
  startswith (String c "") s = false ->
  startswith (String c "") (slice_to n s) = false.
Proof.
  destruct n as [|n]; destruct s as [|a s]; try reflexivity.
  simpl. rewrite !startswith_cons. now destruct (Ascii.eqb c a).
Qed.

Lemma limit_first (c : ascii) (n : nat) (s : string) :
  startswith (String c "") s = false ->
  startswith (String c "") (limit n s) = false.
Proof.
  intros H. unfold limit. destruct (_ <? _)%nat; [now apply slice_to_first | exact H].
Qed.

Lemma sanitize_chars (d : ascii) (s : string) :
  is_reserved d = true -> has_char d (sanitize s) = false.
Proof.
  intros Hd. induction s as [|a s IH]; [reflexivity|]. simpl. rewrite IH.
  destruct (is_reserved a) eqn:Ha.
  - destruct (Ascii.eqb "_" d) eqn:E; [|reflexivity].
    apply Ascii.eqb_eq in E. subst d. discriminate.
  - destruct (Ascii.eqb a d) eqn:E; [|reflexivity].
    apply Ascii.eqb_eq in E. congruence.
Qed.

Lemma sanitize_first (s : string) : startswith "/" (sanitize s) = false.
Proof.
  destruct s as [|a s]; [reflexivity|]. simpl. rewrite startswith_cons.
  destruct (is_reserved a) eqn:Ha; [reflexivity|].
  destruct (Ascii.eqb "/" a) eqn:E; [|reflexivity].
  apply Ascii.eqb_eq in E. subst a. discriminate.
Qed.

Lemma replace_char_chars (d old new : ascii) (s : string) :
  Ascii.eqb new d = false -> has_char d s = false ->
  has_char d (replace_char old new s) = false.
Proof.
  intros Hn. induction s as [|a s IH]; [reflexivity|]. simpl. intros H.
  apply orb_false_iff in H. destruct H as [Ha Hs]. rewrite (IH Hs).
  destruct (Ascii.eqb a old); now rewrite ?Hn, ?Ha.
Qed.

Lemma replace_char_gone (old new : ascii) (s : string) :
  Ascii.eqb new old = false -> has_char old (replace_char old new s) = false.
Proof.
  intros Hn. induction s as [|a s IH]; [reflexivity|]. simpl. rewrite IH.
  destruct (Ascii.eqb a old) eqn:E; now rewrite ?Hn, ?E.
Qed.

Lemma has_char_first (c : ascii) (s : string) :
  has_char c s = false -> startswith (String c "") s = false.
Proof.
  destruct s as [|a s]; [reflexivity|]. simpl. intros H.
  apply orb_false_iff in H. destruct H as [Ha _].
  rewrite startswith_cons, Ascii.eqb_sym, Ha. reflexivity.
Qed.

Lemma startswith_app (c : ascii) (s t : string) :
  startswith (String c "") s = false ->
  startswith (String c "") t = false ->
  startswith (String c "") (s +:+ t) = false.
Proof. destruct s as [|a s]; [now intros _ | now intros H _]. Qed.

Lemma startswith_prefix (x t : string) : startswith x (x +:+ t) = true.
Proof.
  induction x as [|a x IH]; [reflexivity|].
  change (String a x +:+ t) with (String a (x +:+ t)).
  rewrite startswith_cons, Ascii.eqb_refl. exact IH.
Qed.

Lemma contains_cons (sub : string) (a : ascii) (s : string) :
  contains sub (String a s) = startswith sub (String a s) || contains sub s.
Proof. reflexivity. Qed.

Lemma contains_infix (x pre suf : string) :
  contains x (pre +:+ x +:+ suf) = true.
Proof.
  induction pre as [|a pre IH].
  - change ("" +:+ x +:+ suf) with (x +:+ suf).
    destruct (x +:+ suf) as [|b r] eqn:E.
    + destruct x; [reflexivity | discriminate].
    + rewrite contains_cons, <- E, startswith_prefix. reflexivity.
  - change (String a pre +:+ x +:+ suf) with (String a (pre +:+ x +:+ suf)).
    rewrite contains_cons, IH. apply orb_true_r.
Qed.

Lemma rpartition_absent (c : ascii) (s : string) :
  has_char c s = false -> rpartition c s = (None, s).
Proof.
  induction s as [|a s IH]; [reflexivity|]. simpl. intros H.
  apply orb_false_iff in H. destruct H as [Ha Hs]. now rewrite (IH Hs), Ha.
Qed.

Lemma rpartition_app_last (c : ascii) (s t : string) :
  has_char c t = false -> rpartition c (s +:+ String c t) = (Some s, t).
Proof.
  intros H. induction s as [|a s IH].
  - change ("" +:+ String c t) with (String c t). simpl.
    now rewrite (rpartition_absent c t H), Ascii.eqb_refl.
  - change (String a s +:+ String c t) with (String a (s +:+ String c t)).
    simpl. now rewrite IH.
Qed.

Lemma basename_join (dir name : string) :
  has_char "/" name = false -> basename (dir +:+ String "/" name) = name.
Proof. intros H. unfold basename. now rewrite rpartition_app_last. Qed.

Lemma all_dots_no_underscore (s : string) :
  has_char "_" s = true -> all_chars (fun c => Ascii.eqb c ".") s = false.
Proof.
  induction s as [|a s IH]; [discriminate|]. simpl. intros H.
  apply orb_true_iff in H. destruct H as [H|H].
  - apply Ascii.eqb_eq in H. now subst a.
  - rewrite (IH H). apply andb_false_r.
Qed.

Lemma str_of_nat_chars (d : ascii) (n : nat) :
  (forall k, (k < 10)%nat -> Ascii.eqb (digit_char k) d = false) ->
  has_char d (str_of_nat n) = false.
Proof.
  intros H. unfold str_of_nat. now apply ShelfFacts.digits_fuel_chars.
Qed.

(** a path under a data directory, written out *)
Lemma data_dir_join (d name : string) :
  d = "scraped" \/ d = "structured" -> startswith "/" name = false ->
  path_join (data_dir d) name = ("MCP/data/" +:+ d) +:+ String "/" name.
Proof.
  intros [-> | ->] H; unfold path_join; rewrite H; reflexivity.
Qed.

Section Folder.

Variable ok : string -> bool.

Lemma netloc_no_slash (u : string) (p : ParseResult) :
  urlparse ok u = Some p -> has_char "/" (netloc p) = false.
Proof.
  unfold urlparse, urlsplit.
  destruct (split_scheme (clean u)) as [sch url1].
  pose proof (split_netloc_fst "/" url1 eq_refl) as Hn.
  destruct (split_netloc url1) as [net url2].
  destruct (netloc_ok ok net); [|discriminate].
  destruct (partition "#" url2) as [url3 frag].
  destruct (partition "?" url3) as [url4 qry].
  cbn [fst snd s_scheme s_netloc s_path s_query s_fragment] in *.
  destruct (_ && _); [destruct (splitparams url4)|];
    intros E; now injection E as <-.
Qed.

Lemma folder_name_shape (u f : string) :
  _get_folder_name_from_url ok u = Some f ->
  (String.length f <= 100)%nat /\ has_char "/" f = false
  /\ startswith "." f = false.
Proof.
  unfold _get_folder_name_from_url.
  destruct (urlparse ok u) as [p|] eqn:Hp; [|discriminate]. simpl.
  intros E. injection E as <-.
  pose proof (netloc_no_slash u p Hp) as Hn.
  set (host := replace_char "." "_" (netloc p)).
  assert (H1 : has_char "/" host = false) by now apply replace_char_chars.
  assert (H2 : has_char "." host = false) by now apply replace_char_gone.
  set (tail := limit 50 (sanitize (strip_char "/" (path p)))).
  assert (H3 : has_char "/" tail = false)
    by (apply limit_chars; now apply sanitize_chars).
  split; [apply limit_length|].
  destruct (_ && _).
  - split.
    + apply limit_chars. rewrite has_char_app, H1.
      change ("_" +:+ tail) with (String "_" tail). now rewrite has_char_cons, H3.
    + apply limit_first. apply startswith_app; [now apply has_char_first|].
      reflexivity.
  - split; [now apply limit_chars|]. apply limit_first. now apply has_char_first.
Qed.

Lemma folder_name_raises (u : string) :
  _get_folder_name_from_url ok u = None <-> urlparse ok u = None.
Proof.
  unfold _get_folder_name_from_url. now destruct (urlparse ok u).
Qed.

(** a limit of a hundred characters leaves a name empty only when it
    is *)
Lemma limit_empty (n : nat) (s : string) :
  limit (S n) s = "" <-> s = "".
Proof.
  unfold limit. destruct s as [|a s]; [now destruct (_ <? _)%nat|].
  now destruct (_ <? _)%nat.
Qed.

(** the folder name is empty for a URL without a host whose path is
    empty or the root, and for no other *)
Lemma folder_name_empty (u f : string) (p : ParseResult) :
  urlparse ok u = Some p -> _get_folder_name_from_url ok u = Some f ->
  f = "" <-> netloc p = "" /\ (path p = "" \/ path p = "/").
Proof.
  unfold _get_folder_name_from_url. intros Hp. rewrite Hp.
  cbn [mbind option_bind].
  intros E. injection E as <-. rewrite limit_empty.
  assert (Hhost : replace_char "." "_" (netloc p) = "" <-> netloc p = "")
    by (destruct (netloc p); split; intros H; try reflexivity; discriminate).
  destruct (String.eqb (path p) "/") eqn:Eroot.
  - apply String.eqb_eq in Eroot. rewrite Eroot.
    cbn [Scraper.is_empty negb andb]. rewrite Hhost. tauto.
  - destruct (path p) as [|c r] eqn:Epath; cbn [Scraper.is_empty negb andb].
    + rewrite Hhost. tauto.
    + split.
      * destruct (replace_char "." "_" (netloc p)); discriminate.
      * intros [_ [H | H]]; [discriminate|].
        rewrite H, String.eqb_refl in Eroot. discriminate.
Qed.

(** the file that [save_markdown_content] writes, the copy that
    [structure_content] writes of it, and the id read off its name *)
Lemma saved_names (fs : Os.FileSystem) (structured : option bool)
    (u : string) (p : ParseResult) (timestamp : nat) :
  urlparse ok u = Some p ->
  let stem := sanitize (netloc p) +:+ "_" +:+ str_of_nat timestamp in
  let scraped := "MCP/data/scraped/" +:+ stem +:+ ".json" in
  let copy := "MCP/data/structured/" +:+ stem +:+ ".json" in
  has_char "/" stem = false
  /\ save_markdown_content ok fs u timestamp
     = (if Os.makedirs fs "MCP/data/scraped" && Os.dump_json fs scraped
        then Some scraped else None)
  /\ structure_content fs structured scraped
     = (if bool_decide (is_Some structured)
           && Os.makedirs fs "MCP/data/structured" && Os.dump_json fs copy
        then Some copy else None)
  /\ filename_id copy = stem.
Proof.
  intros Hp stem scraped copy. subst scraped copy.
  assert (Hd : has_char "/" (str_of_nat timestamp) = false)
    by (apply str_of_nat_chars, ShelfFacts.digit_not_slash).
  assert (Hdot : has_char "." (str_of_nat timestamp) = false)
    by (apply str_of_nat_chars, ShelfFacts.digit_not_dot).
  assert (Hs : has_char "/" stem = false).
  { unfold stem. rewrite has_char_app, sanitize_chars by reflexivity.
    change ("_" +:+ str_of_nat timestamp) with (String "_" (str_of_nat timestamp)).
    now rewrite has_char_cons, Hd. }
  assert (Hn : has_char "/" (stem +:+ ".json") = false)
    by now rewrite has_char_app, Hs.
  assert (Hf : startswith "/" (stem +:+ ".json") = false)
    by now apply has_char_first.
  assert (Hj : forall d, ("MCP/data/" +:+ d) +:+ String "/" (stem +:+ ".json")
                         = ("MCP/data/" +:+ d +:+ "/") +:+ stem +:+ ".json").
  { intros d. rewrite !append_assoc. reflexivity. }
  assert (Hname : stem +:+ ".json"
                  = sanitize (netloc p) +:+ "_" +:+ str_of_nat timestamp +:+ ".json")
    by (unfold stem; now rewrite !append_assoc).
  split; [exact Hs|]. split; [|split].
  - unfold save_markdown_content. rewrite Hp. cbn [mbind option_bind].
    rewrite <- Hname, data_dir_join by (auto; exact Hf).
    change (data_dir "scraped") with "MCP/data/scraped".
    change (("MCP/data/" +:+ "scraped") +:+ String "/" (stem +:+ ".json"))
      with ("MCP/data/scraped/" +:+ stem +:+ ".json").
    destruct (Os.makedirs fs "MCP/data/scraped"); [|reflexivity].
    now destruct (Os.dump_json fs _).
  - unfold structure_content, save_structured_content.
    destruct structured as [valid_json|]; [|reflexivity]. cbn [mbind option_bind].
    change ("MCP/data/scraped/" +:+ stem +:+ ".json")
      with ("MCP/data/scraped" +:+ String "/" (stem +:+ ".json")).
    rewrite basename_join by exact Hn.
    rewrite data_dir_join by (auto; exact Hf).
    change (data_dir "structured") with "MCP/data/structured".
    change (("MCP/data/" +:+ "structured") +:+ String "/" (stem +:+ ".json"))
      with ("MCP/data/structured/" +:+ stem +:+ ".json").
    rewrite bool_decide_eq_true_2 by (now eexists).
    destruct (Os.makedirs fs "MCP/data/structured"); [|reflexivity].
    destruct valid_json; now destruct (Os.dump_json fs _).
  - unfold filename_id.
    change ("MCP/data/structured/" +:+ stem +:+ ".json")
      with ("MCP/data/structured" +:+ String "/" (stem +:+ ".json")).
    rewrite basename_join by exact Hn.
    change (stem +:+ ".json") with (stem +:+ String "." "json").
    rewrite rpartition_app_last by reflexivity.
    rewrite all_dots_no_underscore; [reflexivity|].
    unfold stem. rewrite has_char_app.
    change ("_" +:+ str_of_nat timestamp) with (String "_" (str_of_nat timestamp)).
    rewrite has_char_cons. simpl. apply orb_true_r.
Qed.

End Folder.

End PathFacts.

(* ===================================================================== *)
(** * Facts about the page scan and the image probe *)
(* ===================================================================== *)

Module ProbeFacts.
Import PyStr UrlLib Images Probe Shelf ImagesFacts ShelfFacts.

Section Downloader.

Variable ok : string -> bool.
Variable urljoin : string -> string -> option string.
Variable image_size : list Byte.byte -> option (Z * Z).
Variable md5_hexdigest : list Byte.byte -> string.
Variable str_hash : string -> Z.
Variable w : World.
Variable cfg : Config.

Local Abbreviation download_all := (_download_images ok image_size str_hash w cfg).
Local Abbreviation process :=
  (_process_url ok urljoin image_size str_hash w cfg).
Local Abbreviation info := (get_image_info image_size w cfg).

(** ** [get_image_info] *)

Lemma info_requests (s : State) (u : string) :
  (requests (fst (info s u)) = requests s ++ [(HEAD, u)]
   /\ is_valid (snd (info s u)) = false)
  \/ requests (fst (info s u)) = requests s ++ [(HEAD, u); (GET, u)].
Proof.
  unfold get_image_info, request. cbn [fst snd].
  destruct (w (requests s) HEAD u) as [|h]; [now left|].
  destruct (negb _); [now left|].
  destruct (content_length h) as [[z|]|]; [|now left|];
    (destruct (_ && _); [now left|]); right; cbn [fst snd];
    (destruct (w _ GET u) as [|g]; [simpl; now rewrite <- app_assoc|]);
    (destruct (_ <? _)%Z; [simpl; now rewrite <- app_assoc|]);
    (destruct (image_size (content g)) as [[wd ht]|];
       [|simpl; now rewrite <- app_assoc]);
    destruct (_ || _); simpl; now rewrite <- app_assoc.
Qed.

Lemma info_small_header (s : State) (u : string) (h : HttpResponse) (z : Z) :
  w (requests s) HEAD u = Answer h ->
  startswith "image/" (content_type_of h) = true ->
  content_length h = Some (Some z) -> (0 < z < min_size_kb cfg * 1024)%Z ->
  info s u = (fst (request w HEAD s u), mkInfo false (content_type_of h) 0 0 z).
Proof.
  intros Hw Ht Hl Hz. unfold get_image_info, request. cbn [fst snd].
  rewrite Hw, Ht, Hl. simpl.
  replace (z >? 0)%Z with true by (symmetry; apply Z.gtb_lt; lia).
  replace (z <? min_size_kb cfg * 1024)%Z with true
    by (symmetry; apply Z.ltb_lt; lia).
  reflexivity.
Qed.

Lemma info_accepts (s : State) (u : string) :
  is_valid (snd (info s u)) = true ->
  exists h g wd ht,
    w (requests s) HEAD u = Answer h
    /\ w (requests s ++ [(HEAD, u)]) GET u = Answer g
    /\ startswith "image/" (content_type_of h) = true
    /\ image_size (content g) = Some (wd, ht)
    /\ accepted cfg (content_type_of h) wd ht (size_bytes_of g) (snd (info s u)).
Proof.
  unfold get_image_info, request. cbn [fst snd].
  destruct (w (requests s) HEAD u) as [|h]; [discriminate|].
  destruct (startswith "image/" (content_type_of h)) eqn:Ht; [|discriminate].
  cbn [negb].
  destruct (content_length h) as [[z|]|]; [|discriminate|];
    (destruct (_ && _); [discriminate|]); simpl;
    (destruct (w (requests s ++ [(HEAD, u)]) GET u) as [|g] eqn:Hg;
       [simpl; discriminate|]);
    (destruct (size_bytes_of g <? min_size_kb cfg * 1024)%Z eqn:Hs;
       [simpl; discriminate|]);
    (destruct (image_size (content g)) as [[wd ht]|] eqn:Hi;
       [|simpl; discriminate]);
    (destruct ((wd <? min_width cfg) || (ht <? min_height cfg))%Z eqn:Hd;
       [simpl; discriminate|]);
    intros _; exists h, g, wd, ht;
    apply Z.ltb_ge in Hs; apply orb_false_iff in Hd; destruct Hd as [Hd1 Hd2];
    apply Z.ltb_ge in Hd1; apply Z.ltb_ge in Hd2;
    repeat (split; [first [reflexivity | assumption]|]); assumption.
Qed.

(** ** The scan of the [img] elements *)

Lemma scan_imgs_content (u : string) (l : list Img) (s : State) (x : string) :
  x ∈ image_urls (fst (scan_imgs urljoin u l s)) ->
  x ∈ image_urls s \/ exists img, img ∈ l /\ content_image urljoin u img x.
Proof.
  revert s. induction l as [|img l IH]; intros s; simpl; [now left|].
  assert (K : forall st,
            (x ∈ image_urls st ->
             x ∈ image_urls s
             \/ exists i, i ∈ img :: l /\ content_image urljoin u i x) ->
            x ∈ image_urls (fst (scan_imgs urljoin u l st)) ->
            x ∈ image_urls s
            \/ exists i, i ∈ img :: l /\ content_image urljoin u i x).
  { intros st Hst Hx. destruct (IH st Hx) as [H | (i & Hi & H)]; [now apply Hst|].
    right. exists i. split; [now right | exact H]. }
  destruct (truthy (img_src img)) as [src|] eqn:Hsrc; [|apply K; now left].
  destruct (small_icon img) as [[|]|] eqn:Hicon;
    [apply K; now left | | now left].
  destruct (contains_any decoration_patterns (lower src)) eqn:Hdec;
    [apply K; now left|].
  destruct (urljoin u src) as [a|] eqn:Ha; [|now left].
  assert (Ka : x ∈ image_urls (add_image_url a s) ->
               x ∈ image_urls s
               \/ exists i, i ∈ img :: l /\ content_image urljoin u i x).
  { simpl. intros Hx. apply elem_of_union in Hx. destruct Hx as [Hx|Hx]; [|now left].
    apply elem_of_singleton in Hx. subst x. right. exists img.
    split; [now left|]. exists src. repeat split; try assumption. now left. }
  destruct (truthy (img_data_src img)) as [ds|] eqn:Hds; [|now apply K].
  destruct (urljoin u ds) as [b|] eqn:Hb; [|exact Ka].
  apply K. simpl. intros Hx. apply elem_of_union in Hx.
  destruct Hx as [Hx|Hx]; [|now apply Ka].
  apply elem_of_singleton in Hx. subst x. right. exists img.
  split; [now left|]. exists src. repeat split; try assumption.
  right. now exists ds.
Qed.

Lemma scan_imgs_malformed (u : string) (l : list Img) (s : State) (img : Img) :
  img ∈ l -> malformed_width img -> snd (scan_imgs urljoin u l s) = false.
Proof.
  intros Hin ([src Hsrc] & Hw & [ht Hh]). revert s.
  induction l as [|i l IH]; intros s; [now apply elem_of_nil in Hin|].
  apply elem_of_cons in Hin. destruct Hin as [<- | Hin].
  - simpl. rewrite Hsrc. unfold small_icon. now rewrite Hw, Hh.
  - specialize (IH Hin). simpl.
    destruct (truthy (img_src i)) as [isrc|]; [|apply IH].
    destruct (small_icon i) as [[|]|]; [apply IH| |reflexivity].
    destruct (contains_any _ _); [apply IH|].
    destruct (urljoin u isrc) as [a|]; [|reflexivity].
    destruct (truthy (img_data_src i)) as [ds|]; [|apply IH].
    destruct (urljoin u ds) as [b|]; [apply IH | reflexivity].
Qed.

(** a page with such an [img] element: its links are not followed *)
Lemma process_malformed (fuel : nat) (s : State) (u : string) (r : HttpResponse)
    (img : Img) :
  (Z.of_nat (size (visited_urls s)) < max_pages cfg)%Z -> u ∉ visited_urls s ->
  w (requests s) GET u = Answer r -> is_error_status (status_code r) = false ->
  img ∈ imgs (html r) -> malformed_width img ->
  exists s', process (S fuel) s u true = Some s'
             /\ visited_urls s' = {[ u ]} ∪ visited_urls s
             /\ pauses s' = pauses s.
Proof.
  intros Hcap Hv Hw He Hin Hm. cbn [_process_url].
  replace (_ >=? _)%Z with false
    by (symmetry; rewrite Z.geb_leb; apply Z.leb_gt; lia).
  rewrite bool_decide_eq_false_2 by exact Hv.
  unfold request. cbn [fst snd].
  change (requests (set_visited ({[u]} ∪ visited_urls s) s)) with (requests s).
  rewrite Hw, He. cbn [mbind option_bind].
  unfold scan_page.
  set (s1 := mkState _ _ _ _ _ _ _ _).
  pose proof (scan_imgs_malformed u (imgs (html r)) s1 img Hin Hm) as Hf.
  assert (Hs2 : visited_urls (fst (scan_imgs urljoin u (imgs (html r)) s1))
                = {[u]} ∪ visited_urls s
                /\ pauses (fst (scan_imgs urljoin u (imgs (html r)) s1)) = pauses s).
  { apply (scan_imgs_keeps urljoin
             (fun st => visited_urls st = {[u]} ∪ visited_urls s
                        /\ pauses st = pauses s)); done. }
  destruct (scan_imgs urljoin u (imgs (html r)) s1) as [s2 flag].
  simpl in Hf, Hs2. subst flag. simpl. eexists. split; [reflexivity|].
  apply (download_all_keeps ok image_size str_hash w cfg
           (fun st => visited_urls st = {[u]} ∪ visited_urls s
                      /\ pauses st = pauses s)); try done.
  intros st a [H1 H2].
  destruct (download_frame ok image_size str_hash w cfg st a)
    as (Dv & _ & _ & _ & Dp).
  now rewrite Dv, Dp.
Qed.

(** ** [download_image] over a list of URLs *)

Lemma downloads_keep_distinct (max_retries : Z) (urls : list string) (s : State) :
  Terms.hashes_distinct md5_hexdigest s ->
  Terms.hashes_distinct md5_hexdigest
    (fold_left (fun st u =>
                  fst (download_image ok urljoin image_size md5_hexdigest w cfg
                         max_retries st u)) urls s).
Proof.
  revert s. induction urls as [|u urls IH]; intros s H; simpl; [exact H|].
  apply IH. now apply download_image_keeps_distinct.
Qed.

End Downloader.

End ProbeFacts.

(* ===================================================================== *)
(** * Facts about the scope of the two crawls *)
(* ===================================================================== *)

Module ScopeFacts.
Import PyStr UrlLib Scope.

Section Text.
Import Scraper ScraperFacts CrawlFacts.

Variable ok : string -> bool.
Variable tld : string -> ExtractResult.
Variable w : World.
Variable cfg : Config.

Local Abbreviation process := (_process_url ok tld w cfg).
Local Abbreviation scoped := (in_scope ok tld cfg).
Local Abbreviation logged := (requests_in_scope ok tld cfg).

Lemma collect_links_scope (visited : gset string) (unique : bool)
    (links acc out : list string) :
  collect_links ok tld cfg visited unique links acc = Some out ->
  Forall scoped acc -> Forall scoped out.
Proof.
  intros E Hacc. apply Forall_forall. intros n Hn.
  destruct (collect_links_new ok tld cfg _ _ _ _ _ E n Hn)
    as [H | (_ & link & _ & Hv & Hl)].
  - rewrite Forall_forall in Hacc. now apply Hacc.
  - right. now exists link.
Qed.

Lemma log_request_scope (s : State) (o : Origin) (u : string) :
  scoped u -> logged s -> logged (log_request o u s).
Proof.
  intros Hu H o' u' Hin. simpl in Hin. apply elem_of_app in Hin.
  destruct Hin as [Hin|Hin]; [now apply (H o')|].
  apply list_elem_of_singleton in Hin. now injection Hin as -> ->.
Qed.

Lemma process_scope (s : State) (u : string) :
  scoped u -> logged s ->
  logged (fst (process s u))
  /\ forall l, snd (process s u) = Some l -> Forall scoped l.
Proof.
  intros Hu H. split.
  - intros o' u' Hin.
    destruct (process_requests ok tld w cfg s u) as [E|E]; rewrite E in Hin.
    + now apply (H o').
    + apply elem_of_app in Hin. destruct Hin as [Hin|Hin]; [now apply (H o')|].
      apply list_elem_of_singleton in Hin. now injection Hin as -> ->.
  - intros l E. apply Forall_forall. intros n Hn.
    destruct (process s u) as [s' o] eqn:P. simpl in E. subst o.
    destruct (process_returns_new ok tld w cfg s s' u l P n Hn)
      as (_ & page & link & _ & _ & Hv & Hl).
    right. now exists link.
Qed.

Lemma seed_scope (s : State) :
  logged s ->
  logged (fst (seed ok tld w cfg s))
  /\ forall l, snd (seed ok tld w cfg s) = Some l -> Forall scoped l.
Proof.
  intros H. split.
  - intros o u Hin. destruct (seed_frame ok tld w cfg s) as (_ & Hr & _).
    rewrite Hr in Hin. apply elem_of_app in Hin.
    destruct Hin as [Hin|Hin]; [now apply (H o)|].
    apply list_elem_of_singleton in Hin. injection Hin as -> ->. now left.
  - unfold seed, get.
    destruct (w (requests s) (base_url cfg)) as [|status page]; [discriminate|].
    destruct (negb (status =? 200)%Z);
      [intros l E; injection E as <-; constructor|].
    destruct (add_main_page_links ok tld cfg (anchors page) _) as [s2 [|]];
      [|discriminate].
    cbn [snd]. intros l.
    destruct (collect_links _ _ _ _ _ (language_variants page) [])
      as [l1|] eqn:E1; simpl; [|discriminate].
    destruct (collect_links _ _ _ _ _ (header_menu_links page) l1)
      as [l2|] eqn:E2; simpl; [|discriminate].
    intros E3.
    apply (collect_links_scope _ _ _ _ _ E3).
    apply (collect_links_scope _ _ _ _ _ E2).
    apply (collect_links_scope _ _ _ _ _ E1). constructor.
Qed.

Lemma add_subdomain_links_scope (visited : gset string) (links q : list string) :
  Forall scoped q -> Forall scoped (add_subdomain_links ok tld cfg visited links q).
Proof.
  revert q. induction links as [|link links IH]; intros q H; simpl; [exact H|].
  destruct (is_valid_url ok tld cfg link) as [valid|] eqn:V; [|exact H].
  destruct (valid && negb (bool_decide (link ∈ visited))) eqn:C;
    [|now apply IH].
  apply andb_true_iff in C. destruct C as [-> _].
  destruct (normalize_url ok link) as [n|] eqn:N; [|exact H].
  apply IH. apply Forall_app. split; [exact H|]. apply Forall_singleton.
  right. now exists link.
Qed.

Lemma explore_subdomain_scope (s : State) (u : string) (q : list string) :
  scoped u -> logged s -> Forall scoped q ->
  logged (fst (explore_subdomain ok tld w cfg s u q))
  /\ Forall scoped (snd (explore_subdomain ok tld w cfg s u q)).
Proof.
  intros Hu H Hq. unfold explore_subdomain, get.
  pose proof (log_request_scope s Exploration u Hu H) as H1.
  destruct (w (requests s) u) as [|status page]; [now split|].
  destruct (status =? 200)%Z; [|now split].
  split; [exact H1|]. now apply add_subdomain_links_scope.
Qed.

Lemma process_priority_scope (l : list string) (s : State) (q : list string) :
  Forall scoped l -> logged s -> Forall scoped q ->
  logged (fst (fst (process_priority ok tld w cfg l s q)))
  /\ Forall scoped (snd (fst (process_priority ok tld w cfg l s q))).
Proof.
  revert s q. induction l as [|u l IH]; intros s q Hl H Hq; simpl; [now split|].
  apply Forall_cons in Hl. destruct Hl as [Hu Hl].
  destruct (bool_decide (u ∈ visited_urls s)); [now apply IH|].
  destruct (process_scope s u Hu H) as [H1 _].
  destruct (process s u) as [s1 [new_urls|]]; [|now split].
  simpl in H1.
  destruct (urlparse ok u) as [p|]; [|now split].
  destruct (str_in _ language_prefixes); [|now apply IH].
  destruct (explore_subdomain_scope s1 u q Hu H1 Hq) as [H2 Hq2].
  destruct (explore_subdomain ok tld w cfg s1 u q) as [s2 q2].
  now apply IH.
Qed.

Lemma is_priority_url_requests (s s' : State) (u : string) (k : bool) :
  is_priority_url ok tld s u = Some (s', k) -> requests s' = requests s.
Proof.
  unfold is_priority_url. destruct (urlparse ok u) as [p|]; [|discriminate].
  simpl. destruct (str_in _ language_prefixes);
    [intros E; now injection E as <- _|].
  destruct (contains_any _ _); intros E; now injection E as <- _.
Qed.

Lemma priority_keys_frame (l : list string) (s : State) :
  requests (fst (priority_keys ok tld s l)) = requests s
  /\ forall ks, snd (priority_keys ok tld s l) = Some ks -> map fst ks = l.
Proof.
  revert s. induction l as [|u l IH]; intros s; simpl.
  - split; [reflexivity|]. intros ks E. now injection E as <-.
  - destruct (is_priority_url ok tld s u) as [[s1 k]|] eqn:K;
      [|split; [reflexivity | discriminate]].
    apply is_priority_url_requests in K.
    destruct (IH s1) as [I1 I2].
    destruct (priority_keys ok tld s1 l) as [s2 [ks|]]; simpl in *.
    + split; [congruence|]. intros ks' E. injection E as <-. simpl.
      now rewrite (I2 ks).
    + split; [congruence | discriminate].
Qed.

Lemma sort_by_priority_elems (ks : list (string * bool)) (x : string) :
  x ∈ sort_by_priority ks -> x ∈ map fst ks.
Proof.
  unfold sort_by_priority. intros H. apply elem_of_app in H.
  destruct H as [H|H]; apply list_elem_of_fmap in H;
    destruct H as (y & -> & Hy); apply list_elem_of_filter in Hy;
    destruct Hy as [_ Hy]; apply list_elem_of_fmap; now exists y.
Qed.

Lemma enqueue_scope (visited : gset string) (new_urls q : list string) :
  Forall scoped new_urls -> Forall scoped q ->
  Forall scoped (enqueue visited new_urls q).
Proof.
  revert q. induction new_urls as [|u l IH]; intros q Hl Hq; simpl; [exact Hq|].
  apply Forall_cons in Hl. destruct Hl as [Hu Hl].
  destruct (_ && _); [|now apply IH].
  apply IH; [exact Hl|]. apply Forall_app. split; [exact Hq|].
  now apply Forall_singleton.
Qed.

Lemma drain_scope (fuel : nat) (s : State) (q : list string) :
  Forall scoped q -> logged s -> logged (fst (drain ok tld w cfg fuel s q)).
Proof.
  revert s q. induction fuel as [|fuel IH]; intros s q Hq H.
  - simpl. now destruct q.
  - destruct q as [|u0 q0]; [exact H|]. cbn [drain].
    destruct (priority_keys_frame (u0 :: q0) s) as [K1 K2].
    destruct (priority_keys ok tld s (u0 :: q0)) as [s1 oks]. simpl in K1, K2.
    assert (H1 : logged s1) by (intros o u Hin; rewrite K1 in Hin; now apply (H o)).
    destruct oks as [ks|]; [|exact H1].
    + assert (Hs : Forall scoped (sort_by_priority ks)).
      { apply Forall_forall. intros x Hx. apply sort_by_priority_elems in Hx.
        rewrite (K2 ks eq_refl) in Hx. rewrite Forall_forall in Hq. now apply Hq. }
      destruct (sort_by_priority ks) as [|url rest]; [exact H1|].
      apply Forall_cons in Hs. destruct Hs as [Hu Hrest].
      destruct (bool_decide (url ∈ visited_urls s1)); [now apply IH|].
      destruct (process_scope s1 url Hu H1) as [H2 Hnew].
      destruct (process s1 url) as [s2 [new_urls|]]; [|exact H2].
      simpl in H2. apply IH; [|exact H2].
      apply enqueue_scope; [now apply Hnew | exact Hrest].
Qed.

Lemma crawl_scope (fuel : nat) (s : State) :
  logged s -> logged (fst (crawl ok tld w cfg fuel s)).
Proof.
  intros H. unfold crawl.
  destruct (seed_scope s H) as [H1 Hp].
  destruct (seed ok tld w cfg s) as [s1 [priority_urls|]]; [|exact H1].
  simpl in H1. specialize (Hp priority_urls eq_refl).
  destruct (process_scope s1 (base_url cfg) (or_introl eq_refl) H1) as [H2 _].
  destruct (process s1 (base_url cfg)) as [s2 [l|]]; [|exact H2].
  simpl in H2.
  destruct (process_priority_scope priority_urls s2 [base_url cfg] Hp H2)
    as [H3 Hq]; [apply Forall_singleton; now left|].
  destruct (process_priority ok tld w cfg priority_urls s2 [base_url cfg])
    as [[s3 q] [|]]; [|exact H3].
  simpl in H3, Hq. now apply drain_scope.
Qed.

End Text.

Section Pictures.
Import Images ImagesFacts ShelfFacts.

Variable ok : string -> bool.
Variable urljoin : string -> string -> option string.
Variable image_size : list Byte.byte -> option (Z * Z).
Variable str_hash : string -> Z.
Variable w : World.
Variable cfg : Config.

Local Abbreviation download_all := (_download_images ok image_size str_hash w cfg).
Local Abbreviation process :=
  (_process_url ok urljoin image_size str_hash w cfg).
Local Abbreviation hosted := (pages_on_host ok cfg).

Lemma follow_links_on_host (rec : State -> string -> option State)
    (u : string) (l : list Link) (s s' : State) :
  (forall st a st', a = base_url cfg \/ on_host ok cfg a ->
                    rec st a = Some st' -> hosted st -> hosted st') ->
  follow_links ok urljoin rec cfg u l s = Some s' -> hosted s -> hosted s'.
Proof.
  intros Hrec. revert s. induction l as [|link l IH]; intros s; simpl.
  - intros E. now injection E as <-.
  - destruct (truthy (href link)) as [h|]; [|apply IH].
    destruct (is_priority_link priority_keywords link h); [|apply IH].
    destruct (urljoin u h) as [a|]; [|intros E; now injection E as <-].
    destruct (urlparse ok a) as [p|] eqn:Hp; [|intros E; now injection E as <-].
    destruct (String.eqb (netloc p) (domain cfg)) eqn:Hd; [|apply IH].
    destruct (negb _); [|apply IH]. simpl.
    destruct (rec (sleep Delay s) a) as [st|] eqn:R; simpl; [|discriminate].
    intros E H. apply (IH _ E).
    assert (Ha : a = base_url cfg \/ on_host ok cfg a).
    { right. exists p. split; [exact Hp | now apply String.eqb_eq]. }
    exact (Hrec _ _ _ Ha R H).
Qed.

Lemma process_on_host (fuel : nat) (s s' : State) (u : string) (pr : bool) :
  u = base_url cfg \/ on_host ok cfg u ->
  process fuel s u pr = Some s' -> hosted s -> hosted s'.
Proof.
  revert s s' u pr. induction fuel as [|fuel IH]; intros s s' u pr Hu.
  - simpl. destruct (_ >=? _)%Z; [intros E; now injection E as <-|].
    destruct (bool_decide _); [intros E; now injection E as <- | discriminate].
  - cbn [_process_url].
    destruct (_ >=? _)%Z; [intros E; now injection E as <-|].
    destruct (bool_decide _); [intros E; now injection E as <-|].
    intros E H. unfold request in E. cbn [fst snd] in E.
    set (s1 := mkState _ _ _ _ _ _ _ _) in E.
    assert (H1 : hosted s1).
    { intros x Hx. simpl in Hx. apply elem_of_union in Hx.
      destruct Hx as [Hx|Hx]; [|now apply H].
      apply elem_of_singleton in Hx. now subst x. }
    assert (Hd : forall st, hosted st -> hosted (download_all st)).
    { intros st Hst x Hx. rewrite download_all_visited in Hx. now apply Hst. }
    destruct (w _ GET u) as [|r]; simpl in E.
    + injection E as <-. now apply Hd.
    + destruct (is_error_status (status_code r)); simpl in E.
      * injection E as <-. now apply Hd.
      * destruct (scan_page ok urljoin _ cfg u pr (html r) s1) as [after|] eqn:S;
          simpl in E; [|discriminate].
        injection E as <-. apply Hd. unfold scan_page in S.
        pose proof (scan_imgs_visited urljoin u (imgs (html r)) s1) as V2.
        destruct (scan_imgs urljoin u (imgs (html r)) s1) as [s2 [|]];
          simpl in V2.
        -- pose proof (scan_styled_visited urljoin u (styled (html r)) s2) as V3.
           destruct (scan_styled urljoin u (styled (html r)) s2) as [s3 [|]];
             simpl in V3.
           ++ assert (H3 : hosted s3).
              { intros x Hx. rewrite V3, V2 in Hx. now apply H1. }
              destruct pr; [|now injection S as <-].
              apply (follow_links_on_host _ _ _ _ _
                       (fun st a st' Ha => IH st st' a true Ha) S H3).
           ++ injection S as <-. intros x Hx. rewrite V3, V2 in Hx. now apply H1.
        -- injection S as <-. intros x Hx. rewrite V2 in Hx. now apply H1.
Qed.

Lemma scan_priority_on_host (u : string) (l : list Link) (s : State) :
  Forall (on_host ok cfg) (priority_pages s) ->
  Forall (on_host ok cfg) (priority_pages (scan_priority ok urljoin cfg u l s)).
Proof.
  revert s. induction l as [|link l IH]; intros s H; simpl; [exact H|].
  destruct (truthy (href link)) as [h|]; [|now apply IH].
  destruct (is_priority_link landing_keywords link h); [|now apply IH].
  destruct (urljoin u h) as [a|]; [|exact H].
  destruct (urlparse ok a) as [p|] eqn:Hp; [|exact H].
  destruct (String.eqb (netloc p) (domain cfg)) eqn:Hd; [|now apply IH].
  apply IH. simpl. apply Forall_app. split; [exact H|]. apply Forall_singleton.
  exists p. split; [exact Hp | now apply String.eqb_eq].
Qed.

Lemma identify_on_host (s : State) (u : string) :
  Forall (on_host ok cfg) (priority_pages s) ->
  Forall (on_host ok cfg)
    (priority_pages (_identify_priority_pages ok urljoin w cfg s u)).
Proof.
  intros H. unfold _identify_priority_pages, request. cbn [fst snd].
  destruct (w (requests s) GET u) as [|r]; [exact H|].
  destruct (is_error_status (status_code r)); [exact H|].
  now apply scan_priority_on_host.
Qed.

Lemma process_priority_pages_on_host (fuel : nat) (l : list string) (s s' : State) :
  Forall (on_host ok cfg) l ->
  process_priority_pages ok urljoin image_size str_hash w cfg fuel l s = Some s' ->
  hosted s -> hosted s'.
Proof.
  revert s. induction l as [|u l IH]; intros s Hl; simpl.
  - intros E. now injection E as <-.
  - apply Forall_cons in Hl. destruct Hl as [Hu Hl].
    destruct (_ && _); [|now apply IH].
    destruct (process fuel s u true) as [s1|] eqn:R; simpl; [|discriminate].
    intros E H. apply (IH _ Hl E).
    apply (process_on_host _ _ _ _ _ (or_intror Hu) R H).
Qed.

Lemma process_priority_pages_same (fuel : nat) (s s' : State) (u : string)
    (pr : bool) :
  process fuel s u pr = Some s' -> priority_pages s' = priority_pages s.
Proof.
  intros E.
  apply (process_keeps ok urljoin image_size str_hash w cfg
           (fun st => priority_pages st = priority_pages s)) in E; try done.
  intros st a H.
  destruct (download_frame ok image_size str_hash w cfg st a) as (_ & _ & Dp & _).
  now rewrite Dp.
Qed.

Lemma crawl_on_host (fuel : nat) (s s' : State) :
  priority_pages s = [] ->
  crawl ok urljoin image_size str_hash w cfg fuel s = Some s' -> hosted s'.
Proof.
  intros Hp. unfold crawl.
  set (s0 := set_downloaded_count 0 _).
  set (s1 := _identify_priority_pages ok urljoin w cfg s0 (base_url cfg)).
  assert (H1 : hosted s1).
  { intros x Hx. unfold s1 in Hx. rewrite identify_visited in Hx.
    now apply elem_of_empty in Hx. }
  assert (P1 : Forall (on_host ok cfg) (priority_pages s1)).
  { apply identify_on_host. simpl. rewrite Hp. constructor. }
  destruct (process fuel s1 (base_url cfg) true) as [s2|] eqn:R; simpl;
    [|discriminate].
  intros E.
  assert (P2 : Forall (on_host ok cfg) (priority_pages s2)).
  { rewrite (process_priority_pages_same _ _ _ _ _ R). exact P1. }
  apply (process_priority_pages_on_host _ _ _ _ P2 E).
  now apply (process_on_host _ _ _ _ _ (or_introl eq_refl) R).
Qed.

End Pictures.

End ScopeFacts.

(* ===================================================================== *)
(** * Further properties of the text crawler *)
(* ===================================================================== *)

Import Query Ledger Shelf Probe Paths Cases.

(** ** Normal forms *)

(** X1: a URL that [urlparse] reads has a normal form, and this neither
    ends in a slash nor holds a [#]; [normalize_url] raises only where
    [urlparse] does. *)
Theorem normal_form_shape (ok : string -> bool) (u : string) :
  match Scraper.normalize_url ok u with
  | Some n => endswith "/" n = false /\ has_char "#" n = false
  | None => urlparse ok u = None
  end.
Proof.
  destruct (Scraper.normalize_url ok u) as [n|] eqn:H.
  - split.
    + now apply (NormalFormFacts.normalize_url_no_slash ok u).
    + now apply (NormalFormFacts.normalize_url_no_hash ok u).
  - now apply NormalFormFacts.normalize_url_raises.
Qed.

(** X2: every entry of the visited set that a crawl leaves is the normal
    form of some URL: it neither ends in a slash nor holds a [#]. *)
Theorem visited_urls_are_normal_forms
    (ok : string -> bool) (tld : string -> Scraper.ExtractResult)
    (w : Scraper.World) (cfg : Scraper.Config) (fuel : nat) (n : string) :
  n ∈ Scraper.visited_urls
        (fst (Scraper.crawl ok tld w cfg fuel Scraper.initial_state)) ->
  (exists u, Scraper.normalize_url ok u = Some n)
  /\ endswith "/" n = false /\ has_char "#" n = false.
Proof.
  intros Hn.
  assert (H0 : visited_normal ok Scraper.initial_state).
  { intros m Hm. now apply elem_of_empty in Hm. }
  destruct (CrawlFacts.crawl_visited_normal ok tld w cfg fuel _ H0 n Hn) as [u Hu].
  split; [now exists u|]. split.
  - now apply (NormalFormFacts.normalize_url_no_slash ok u).
  - now apply (NormalFormFacts.normalize_url_no_hash ok u).
Qed.

Lemma visited_urls_are_normal_forms_witness :
  (exists u, Scraper.normalize_url any_host_ok u
             = Some "https://www.hotel.com/page-3")
  /\ endswith "/" "https://www.hotel.com/page-3" = false
  /\ has_char "#" "https://www.hotel.com/page-3" = false.
Proof.
  apply (visited_urls_are_normal_forms any_host_ok two_label_extract
           (site ten_links []) (scraper 5) 100).
  apply (bool_decide_unpack _). vm_compute. exact I.
Defined.

(** X3: the query parameters that [normalize_url] keeps for a booking URL
    hold no key twice; the language, currency and session keys, in any
    letter case, are dropped, and every other key has the value of its
    last [key=value] parameter. *)
Theorem booking_query_parameters (q k : string) :
  NoDup (map fst (Scraper.query_params q))
  /\ dict_get k (Scraper.query_params q)
     = if str_in (lower k) Scraper.volatile_keys then None
       else last_value k (split_on "&" q).
Proof.
  split.
  - apply DictFacts.fold_add_param_keys. split; constructor.
  - unfold Scraper.query_params. rewrite DictFacts.fold_add_param_get.
    reflexivity.
Qed.

(** a booking query with a repeated key and two volatile ones *)
Example booking_query_last_value_wins :
  Scraper.normalize_url any_host_ok
    "https://booking.hotel.com/search?room=1&LANG=en&room=2&nsid=7&flag"
  = Some "https://booking.hotel.com/search?room=2".
Proof. vm_compute. reflexivity. Qed.

(** ** One call of [_process_url] *)



(** X5: a request that fails or answers another status than 200 leaves
    the URL visited with nothing stored and no link returned, and no
    later call for a URL with the same normal form asks again, whatever
    the web would answer then. *)
Theorem failed_fetch_is_final
    (ok : string -> bool) (tld : string -> Scraper.ExtractResult)
    (w : Scraper.World) (cfg : Scraper.Config)
    (s : Scraper.State) (u n : string) :
  Scraper.normalize_url ok u = Some n -> n ∉ Scraper.visited_urls s ->
  fetch_fails (w (Scraper.requests s) u) ->
  let s' := fst (Scraper._process_url ok tld w cfg s u) in
  snd (Scraper._process_url ok tld w cfg s u) = Some []
  /\ Scraper.markdown_content s' = Scraper.markdown_content s
  /\ forall w' u', Scraper.normalize_url ok u' = Some n ->
       Scraper._process_url ok tld w' cfg s' u' = (s', Some []).
Proof.
  intros Hn Hv Hf s'.
  destruct (CrawlFacts.process_failed_fetch ok tld w cfg s u n Hn Hv Hf)
    as (H1 & H2 & H3).
  split; [exact H1|]. split; [exact H2|].
  intros w' u' Hu'. now apply (ScraperFacts.process_visited_noop ok tld w' cfg s' u' n).
Qed.

Lemma failed_fetch_is_final_witness :
  let process := Scraper._process_url any_host_ok two_label_extract (site [] [])
                   (scraper 5) in
  let s' := fst (process Scraper.initial_state "https://www.hotel.com/missing") in
  snd (process Scraper.initial_state "https://www.hotel.com/missing") = Some []
  /\ Scraper.markdown_content s' = Scraper.markdown_content Scraper.initial_state
  /\ forall w' u',
       Scraper.normalize_url any_host_ok u' = Some "https://www.hotel.com/missing" ->
       Scraper._process_url any_host_ok two_label_extract w' (scraper 5) s' u'
       = (s', Some []).
Proof.
  apply (failed_fetch_is_final any_host_ok two_label_extract (site [] []) (scraper 5)
           Scraper.initial_state "https://www.hotel.com/missing"
           "https://www.hotel.com/missing").
  - vm_compute. reflexivity.
  - apply (bool_decide_unpack _). vm_compute. exact I.
  - vm_compute. discriminate.
Defined.

(** ** A whole crawl *)

(** X6: every key of the mapping that a crawl returns is a URL that
    [_process_url] requested, and its normal form is in the visited
    set. *)
Theorem crawl_stores_only_fetched_pages
    (ok : string -> bool) (tld : string -> Scraper.ExtractResult)
    (w : Scraper.World) (cfg : Scraper.Config) (fuel : nat) (u : string) :
  let s := fst (Scraper.crawl ok tld w cfg fuel Scraper.initial_state) in
  is_Some (Scraper.markdown_content s !! u) ->
  (Scraper.Processing, u) ∈ Scraper.requests s
  /\ exists n, Scraper.normalize_url ok u = Some n /\ n ∈ Scraper.visited_urls s.
Proof.
  intros s. apply (CrawlFacts.crawl_stored_fetched ok tld w cfg fuel).
  intros x Hx. simpl in Hx. rewrite lookup_empty in Hx. now destruct Hx.
Qed.

Lemma crawl_stores_only_fetched_pages_witness :
  let s := fst (Scraper.crawl any_host_ok two_label_extract (site ten_links [])
                  (scraper 5) 100 Scraper.initial_state) in
  (Scraper.Processing, "https://www.hotel.com/page-7") ∈ Scraper.requests s
  /\ exists n, Scraper.normalize_url any_host_ok "https://www.hotel.com/page-7"
               = Some n
               /\ n ∈ Scraper.visited_urls s.
Proof.
  apply (crawl_stores_only_fetched_pages any_host_ok two_label_extract
           (site ten_links []) (scraper 5) 100 "https://www.hotel.com/page-7").
  vm_compute. eexists. reflexivity.
Defined.

(** X7: the loop of [crawl] that appends new URLs to a work list without
    repeats leaves it without repeats; the list it had stays in front,
    and what is appended are the new URLs that are not visited. *)
Theorem enqueue_keeps_queue_distinct
    (visited : gset string) (new_urls urls_to_visit : list string) :
  NoDup urls_to_visit ->
  NoDup (Scraper.enqueue visited new_urls urls_to_visit)
  /\ urls_to_visit `prefix_of` Scraper.enqueue visited new_urls urls_to_visit
  /\ forall x, x ∈ Scraper.enqueue visited new_urls urls_to_visit
               <-> x ∈ urls_to_visit \/ (x ∈ new_urls /\ x ∉ visited).
Proof. apply CrawlFacts.enqueue_spec. Qed.

Lemma enqueue_keeps_queue_distinct_witness :
  NoDup (Scraper.enqueue {[ "a" ]} ["a"; "b"; "b"; "c"] ["c"])
  /\ ["c"] `prefix_of` Scraper.enqueue {[ "a" ]} ["a"; "b"; "b"; "c"] ["c"]
  /\ forall x, x ∈ Scraper.enqueue {[ "a" ]} ["a"; "b"; "b"; "c"] ["c"]
               <-> x ∈ ["c"] \/ (x ∈ ["a"; "b"; "b"; "c"] /\ x ∉ ({[ "a" ]} : gset string)).
Proof.
  apply (enqueue_keeps_queue_distinct {[ "a" ]} ["a"; "b"; "b"; "c"] ["c"]).
  apply (bool_decide_unpack _). vm_compute. exact I.
Defined.

(** X8: a crawl that does not end in its outer [except] has asked for the
    landing page twice before anything else: once in its upfront pass
    and once more through [_process_url]. *)
Theorem landing_page_is_requested_twice
    (ok : string -> bool) (tld : string -> Scraper.ExtractResult)
    (w : Scraper.World) (cfg : Scraper.Config) (fuel : nat) :
  snd (Scraper.crawl ok tld w cfg fuel Scraper.initial_state) <> Scraper.Raised ->
  exists rest,
    Scraper.requests (fst (Scraper.crawl ok tld w cfg fuel Scraper.initial_state))
    = (Scraper.Upfront, Scraper.base_url cfg)
      :: (Scraper.Processing, Scraper.base_url cfg) :: rest.
Proof.
  intros H.
  now apply (CrawlFacts.crawl_log_starts ok tld w cfg fuel Scraper.initial_state).
Qed.

Lemma landing_page_is_requested_twice_witness :
  exists rest,
    Scraper.requests
      (fst (Scraper.crawl any_host_ok two_label_extract (site ten_links [])
              (scraper 5) 100 Scraper.initial_state))
    = (Scraper.Upfront, landing) :: (Scraper.Processing, landing) :: rest.
Proof.
  apply (landing_page_is_requested_twice any_host_ok two_label_extract
           (site ten_links []) (scraper 5) 100).
  vm_compute. discriminate.
Defined.

(** X9: when the first request of a crawl, the one for the landing page,
    raises, the crawl ends in its outer [except]: [_process_url] is never
    called and the mapping stays as it was. *)
Theorem landing_request_error_ends_crawl
    (ok : string -> bool) (tld : string -> Scraper.ExtractResult)
    (w : Scraper.World) (cfg : Scraper.Config) (fuel : nat) (s : Scraper.State) :
  w (Scraper.requests s) (Scraper.base_url cfg) = Scraper.RequestError ->
  Scraper.crawl ok tld w cfg fuel s
  = (Scraper.log_request Scraper.Upfront (Scraper.base_url cfg) s, Scraper.Raised).
Proof.
  intros H. unfold Scraper.crawl, Scraper.seed, Scraper.get. now rewrite H.
Qed.

Lemma landing_request_error_ends_crawl_witness :
  Scraper.crawl any_host_ok two_label_extract offline (scraper 5) 100
    Scraper.initial_state
  = (Scraper.log_request Scraper.Upfront (Scraper.base_url (scraper 5))
       Scraper.initial_state, Scraper.Raised).
Proof.
  apply (landing_request_error_ends_crawl any_host_ok two_label_extract offline
           (scraper 5) 100 Scraper.initial_state).
  reflexivity.
Defined.

(* ===================================================================== *)
(** * Further properties of the image downloader *)
(* ===================================================================== *)

(** ** The files and requests of a crawl *)

(** X10: with a unit of fuel for each page of the cap the image crawl
    returns, and every file it has written has a path
    [os.path.join(image_dir, name)] for a name that holds a dot and no
    slash. *)
Theorem image_crawl_writes_into_image_dir
    (ok : string -> bool) (urljoin : string -> string -> option string)
    (image_size : list Byte.byte -> option (Z * Z)) (str_hash : string -> Z)
    (w : Images.World) (cfg : Images.Config) (fuel : nat) :
  (Z.to_nat (Images.max_pages cfg) <= fuel)%nat ->
  exists s',
    Images.crawl ok urljoin image_size str_hash w cfg fuel Images.initial_state
    = Some s'
    /\ Forall (fun f => in_image_dir cfg (fst f)) (Images.writes s').
Proof.
  intros Hf.
  destruct (ImagesFacts.crawl_within_cap ok urljoin image_size str_hash w cfg fuel
              Images.initial_state Hf) as (s' & E & _).
  exists s'. split; [exact E|].
  apply (ShelfFacts.crawl_tidy ok urljoin image_size str_hash w cfg fuel _ _ E).
  apply ShelfFacts.tidy_initial.
Qed.

Lemma image_crawl_writes_into_image_dir_witness :
  exists s',
    Images.crawl any_host_ok absolute_urljoin full_size zero_hash gallery
      downloader 20 Images.initial_state = Some s'
    /\ Forall (fun f => in_image_dir downloader (fst f)) (Images.writes s').
Proof.
  apply (image_crawl_writes_into_image_dir any_host_ok absolute_urljoin full_size
           zero_hash gallery downloader 20).
  vm_compute. lia.
Defined.

(** X11: the count that the image crawl returns is the number of files it
    has written, which the number of files on disk cannot exceed. *)
Theorem image_crawl_counts_writes
    (ok : string -> bool) (urljoin : string -> string -> option string)
    (image_size : list Byte.byte -> option (Z * Z)) (str_hash : string -> Z)
    (w : Images.World) (cfg : Images.Config) (fuel : nat) :
  (Z.to_nat (Images.max_pages cfg) <= fuel)%nat ->
  exists s',
    Images.crawl ok urljoin image_size str_hash w cfg fuel Images.initial_state
    = Some s'
    /\ Images.downloaded_count s' = Z.of_nat (length (Images.writes s'))
    /\ (size (dom (Images.disk s')) <= length (Images.writes s'))%nat.
Proof.
  intros Hf.
  destruct (ImagesFacts.crawl_within_cap ok urljoin image_size str_hash w cfg fuel
              Images.initial_state Hf) as (s' & E & _).
  exists s'. split; [exact E|].
  destruct (ShelfFacts.crawl_tidy ok urljoin image_size str_hash w cfg fuel _ _ E)
    as (H1 & _ & H3); [apply ShelfFacts.tidy_initial|].
  split; [exact H1|]. rewrite H3.
  etrans; [apply ShelfFacts.size_list_to_set_le|]. now rewrite length_map.
Qed.

Lemma image_crawl_counts_writes_witness :
  exists s',
    Images.crawl any_host_ok absolute_urljoin full_size zero_hash twins
      downloader 20 Images.initial_state = Some s'
    /\ Images.downloaded_count s' = Z.of_nat (length (Images.writes s'))
    /\ (size (dom (Images.disk s')) <= length (Images.writes s'))%nat.
Proof.
  apply (image_crawl_counts_writes any_host_ok absolute_urljoin full_size
           zero_hash twins downloader 20).
  vm_compute. lia.
Defined.

(** two photos with one file name: two downloads are counted, one file is
    left on disk *)
Example same_name_is_overwritten :
  outcome <$> Images.crawl any_host_ok absolute_urljoin full_size zero_hash
                twins downloader 20 Images.initial_state
  = Some {| files_written := [photo; photo];
            files_on_disk := 1;
            images_counted := 2;
            hashes_recorded := [] |}.
Proof. vm_compute. reflexivity. Qed.

(** X12: the image crawl sends GET requests only, and its only sleeps are
    the delay before a followed link: it never probes with HEAD and
    never backs off. *)
Theorem image_crawl_is_quiet
    (ok : string -> bool) (urljoin : string -> string -> option string)
    (image_size : list Byte.byte -> option (Z * Z)) (str_hash : string -> Z)
    (w : Images.World) (cfg : Images.Config) (fuel : nat) :
  (Z.to_nat (Images.max_pages cfg) <= fuel)%nat ->
  exists s',
    Images.crawl ok urljoin image_size str_hash w cfg fuel Images.initial_state
    = Some s'
    /\ Forall (fun r => fst r = Images.GET) (Images.requests s')
    /\ Forall (fun p => p = Images.Delay) (Images.pauses s').
Proof.
  intros Hf.
  destruct (ImagesFacts.crawl_within_cap ok urljoin image_size str_hash w cfg fuel
              Images.initial_state Hf) as (s' & E & _).
  exists s'. split; [exact E|].
  apply (ShelfFacts.crawl_quiet ok urljoin image_size str_hash w cfg fuel _ _ E).
  split; constructor.
Qed.

Lemma image_crawl_is_quiet_witness :
  exists s',
    Images.crawl any_host_ok absolute_urljoin full_size zero_hash
      (linked_site fixed_img) downloader 20 Images.initial_state = Some s'
    /\ Forall (fun r => fst r = Images.GET) (Images.requests s')
    /\ Forall (fun p => p = Images.Delay) (Images.pauses s').
Proof.
  apply (image_crawl_is_quiet any_host_ok absolute_urljoin full_size zero_hash
           (linked_site fixed_img) downloader 20).
  vm_compute. lia.
Defined.

(** X13: with a page cap above zero the image crawl asks for the landing
    page twice before anything else: once to look for priority pages and
    once more to process it. *)
Theorem image_crawl_requests_landing_twice
    (ok : string -> bool) (urljoin : string -> string -> option string)
    (image_size : list Byte.byte -> option (Z * Z)) (str_hash : string -> Z)
    (w : Images.World) (cfg : Images.Config) (fuel : nat) :
  (Z.to_nat (Images.max_pages cfg) <= fuel)%nat -> (0 < Images.max_pages cfg)%Z ->
  exists s' rest,
    Images.crawl ok urljoin image_size str_hash w cfg fuel Images.initial_state
    = Some s'
    /\ Images.requests s'
       = (Images.GET, Images.base_url cfg) :: (Images.GET, Images.base_url cfg)
         :: rest.
Proof.
  intros Hf Hm.
  destruct (ImagesFacts.crawl_within_cap ok urljoin image_size str_hash w cfg fuel
              Images.initial_state Hf) as (s' & E & _).
  destruct (ShelfFacts.image_crawl_log_starts ok urljoin image_size str_hash w cfg fuel
              _ _ Hm E) as [rest H].
  now exists s', rest.
Qed.

Lemma image_crawl_requests_landing_twice_witness :
  exists s' rest,
    Images.crawl any_host_ok absolute_urljoin full_size zero_hash gallery
      downloader 20 Images.initial_state = Some s'
    /\ Images.requests s'
       = (Images.GET, Images.base_url downloader)
         :: (Images.GET, Images.base_url downloader) :: rest.
Proof.
  apply (image_crawl_requests_landing_twice any_host_ok absolute_urljoin full_size
           zero_hash gallery downloader 20).
  - vm_compute. lia.
  - reflexivity.
Defined.

(** ** [download_image] and [get_image_info] *)

(** X14: over any run of [download_image] calls from the initial state,
    the files written have pairwise different digests, each on record in
    the set of hashes. *)
Theorem download_image_keeps_digests_distinct
    (ok : string -> bool) (urljoin : string -> string -> option string)
    (image_size : list Byte.byte -> option (Z * Z))
    (md5_hexdigest : list Byte.byte -> string)
    (w : Images.World) (cfg : Images.Config) (max_retries : Z)
    (urls : list string) :
  hashes_distinct md5_hexdigest
    (fold_left (fun s u =>
                  fst (Images.download_image ok urljoin image_size md5_hexdigest
                         w cfg max_retries s u))
       urls Images.initial_state).
Proof.
  apply (ProbeFacts.downloads_keep_distinct ok urljoin image_size md5_hexdigest
           (fun _ => 0%Z) w cfg).
  unfold hashes_distinct. simpl.
  split; [constructor|]. intros f Hf. now apply elem_of_nil in Hf.
Qed.

(** X15: the sleeps of one [download_image] call are 1, 2, 4, ... seconds,
    each twice the one before, and there are fewer of them than
    [max_retries]. *)
Theorem download_image_backoff_schedule
    (ok : string -> bool) (urljoin : string -> string -> option string)
    (image_size : list Byte.byte -> option (Z * Z))
    (md5_hexdigest : list Byte.byte -> string)
    (w : Images.World) (cfg : Images.Config) (max_retries : Z)
    (s : Images.State) (u : string) :
  exists k,
    Images.pauses (fst (Images.download_image ok urljoin image_size md5_hexdigest
                          w cfg max_retries s u))
    = Images.pauses s ++ doubling_waits 0 k
    /\ (k = 0%nat \/ (k < Z.to_nat max_retries)%nat).
Proof.
  apply (ImagesFacts.download_image_backoff ok urljoin image_size md5_hexdigest
           (fun _ => 0%Z)).
Qed.

(** X16: [get_image_info] sends one HEAD request and after it at most one
    GET request, and writes no file; when the HEAD answer is no image,
    or announces a length above zero and under the minimum size, it
    rejects without the GET. *)
Theorem get_image_info_probes_first
    (image_size : list Byte.byte -> option (Z * Z))
    (w : Images.World) (cfg : Images.Config) (s : Images.State) (u : string) :
  let r := Images.get_image_info image_size w cfg s u in
  ((Images.requests (fst r) = Images.requests s ++ [(Images.HEAD, u)]
    /\ Images.is_valid (snd r) = false)
   \/ Images.requests (fst r)
      = Images.requests s ++ [(Images.HEAD, u); (Images.GET, u)])
  /\ Images.writes (fst r) = Images.writes s
  /\ forall h,
       w (Images.requests s) Images.HEAD u = Images.Answer h ->
       startswith "image/" (Images.content_type_of h) = false
       \/ (exists z, Images.content_length h = Some (Some z)
                     /\ (0 < z < Images.min_size_kb cfg * 1024)%Z) ->
       Images.requests (fst r) = Images.requests s ++ [(Images.HEAD, u)]
       /\ Images.is_valid (snd r) = false.
Proof.
  intros r. split; [apply ProbeFacts.info_requests|].
  split; [apply (ImagesFacts.get_image_info_frame image_size w cfg s u)|].
  intros h Hw [Ht | (z & Hl & Hz)]; subst r.
  - unfold Images.get_image_info, Images.request. cbn [fst snd].
    rewrite Hw, Ht. now split.
  - destruct (startswith "image/" (Images.content_type_of h)) eqn:Ht.
    + rewrite (ProbeFacts.info_small_header image_size w cfg s u h z Hw Ht Hl Hz).
      now split.
    + unfold Images.get_image_info, Images.request. cbn [fst snd].
      rewrite Hw, Ht. now split.
Qed.

Lemma get_image_info_probes_first_witness :
  let r := Images.get_image_info full_size understating downloader
             Images.initial_state photo_a in
  Images.requests (fst r)
  = Images.requests Images.initial_state ++ [(Images.HEAD, photo_a)]
  /\ Images.is_valid (snd r) = false.
Proof.
  intros r.
  destruct (get_image_info_probes_first full_size understating downloader
              Images.initial_state photo_a) as (_ & _ & H).
  apply (H announced_small).
  - reflexivity.
  - right. exists 10%Z. split; [reflexivity | vm_compute; split; reflexivity].
Defined.

(** X17: an image that [get_image_info] accepts was announced as an
    image by the HEAD answer, and the body of the GET answer has at
    least the minimum size and decodes to at least the minimum width and
    height; the answer carries the content type of the HEAD answer and
    the measures of the GET body. *)
Theorem get_image_info_accepts_qualified
    (image_size : list Byte.byte -> option (Z * Z))
    (w : Images.World) (cfg : Images.Config) (s : Images.State) (u : string) :
  Images.is_valid (snd (Images.get_image_info image_size w cfg s u)) = true ->
  exists h g wd ht,
    w (Images.requests s) Images.HEAD u = Images.Answer h
    /\ w (Images.requests s ++ [(Images.HEAD, u)]) Images.GET u = Images.Answer g
    /\ startswith "image/" (Images.content_type_of h) = true
    /\ image_size (Images.content g) = Some (wd, ht)
    /\ accepted cfg (Images.content_type_of h) wd ht (Images.size_bytes_of g)
         (snd (Images.get_image_info image_size w cfg s u)).
Proof. apply ProbeFacts.info_accepts. Qed.

Lemma get_image_info_accepts_qualified_witness :
  exists h g wd ht,
    gallery (Images.requests Images.initial_state) Images.HEAD photo_a
    = Images.Answer h
    /\ gallery (Images.requests Images.initial_state ++ [(Images.HEAD, photo_a)])
         Images.GET photo_a = Images.Answer g
    /\ startswith "image/" (Images.content_type_of h) = true
    /\ full_size (Images.content g) = Some (wd, ht)
    /\ accepted downloader (Images.content_type_of h) wd ht (Images.size_bytes_of g)
         (snd (Images.get_image_info full_size gallery downloader
                 Images.initial_state photo_a)).
Proof.
  apply (get_image_info_accepts_qualified full_size gallery downloader
           Images.initial_state photo_a).
  vm_compute. reflexivity.
Defined.

(** ** The scan of a page *)

(** X18: every URL that the scan of the [img] elements adds to the image
    set is the absolute URL of the [src] or the [data-src] of an element
    that has a [src], is not icon-sized and whose [src] holds none of
    the decoration marks. *)
Theorem scan_collects_content_images
    (urljoin : string -> string -> option string)
    (url : string) (l : list Images.Img) (s : Images.State) (x : string) :
  x ∈ Images.image_urls (fst (Images.scan_imgs urljoin url l s)) ->
  x ∈ Images.image_urls s
  \/ exists img, img ∈ l /\ content_image urljoin url img x.
Proof. apply ProbeFacts.scan_imgs_content. Qed.

Lemma scan_collects_content_images_witness :
  photo_b ∈ Images.image_urls Images.initial_state
  \/ exists img, img ∈ Images.imgs gallery_page
                 /\ content_image absolute_urljoin landing img photo_b.
Proof.
  apply (scan_collects_content_images absolute_urljoin landing
           (Images.imgs gallery_page) Images.initial_state photo_b).
  apply (bool_decide_unpack _). vm_compute. exact I.
Defined.

(** X19: on a page with an [img] element that has a [src], a [height]
    and a [width] that is no integer, [_process_url] follows no link:
    it leaves the page as the one new entry of the visited set and never
    sleeps. *)
Theorem malformed_width_stops_link_following
    (ok : string -> bool) (urljoin : string -> string -> option string)
    (image_size : list Byte.byte -> option (Z * Z)) (str_hash : string -> Z)
    (w : Images.World) (cfg : Images.Config) (fuel : nat)
    (s : Images.State) (u : string) (r : Images.HttpResponse) (img : Images.Img) :
  (Z.of_nat (size (Images.visited_urls s)) < Images.max_pages cfg)%Z ->
  u ∉ Images.visited_urls s ->
  w (Images.requests s) Images.GET u = Images.Answer r ->
  Images.is_error_status (Images.status_code r) = false ->
  img ∈ Images.imgs (Images.html r) -> malformed_width img ->
  exists s',
    Images._process_url ok urljoin image_size str_hash w cfg (S fuel) s u true
    = Some s'
    /\ Images.visited_urls s' = {[ u ]} ∪ Images.visited_urls s
    /\ Images.pauses s' = Images.pauses s.
Proof. apply ProbeFacts.process_malformed. Qed.

Lemma malformed_width_stops_link_following_witness :
  exists s',
    Images._process_url any_host_ok absolute_urljoin full_size zero_hash
      (linked_site fluid_img) downloader 20 Images.initial_state landing true
    = Some s'
    /\ Images.visited_urls s' = {[ landing ]} ∪ Images.visited_urls Images.initial_state
    /\ Images.pauses s' = Images.pauses Images.initial_state.
Proof.
  apply (malformed_width_stops_link_following any_host_ok absolute_urljoin
           full_size zero_hash (linked_site fluid_img) downloader 19
           Images.initial_state landing (html_answer (linked_page fluid_img))
           fluid_img).
  - vm_compute. reflexivity.
  - apply (bool_decide_unpack _). vm_compute. exact I.
  - reflexivity.
  - reflexivity.
  - simpl. left.
  - split; [eexists; reflexivity|]. split; [reflexivity | eexists; reflexivity].
Defined.

(** the same page with the width 800: the link to the rooms is followed *)
Example integer_width_lets_links_through :
  (fun s => (elements (Images.visited_urls s), Images.pauses s))
  <$> Images._process_url any_host_ok absolute_urljoin full_size zero_hash
        (linked_site fixed_img) downloader 20 Images.initial_state landing true
  = Some (elements ({[ landing; rooms ]} : gset string), [Images.Delay]).
Proof. vm_compute. reflexivity. Qed.

(** ** Folder and file names *)

(** X20: [_get_folder_name_from_url] raises exactly where [urlparse]
    does; the folder name it makes of a URL has at most 100 characters,
    holds no slash and does not start with a dot; it is empty for a URL
    without a host whose path is empty or the root, and for no other. *)
Theorem folder_name_is_one_component (ok : string -> bool) (url : string) :
  match urlparse ok url with
  | Some p =>
      exists folder_name,
        _get_folder_name_from_url ok url = Some folder_name
        /\ (String.length folder_name <= 100)%nat
        /\ has_char "/" folder_name = false
        /\ startswith "." folder_name = false
        /\ (folder_name = "" <-> netloc p = "" /\ (path p = "" \/ path p = "/"))
  | None => _get_folder_name_from_url ok url = None
  end.
Proof.
  destruct (urlparse ok url) as [p|] eqn:Hp.
  - destruct (_get_folder_name_from_url ok url) as [f|] eqn:E.
    + exists f. split; [reflexivity|].
      destruct (PathFacts.folder_name_shape ok url f E) as (H1 & H2 & H3).
      repeat split; try assumption;
        now apply (PathFacts.folder_name_empty ok url f p Hp E).
    + apply PathFacts.folder_name_raises in E. congruence.
  - now apply PathFacts.folder_name_raises.
Qed.

(** a URL with a port, a long path and reserved characters *)
Example folder_name_of_a_long_url :
  _get_folder_name_from_url any_host_ok
    "https://www.hotel.com:8443/en/rooms/deluxe-suite-with-sea-view-and-balcony/gallery:1/"
  = Some "www_hotel_com:8443_en_rooms_deluxe-suite-with-sea-view-and-balcony_ga".
Proof. vm_compute. reflexivity. Qed.

(** a URL that is a scheme and nothing else has the empty folder name:
    the constructor then takes the folder of all images as the image
    directory *)
Example folder_name_of_a_bare_scheme :
  _get_folder_name_from_url any_host_ok "https://" = Some ""
  /\ Images.image_dir
       <$> __init__ any_host_ok empty_disk "https://" None 800 600 50 20
     = Some "MCP/data/images/".
Proof. split; vm_compute; reflexivity. Qed.

(** X21: for a URL that [urlparse] reads, [save_markdown_content]
    returns [MCP/data/scraped/<host>_<timestamp>.json], with the reserved
    characters of the host replaced, when the directory is made and the
    file written, and [None] when either raises; [structure_content],
    given that file, returns the file of the same name under
    [MCP/data/structured] when the reading and structuring return, the
    directory is made and the file written, and [None] when one of them
    raises; the id that [extract_url_from_structured_json] reads off that
    file name is [<host>_<timestamp>], which holds no slash. *)
Theorem saved_file_names
    (ok : string -> bool) (fs : Os.FileSystem) (structured : option bool)
    (url : string) (p : ParseResult) (timestamp : nat) :
  urlparse ok url = Some p ->
  let stem := sanitize (netloc p) +:+ "_" +:+ Images.str_of_nat timestamp in
  let scraped := "MCP/data/scraped/" +:+ stem +:+ ".json" in
  let copy := "MCP/data/structured/" +:+ stem +:+ ".json" in
  has_char "/" stem = false
  /\ save_markdown_content ok fs url timestamp
     = (if Os.makedirs fs "MCP/data/scraped" && Os.dump_json fs scraped
        then Some scraped else None)
  /\ structure_content fs structured scraped
     = (if bool_decide (is_Some structured)
           && Os.makedirs fs "MCP/data/structured" && Os.dump_json fs copy
        then Some copy else None)
  /\ filename_id copy = stem.
Proof. apply PathFacts.saved_names. Qed.

Lemma saved_file_names_witness :
  has_char "/" "www.hotel.com_8443_3600" = false
  /\ save_markdown_content any_host_ok empty_disk
       "https://www.hotel.com:8443/rooms" 3600
     = Some "MCP/data/scraped/www.hotel.com_8443_3600.json"
  /\ structure_content empty_disk (Some true)
       "MCP/data/scraped/www.hotel.com_8443_3600.json"
     = Some "MCP/data/structured/www.hotel.com_8443_3600.json"
  /\ filename_id "MCP/data/structured/www.hotel.com_8443_3600.json"
     = "www.hotel.com_8443_3600".
Proof.
  apply (saved_file_names any_host_ok empty_disk (Some true)
           "https://www.hotel.com:8443/rooms"
           (mkParse "https" "www.hotel.com:8443" "/rooms" "" "" "") 3600).
  vm_compute. reflexivity.
Defined.

(** a host with a NUL in it, which [urlparse] reads: the file cannot be
    written and [save_markdown_content] returns [None]; so it does on a
    disk on which nothing can be made *)
Example unwritable_names_are_not_saved :
  let url := "https://www.hotel" +:+ String "000" ".com/rooms" in
  netloc <$> urlparse any_host_ok url = Some ("www.hotel" +:+ String "000" ".com")
  /\ save_markdown_content any_host_ok empty_disk url 3600 = None
  /\ save_markdown_content any_host_ok locked_disk
       "https://www.hotel.com/rooms" 3600 = None.
Proof. repeat split; vm_compute; reflexivity. Qed.

(* ===================================================================== *)
(** * The scope of the two crawls *)
(* ===================================================================== *)

Import Scope.

(** X22: a URL that [is_valid_url] accepts although it is not on the
    site is a booking URL for [is_booking_url], so that [_process_url]
    counts it against the booking limit. *)
Theorem foreign_urls_are_booking_urls
    (ok : string -> bool) (tld : string -> Scraper.ExtractResult)
    (cfg : Scraper.Config) (u : string) :
  Scraper.is_valid_url ok tld cfg u = Some true ->
  Scraper.is_same_site ok tld cfg u = Some false ->
  Scraper.is_booking_url ok u = Some true.
Proof.
  unfold Scraper.is_valid_url, Scraper.is_booking_url. intros Hv Hs.
  destruct (urlparse ok u) as [p|]; [|discriminate]. simpl in *.
  destruct (Scraper.is_empty (netloc p)); [discriminate|].
  rewrite Hs in Hv. simpl in Hv.
  destruct (contains_any Scraper.potential_booking_domains (lower (netloc p)));
    [reflexivity | discriminate].
Qed.

Lemma foreign_urls_are_booking_urls_witness :
  Scraper.is_booking_url any_host_ok
    "https://booking.hotel.com.partner.net/brochure.pdf" = Some true.
Proof.
  apply (foreign_urls_are_booking_urls any_host_ok two_label_extract (scraper 5)).
  - vm_compute. reflexivity.
  - vm_compute. reflexivity.
Defined.

(** X23: every request of a text crawl, whatever its place in the code,
    is for the landing page or for the normal form of a link that
    [is_valid_url] accepts. *)
Theorem text_crawl_requests_in_scope
    (ok : string -> bool) (tld : string -> Scraper.ExtractResult)
    (w : Scraper.World) (cfg : Scraper.Config) (fuel : nat)
    (o : Scraper.Origin) (u : string) :
  (o, u) ∈ Scraper.requests
             (fst (Scraper.crawl ok tld w cfg fuel Scraper.initial_state)) ->
  u = Scraper.base_url cfg
  \/ exists link, Scraper.is_valid_url ok tld cfg link = Some true
                  /\ Scraper.normalize_url ok link = Some u.
Proof.
  apply (ScopeFacts.crawl_scope ok tld w cfg fuel Scraper.initial_state).
  intros o' u' H. now apply elem_of_nil in H.
Qed.

Lemma text_crawl_requests_in_scope_witness :
  "https://reserve.hotel.com/rooms" = Scraper.base_url (scraper 1)
  \/ exists link,
       Scraper.is_valid_url any_host_ok two_label_extract (scraper 1) link
       = Some true
       /\ Scraper.normalize_url any_host_ok link
          = Some "https://reserve.hotel.com/rooms".
Proof.
  apply (text_crawl_requests_in_scope any_host_ok two_label_extract
           (site [] two_engines) (scraper 1) 100 Scraper.Processing).
  vm_compute. do 3 right. left.
Defined.

(** X24: with a unit of fuel for each page of the cap the image crawl
    returns, and every page it has visited is the landing page or a URL
    whose host is the host of the landing page. *)
Theorem image_crawl_stays_on_host
    (ok : string -> bool) (urljoin : string -> string -> option string)
    (image_size : list Byte.byte -> option (Z * Z)) (str_hash : string -> Z)
    (w : Images.World) (cfg : Images.Config) (fuel : nat) :
  (Z.to_nat (Images.max_pages cfg) <= fuel)%nat ->
  exists s',
    Images.crawl ok urljoin image_size str_hash w cfg fuel Images.initial_state
    = Some s'
    /\ forall x, x ∈ Images.visited_urls s' ->
         x = Images.base_url cfg \/ on_host ok cfg x.
Proof.
  intros Hf.
  destruct (ImagesFacts.crawl_within_cap ok urljoin image_size str_hash w cfg fuel
              Images.initial_state Hf) as (s' & E & _).
  exists s'. split; [exact E|].
  apply (ScopeFacts.crawl_on_host ok urljoin image_size str_hash w cfg fuel
           Images.initial_state s' eq_refl E).
Qed.

Lemma image_crawl_stays_on_host_witness :
  exists s',
    Images.crawl any_host_ok absolute_urljoin full_size zero_hash
      (linked_site fixed_img) downloader 20 Images.initial_state = Some s'
    /\ forall x, x ∈ Images.visited_urls s' ->
         x = Images.base_url downloader \/ on_host any_host_ok downloader x.
Proof.
  apply (image_crawl_stays_on_host any_host_ok absolute_urljoin full_size
           zero_hash (linked_site fixed_img) downloader 20).
  vm_compute. lia.
Defined.

(** X25: the constructor of [ImageDownloader], given no unique id,
    raises exactly when [urlparse] raises or a directory cannot be made:
    [MCP/data/images], or the image directory when it does not exist.
    When it returns, the image directory is [MCP/data/images/<folder>]
    for the folder name made of the URL, and the domain is the host of
    the URL. *)
Theorem default_image_dir
    (ok : string -> bool) (fs : Os.FileSystem) (base_url : string)
    (min_width min_height min_size_kb max_pages : Z) :
  match __init__ ok fs base_url None min_width min_height min_size_kb max_pages with
  | Some cfg =>
      exists folder_name,
        _get_folder_name_from_url ok base_url = Some folder_name
        /\ Images.image_dir cfg = "MCP/data/images/" +:+ folder_name
        /\ Images.base_url cfg = base_url
        /\ on_host ok cfg base_url
        /\ Os.makedirs fs "MCP/data/images" = true
        /\ (Os.path_exists fs (Images.image_dir cfg)
            || Os.makedirs fs (Images.image_dir cfg)) = true
  | None =>
      urlparse ok base_url = None
      \/ Os.makedirs fs "MCP/data/images" = false
      \/ exists folder_name,
           _get_folder_name_from_url ok base_url = Some folder_name
           /\ Os.path_exists fs ("MCP/data/images/" +:+ folder_name) = false
           /\ Os.makedirs fs ("MCP/data/images/" +:+ folder_name) = false
  end.
Proof.
  unfold __init__. destruct (urlparse ok base_url) as [p|] eqn:Hp; [|now left].
  cbn [mbind option_bind Images.truthy].
  destruct (_get_folder_name_from_url ok base_url) as [f|] eqn:Hf;
    [|apply PathFacts.folder_name_raises in Hf; congruence].
  cbn [mbind option_bind].
  destruct (PathFacts.folder_name_shape ok base_url f Hf) as (_ & Hs & _).
  assert (Hdir : Images.path_join (Images.path_join "MCP/data" "images") f
                 = "MCP/data/images/" +:+ f).
  { unfold Images.path_join at 1.
    rewrite (PathFacts.has_char_first "/" f Hs). reflexivity. }
  rewrite Hdir.
  change (Images.path_join "MCP/data" "images") with "MCP/data/images".
  destruct (Os.makedirs fs "MCP/data/images") eqn:Hbase; [|right; now left].
  destruct (Os.path_exists fs ("MCP/data/images/" +:+ f)
            || Os.makedirs fs ("MCP/data/images/" +:+ f)) eqn:Hmake.
  - exists f. cbn [Images.image_dir Images.base_url].
    repeat split; try assumption; try reflexivity. now exists p.
  - right. right. exists f. apply orb_false_iff in Hmake. now split.
Qed.

(** on a disk on which no directory can be made the constructor raises *)
Example constructor_needs_its_directories :
  __init__ any_host_ok locked_disk "https://www.hotel.com" None 800 600 50 20 = None
  /\ Images.image_dir
       <$> __init__ any_host_ok empty_disk "https://www.hotel.com" None 800 600 50 20
     = Some "MCP/data/images/www_hotel_com".
Proof. split; vm_compute; reflexivity. Qed.

(** X26: [ImageDownloader.is_valid_url] accepts every URL whose host
    holds the last two labels of the landing page's host anywhere in
    it. *)
Theorem image_scope_accepts_lookalike_hosts
    (ok : string -> bool) (cfg : Images.Config) (url : string) (p : ParseResult)
    (before after : string) :
  urlparse ok url = Some p ->
  netloc p = before +:+ Images.last_two_labels (Images.domain cfg) +:+ after ->
  netloc p <> "" ->
  Images.is_valid_url ok cfg url = true.
Proof.
  intros Hp Hn Hne. unfold Images.is_valid_url. rewrite Hp.
  destruct (netloc p) as [|c r] eqn:E; [congruence|].
  destruct (String.eqb _ _); [reflexivity|].
  now rewrite Hn, PathFacts.contains_infix.
Qed.

Lemma image_scope_accepts_lookalike_hosts_witness :
  Images.is_valid_url any_host_ok downloader "https://www.hotel.com.example.org/a"
  = true.
Proof.
  apply (image_scope_accepts_lookalike_hosts any_host_ok downloader
           "https://www.hotel.com.example.org/a"
           (mkParse "https" "www.hotel.com.example.org" "/a" "" "" "")
           "www." ".example.org").
  - vm_compute. reflexivity.
  - reflexivity.
  - discriminate.
Defined.

(** for a landing page under [.co.uk] the last two labels are [co.uk]:
    every host under that suffix is accepted *)
Example every_co_uk_host_is_accepted :
  Images.is_valid_url any_host_ok
    (Images.mkConfig "https://www.hotel.co.uk" "www.hotel.co.uk"
       "MCP/data/images/hotel" 800 600 50 20)
    "https://www.elsewhere.co.uk/news" = true.
Proof. vm_compute. reflexivity. Qed.

(* ===================================================================== *)
(** * Step 4 of the pipeline *)
(* ===================================================================== *)

Import Steps.



(** the site of the two photos, given without its scheme: the crawl
    starts at [https://www.hotel.com] and success is reported *)
Example download_images_adds_the_scheme :
  (fun r => (option_map (fun s => hd_error (Images.requests s)) (fst r), snd r))
  <$> download_images any_host_ok absolute_urljoin full_size zero_hash gallery
        "www.hotel.com" None (Pipeline.mkOptions 5 800 600 1 20) 20
  = Some (Some (Some (Images.GET, "https://www.hotel.com")), true).
Proof. vm_compute. reflexivity. Qed.
